(** * Bank statement processor: a shallow embedding of
      [match_invoices/bank_statement_processor.py] and the properties of its
      text parser, tabular standardizer and directory aggregator. *)

From Stdlib Require Import List ZArith NArith QArith Qabs Bool Lia String Ascii.
From Stdlib Require Import Permutation Sorted.
Import ListNotations.

Set Implicit Arguments.
Local Open Scope N_scope.

(** ** Python strings

    A Python [str] is a sequence of Unicode code points. *)

Definition char := N.
Definition pystr := list char.

Definition char_eqb (a b : char) : bool := N.eqb a b.

Fixpoint str_eqb (a b : pystr) : bool :=
  match a, b with
  | [], [] => true
  | x :: a', y :: b' => char_eqb x y && str_eqb a' b'
  | _, _ => false
  end.

(** String literals of this file are written in UTF-8; [utf8] decodes them
    to code points. *)
Fixpoint utf8_bytes (s : string) : list N :=
  match s with
  | EmptyString => []
  | String a s' => N_of_ascii a :: utf8_bytes s'
  end.

Fixpoint utf8_decode (fuel : nat) (bs : list N) : pystr :=
  match fuel with
  | O => []
  | S fuel' =>
    match bs with
    | [] => []
    | b :: r =>
      if b <? 128 then b :: utf8_decode fuel' r
      else if b <? 224 then
        match r with
        | b1 :: r' => ((b - 192) * 64 + (b1 - 128)) :: utf8_decode fuel' r'
        | _ => []
        end
      else if b <? 240 then
        match r with
        | b1 :: b2 :: r' =>
          ((b - 224) * 4096 + (b1 - 128) * 64 + (b2 - 128)) :: utf8_decode fuel' r'
        | _ => []
        end
      else
        match r with
        | b1 :: b2 :: b3 :: r' =>
          ((b - 240) * 262144 + (b1 - 128) * 4096 + (b2 - 128) * 64 + (b3 - 128))
            :: utf8_decode fuel' r'
        | _ => []
        end
    end
  end.

Definition utf8 (s : string) : pystr :=
  let bs := utf8_bytes s in utf8_decode (List.length bs) bs.

(** ** The interpreter's Unicode database

    [\d], [\s], [str.strip], [str.upper], [str.lower] and [float] consult the
    Unicode tables of the running interpreter.  They are a parameter of the
    development; the laws are the facts about ASCII and the euro sign that
    the proofs use. *)

Definition ascii_decimal (c : char) : option N :=
  if (48 <=? c) && (c <=? 57) then Some (c - 48) else None.

Definition ascii_space (c : char) : bool :=
  ((9 <=? c) && (c <=? 13)) || ((28 <=? c) && (c <=? 32)).

Class Unicode := {
  (** the decimal value of a code point of category Nd *)
  decimal : char -> option N;
  (** [str.isspace] on one code point *)
  isspace : char -> bool;
  str_upper : pystr -> pystr;
  str_lower : pystr -> pystr;
  decimal_ascii : forall c, c < 128 -> decimal c = ascii_decimal c;
  decimal_euro : decimal 8364 = None;
  isspace_ascii : forall c, c < 128 -> isspace c = ascii_space c;
  decimal_not_space : forall c d, decimal c = Some d -> isspace c = false
}.

(** ** String operations *)

Section Strings.
Context {U : Unicode}.

Definition isdigit (c : char) : bool :=
  match decimal c with Some _ => true | None => false end.

(** [s.split('\n')] *)
Fixpoint split_lines (s : pystr) : list pystr :=
  match s with
  | [] => [[]]
  | c :: s' =>
    if char_eqb c 10 then [] :: split_lines s'
    else match split_lines s' with
         | l :: ls => (c :: l) :: ls
         | [] => [[c]]
         end
  end.

(** ['\n'.join(parts)] *)
Fixpoint join_lines (parts : list pystr) : pystr :=
  match parts with
  | [] => []
  | [p] => p
  | p :: ps => p ++ 10 :: join_lines ps
  end.

Fixpoint lstrip (s : pystr) : pystr :=
  match s with
  | c :: s' => if isspace c then lstrip s' else s
  | [] => []
  end.

Definition rstrip (s : pystr) : pystr := rev (lstrip (rev s)).

(** [s.strip()] *)
Definition strip (s : pystr) : pystr := rstrip (lstrip s).

(** [s.replace(old, new)] for a one-character [old] *)
Fixpoint replace (old : char) (new : pystr) (s : pystr) : pystr :=
  match s with
  | [] => []
  | c :: s' => if char_eqb c old then new ++ replace old new s'
               else c :: replace old new s'
  end.

Fixpoint startswith (p s : pystr) : bool :=
  match p, s with
  | [], _ => true
  | a :: p', b :: s' => char_eqb a b && startswith p' s'
  | _ :: _, [] => false
  end.

(** [sub in s] *)
Fixpoint contains (sub s : pystr) : bool :=
  startswith sub s ||
  match s with
  | [] => false
  | _ :: s' => contains sub s'
  end.

End Strings.

(** ** Regular expressions

    The fragment of Python's [re] that the pattern catalogue uses, matched
    the way [re] does: leftmost, alternatives in order, greedy repetition,
    backtracking into the continuation. *)

Inductive cset :=
| Digit                       (* \d *)
| Space                       (* \s *)
| Range (lo hi : char)        (* [lo-hi] *)
| OneOf (cs : list char).     (* a literal, or [abc] *)

Inductive regex :=
| Eps
| Sym (c : cset)
| Cat (r1 r2 : regex)
| Alt (r1 r2 : regex)
| Star (r : regex).

Definition Lit (c : char) : regex := Sym (OneOf [c]).
Definition Opt (r : regex) : regex := Alt r Eps.      (* r? *)
Definition Plus (r : regex) : regex := Cat r (Star r). (* r+ *)

(** r{n} *)
Fixpoint Times (n : nat) (r : regex) : regex :=
  match n with
  | O => Eps
  | S O => r
  | S n' => Cat r (Times n' r)
  end.

(** r{0,n} *)
Fixpoint Upto (n : nat) (r : regex) : regex :=
  match n with
  | O => Eps
  | S n' => Opt (Cat r (Upto n' r))
  end.

Section Regex.
Context {U : Unicode}.

Definition in_cset (cs : cset) (c : char) : bool :=
  match cs with
  | Digit => isdigit c
  | Space => isspace c
  | Range lo hi => (lo <=? c) && (c <=? hi)
  | OneOf l => existsb (char_eqb c) l
  end.

(** The greedy loop of [r*]: one more iteration first, as long as it consumes
    something; [step] matches one iteration of [r]. *)
Fixpoint star_loop {A : Type}
    (step : pystr -> (pystr -> option A) -> option A)
    (k : pystr -> option A) (fuel : nat) (s : pystr) : option A :=
  match fuel with
  | O => k s
  | S fuel' =>
    match step s (fun s1 => if (List.length s1 <? List.length s)%nat
                            then star_loop step k fuel' s1 else None) with
    | Some x => Some x
    | None => k s
    end
  end.

(** [re_match r s k]: match [r] at the start of [s] and hand the rest to the
    continuation [k]; the first success in backtracking order. *)
Fixpoint re_match {A : Type} (r : regex) (s : pystr) (k : pystr -> option A)
  : option A :=
  match r with
  | Eps => k s
  | Sym cs =>
    match s with
    | c :: s' => if in_cset cs c then k s' else None
    | [] => None
    end
  | Cat r1 r2 => re_match r1 s (fun s1 => re_match r2 s1 k)
  | Alt r1 r2 =>
    match re_match r1 s k with
    | Some x => Some x
    | None => re_match r2 s k
    end
  | Star r1 => star_loop (re_match r1) k (List.length s) s
  end.

(** [pattern.match(s)]: the matched prefix and what follows it. *)
Definition match_at (r : regex) (s : pystr) : option (pystr * pystr) :=
  match re_match r s (fun rest => Some rest) with
  | Some rest => Some (firstn (List.length s - List.length rest) s, rest)
  | None => None
  end.

(** [pattern.fullmatch(s)] as a truth value *)
Definition fullmatch (r : regex) (s : pystr) : bool :=
  match re_match r s (fun rest => match rest with [] => Some tt | _ => None end) with
  | Some _ => true
  | None => false
  end.

(** [[m.group() for m in re.finditer(r, s)]]: the non-overlapping matches,
    left to right.  No pattern of the catalogue matches the empty string, and
    an empty match is not reported. *)
Fixpoint finditer_from (r : regex) (skip : nat) (s : pystr) : list pystr :=
  match s with
  | [] => []
  | _ :: s' =>
    match skip with
    | S n => finditer_from r n s'
    | O =>
      match match_at r s with
      | Some (m, _) =>
        match List.length m with
        | O => finditer_from r 0 s'
        | S n => m :: finditer_from r n s'
        end
      | None => finditer_from r 0 s'
      end
    end
  end.

Definition finditer (r : regex) (s : pystr) : list pystr := finditer_from r 0 s.

(** [re.sub(r, repl, s)] *)
Fixpoint re_sub_from (r : regex) (repl : pystr) (skip : nat) (s : pystr) : pystr :=
  match s with
  | [] => []
  | c :: s' =>
    match skip with
    | S n => re_sub_from r repl n s'
    | O =>
      match match_at r s with
      | Some (m, _) =>
        match List.length m with
        | O => c :: re_sub_from r repl 0 s'
        | S n => repl ++ re_sub_from r repl n s'
        end
      | None => c :: re_sub_from r repl 0 s'
      end
    end
  end.

Definition re_sub (r : regex) (repl : pystr) (s : pystr) : pystr :=
  re_sub_from r repl 0 s.

End Regex.

(** ** Numbers

    A Python float is modelled by the exact value it was read from: [float]
    and [pd.to_numeric] round that value to the nearest double, and the sign
    tests, the negation and [abs] of the code commute with the rounding.
    Neither the rounding nor the overflow is modelled: a digit run beyond the
    range of a double, which [float] reads as [inf], keeps its exact value.
    [NaN] is pandas' missing-amount marker. *)

Inductive number :=
| Num (q : Q)
| Inf (negative : bool)
| NaN.

Definition Qltb (x y : Q) : bool := (Qnum x * QDen y <? Qnum y * QDen x)%Z.

(** [x > 0], [x < 0], [x <= 0], [x >= 0] *)
Definition gt0 (x : number) : bool :=
  match x with Num q => Qltb 0 q | Inf neg => negb neg | NaN => false end.
Definition lt0 (x : number) : bool :=
  match x with Num q => Qltb q 0 | Inf neg => neg | NaN => false end.
Definition le0 (x : number) : bool :=
  match x with Num q => Qle_bool q 0 | Inf neg => neg | NaN => false end.
Definition ge0 (x : number) : bool :=
  match x with Num q => Qle_bool 0 q | Inf neg => negb neg | NaN => false end.

(** [-x] and [abs(x)] *)
Definition neg (x : number) : number :=
  match x with Num q => Num (- q) | Inf b => Inf (negb b) | NaN => NaN end.
Definition abs (x : number) : number :=
  match x with Num q => Num (Qabs q) | Inf _ => Inf false | NaN => NaN end.

Section Float.
Context {U : Unicode}.

(** a run of decimal digits: its value, how many there were, and the rest *)
Fixpoint digits (acc : N) (n : nat) (s : pystr) : N * nat * pystr :=
  match s with
  | c :: s' =>
    match decimal c with
    | Some d => digits (acc * 10 + d) (S n) s'
    | None => (acc, n, s)
    end
  | [] => (acc, n, s)
  end.

Definition signed (negative : bool) (m : N) (frac_digits : nat) : number :=
  let z := Z.of_N m in
  Num (Qmake (if negative then - z else z) (Z.to_pos (10 ^ Z.of_nat frac_digits)))%Z.

(** [float(s)] on the strings the amount cleaner can hand over: surrounding
    white space, an optional sign, decimal digits and at most one point.
    [None] is [ValueError]. *)
Definition python_float (s : pystr) : option number :=
  let s := strip s in
  let '(negative, s) :=
    match s with
    | c :: s' => if char_eqb c 45 then (true, s')
                 else if char_eqb c 43 then (false, s') else (false, s)
    | [] => (false, s)
    end in
  let '(i, ni, s) := digits 0 0 s in
  match s with
  | [] => match ni with O => None | _ => Some (signed negative i 0) end
  | c :: s' =>
    if char_eqb c 46 then
      let '(m, nf, s'') := digits i 0 s' in
      match s'' with
      | [] => match (ni + nf)%nat with
              | O => None
              | _ => Some (signed negative m nf)
              end
      | _ => None
      end
    else None
  end.

End Float.

(** ** Exceptions and results *)

Inductive exn :=
| NotFound                (* FileNotFoundError("File not found: ...") *)
| UnsupportedFormat       (* ValueError("Unsupported file format: ...") *)
| MissingColumns          (* ValueError("Could not identify required columns in the file") *)
| UnrecodableFile         (* ValueError("Could not process CSV file with any known encoding") *)
| NoDirectorySpecified    (* ValueError("No directory specified") *)
| UnicodeDecodeError
| TypeError               (* an order comparison between str and int *)
| KeyError                (* a column label that the table does not have *)
| AmbiguousColumn         (* an operation on one column that found several with that label *)
| InvalidIndexError       (* pd.concat: reindexing a table whose labels repeat *)
| NoObjectsToConcatenate  (* pd.concat of no table *)
| External (code : N).    (* raised by a collaborator: pdfplumber, OCR, a loader *)

Inductive result (A : Type) :=
| Ok (a : A)
| Raise (e : exn).
Arguments Ok {A} a.
Arguments Raise {A} e.

Definition bind {A B : Type} (r : result A) (f : A -> result B) : result B :=
  match r with
  | Ok a => f a
  | Raise e => Raise e
  end.

Notation "x <- r ;; k" := (bind r (fun x => k))
  (at level 61, r at next level, right associativity).

(** ** Tables

    A [DataFrame] is its columns, left to right, each a label and a series of
    values; labels may repeat.  Labels are strings: the integer labels that
    [pd.read_excel] gives to numeric header cells are outside the model. *)

Inductive ttype := DEBIT | CREDIT | UNKNOWN.

Inductive value :=
| VStr (s : pystr)
| VNum (x : number)
| VBool (b : bool)
| VTime (t : option Z)   (* datetime64: an instant, or NaT ([None]) *)
| VType (t : ttype).     (* the strings 'DEBIT', 'CREDIT', 'UNKNOWN' *)

Definition Series := list value.
Definition DataFrame := list (pystr * Series).

(** What pandas and the calendar contribute. *)
Class Pandas := {
  (** [str(v)] of a cell, as [Series.astype(str)] applies it *)
  astype_str : value -> pystr;
  (** [pd.to_numeric(s, errors='coerce')] on one string *)
  to_numeric : pystr -> number;
  (** [pd.to_datetime(series, errors='coerce')], format inferred *)
  to_datetime : Series -> list (option Z);
  (** the instant of a calendar day (year, month, day), when the day exists
      and a timestamp can hold it *)
  make_timestamp : N -> N -> N -> option Z;
  to_datetime_length : forall s, List.length (to_datetime s) = List.length s
}.

Definition columns (df : DataFrame) : list pystr := map fst df.

Definition nrows (df : DataFrame) : nat :=
  match df with
  | [] => O
  | (_, s) :: _ => List.length s
  end.

(** [df.empty] *)
Definition empty (df : DataFrame) : bool :=
  match df with
  | [] => true
  | (_, s) :: _ => (List.length s =? 0)%nat
  end.

Definition labelled (label : pystr) (c : pystr * Series) : bool :=
  str_eqb (fst c) label.

(** [df[label]]: no such column, one column, or several. *)
Inductive selection :=
| NoColumn
| OneColumn (s : Series)
| SeveralColumns (cs : list Series).

Definition getitem (label : pystr) (df : DataFrame) : selection :=
  match filter (labelled label) df with
  | [] => NoColumn
  | [c] => OneColumn (snd c)
  | cs => SeveralColumns (map snd cs)
  end.

(** [df[label]] where the code goes on to use it as one series *)
Definition series_of (label : pystr) (df : DataFrame) : result Series :=
  match getitem label df with
  | NoColumn => Raise KeyError
  | OneColumn s => Ok s
  | SeveralColumns _ => Raise AmbiguousColumn
  end.

(** [df[label] = s] *)
Definition setitem (label : pystr) (s : Series) (df : DataFrame) : DataFrame :=
  if existsb (labelled label) df
  then map (fun c => if labelled label c then (label, s) else c) df
  else df ++ [(label, s)].

(** a dict display [{k1: v1, k2: v2, ...}]: a later key replaces an equal
    earlier one *)
Fixpoint dict_get (d : list (pystr * pystr)) (k : pystr) : option pystr :=
  match d with
  | [] => None
  | (k', v) :: d' =>
    match dict_get d' k with
    | Some v' => Some v'
    | None => if str_eqb k' k then Some v else None
    end
  end.

(** [df.rename(columns=d)] *)
Definition rename (d : list (pystr * pystr)) (df : DataFrame) : DataFrame :=
  map (fun c => match dict_get d (fst c) with
                | Some l => (l, snd c)
                | None => c
                end) df.

(** [df[[l1, l2, ...]]]: every column carrying each label, label by label *)
Fixpoint select (labels : list pystr) (df : DataFrame) : result DataFrame :=
  match labels with
  | [] => Ok []
  | l :: ls =>
    match filter (labelled l) df with
    | [] => Raise KeyError
    | cs => rest <- select ls df ;; Ok (cs ++ rest)
    end
  end.

(** *** Sorting by a datetime column *)

(** ascending, NaT last *)
Definition key_le (a b : option Z) : bool :=
  match a, b with
  | _, None => true
  | None, Some _ => false
  | Some x, Some y => (x <=? y)%Z
  end.

(** The sort key of the datetime column; a value that is no datetime counts
    as missing. *)
Definition sort_key (v : value) : option Z :=
  match v with
  | VTime t => t
  | _ => None
  end.

Fixpoint insert_key (x : option Z * nat) (l : list (option Z * nat))
  : list (option Z * nat) :=
  match l with
  | [] => [x]
  | y :: l' => if key_le (fst x) (fst y) then x :: l else y :: insert_key x l'
  end.

(** [argsort]: the row numbers in the order of their keys.  Rows with equal
    keys keep their order here; the quicksort that pandas uses by default
    does not promise that for long tables. *)
Definition argsort (keys : list (option Z)) : list nat :=
  map snd (fold_right insert_key [] (combine keys (seq 0 (List.length keys)))).

(** [series.take(rows)] *)
Definition take {A : Type} (rows : list nat) (s : list A) : list A :=
  flat_map (fun i => match nth_error s i with
                     | Some v => [v]
                     | None => []
                     end) rows.

(** [df.sort_values(label)].  The instants of the model carry no time zone:
    the comparison of zone-aware with naive timestamps, which pandas refuses,
    is outside the model. *)
Definition sort_values (label : pystr) (df : DataFrame) : result DataFrame :=
  s <- series_of label df ;;
  let rows := argsort (map sort_key s) in
  Ok (map (fun c => (fst c, take rows (snd c))) df).

(** *** Concatenation *)

Fixpoint has_duplicates (ls : list pystr) : bool :=
  match ls with
  | [] => false
  | l :: ls' => existsb (str_eqb l) ls' || has_duplicates ls'
  end.

Fixpoint list_eqb (a b : list pystr) : bool :=
  match a, b with
  | [], [] => true
  | x :: a', y :: b' => str_eqb x y && list_eqb a' b'
  | _, _ => false
  end.

(** rows of [bottom] under rows of [top], column by column (equal labels) *)
Fixpoint stack (top bottom : DataFrame) : DataFrame :=
  match top, bottom with
  | (l, s) :: top', (_, s') :: bottom' => (l, s ++ s') :: stack top' bottom'
  | _, _ => []
  end.

(** the labels of all tables, each once, in order of first appearance *)
Fixpoint union_labels (seen : list pystr) (ls : list pystr) : list pystr :=
  match ls with
  | [] => rev seen
  | l :: ls' => if existsb (str_eqb l) seen then union_labels seen ls'
                else union_labels (l :: seen) ls'
  end.

(** [df.reindex(columns=labels)]: a missing column is filled with NaN *)
Definition reindex (labels : list pystr) (df : DataFrame) : DataFrame :=
  map (fun l => match filter (labelled l) df with
                | c :: _ => (l, snd c)
                | [] => (l, repeat (VNum NaN) (nrows df))
                end) labels.

(** [pd.concat(frames, ignore_index=True)] for a non-empty list: tables with
    the same labels are stacked as they are; otherwise every table is
    reindexed to the union of the labels, which pandas refuses for a table
    whose labels repeat. *)
Definition concat (frames : list DataFrame) : result DataFrame :=
  match frames with
  | [] => Raise NoObjectsToConcatenate
  | first :: others =>
    if forallb (fun df => list_eqb (columns df) (columns first)) others
    then Ok (fold_left stack others first)
    else if existsb (fun df => has_duplicates (columns df)) frames
    then Raise InvalidIndexError
    else
      let labels := union_labels [] (flat_map columns frames) in
      Ok (fold_left stack (map (reindex labels) others) (reindex labels first))
  end.

(** ** The text parser: [_parse_text_content] *)

Definition SLASH : char := 47.
Definition DASH : char := 45.
Definition DOT : char := 46.
Definition COMMA : char := 44.
Definition BLANK : char := 32.
Definition EURO : char := 8364.

Infix "+++" := Cat (at level 60, right associativity).

Definition D : regex := Sym Digit.

(** # Common date patterns *)
Definition date_dmY_slash : regex :=                   (* \d{2}/\d{2}/\d{4} *)
  Times 2 D +++ Lit SLASH +++ Times 2 D +++ Lit SLASH +++ Times 4 D.
Definition date_dmY_dash : regex :=                    (* \d{2}-\d{2}-\d{4} *)
  Times 2 D +++ Lit DASH +++ Times 2 D +++ Lit DASH +++ Times 4 D.
Definition date_Ymd_dash : regex :=                    (* \d{4}-\d{2}-\d{2} *)
  Times 4 D +++ Lit DASH +++ Times 2 D +++ Lit DASH +++ Times 2 D.

Definition date_patterns : list regex :=
  [date_dmY_slash; date_dmY_dash; date_Ymd_dash].

(** # Common amount patterns *)
Definition amount_plain : regex :=                     (* -?\d+[\.,]\d{2} *)
  Opt (Lit DASH) +++ Plus D +++ Sym (OneOf [DOT; COMMA]) +++ Times 2 D.
Definition amount_euro : regex :=                      (* -?€\s*\d+[\.,]\d{2} *)
  Opt (Lit DASH) +++ Lit EURO +++ Star (Sym Space) +++ Plus D
                 +++ Sym (OneOf [DOT; COMMA]) +++ Times 2 D.
Definition amount_grouped : regex :=                   (* -?\d{1,3}(?:\.\d{3})*,\d{2} *)
  Opt (Lit DASH) +++ (D +++ Upto 2 D) +++ Star (Lit DOT +++ Times 3 D)
                 +++ Lit COMMA +++ Times 2 D.

Definition amount_patterns : list regex :=
  [amount_plain; amount_euro; amount_grouped].

Definition debit_indicators : list pystr :=
  map utf8 ["DB"; "DÉBITO"; "DEBITO"; "PAGAMENTO"; "COMPRA"; "LEVANTAMENTO"]%string.

Definition credit_indicators : list pystr :=
  map utf8 ["CR"; "CRÉDITO"; "CREDITO"; "DEPÓSITO"; "DEPOSITO";
            "TRANSFERÊNCIA RECEBIDA"]%string.

(** The variable [amount] of the loop: the cleaned text of a match, or the
    float read from it. *)
Inductive pyamount :=
| AStr (s : pystr)
| AFloat (x : number).

Record transaction := {
  date : pystr;
  description : pystr;
  amount : pyamount;
  type : ttype
}.

Section TextParser.
Context {U : Unicode} {P : Pandas}.

(** truth value of an optional string ([None] and [''] are false) *)
Definition truthy (s : option pystr) : bool :=
  match s with
  | Some (_ :: _) => true
  | _ => false
  end.

(** The date loop: the first match of the first pattern that has one. *)
Fixpoint find_date (patterns : list regex) (line : pystr) : option pystr :=
  match patterns with
  | [] => None
  | pattern :: rest =>
    match finditer pattern line with
    | m :: _ => Some m
    | [] => find_date rest line
    end
  end.

(** "Clean up amount string" *)
Definition clean_amount (m : pystr) : pystr :=
  replace COMMA [DOT] (replace DOT [] (replace BLANK [] (replace EURO [] m))).

(** The inner amount loop over the matches of one pattern: [break] on the
    first match that [float] accepts; a refused match leaves its cleaned
    text in [amount]. *)
Fixpoint scan_matches (ms : list pystr) (amount : option pyamount)
  : option pyamount :=
  match ms with
  | [] => amount
  | m :: ms' =>
    let cleaned := clean_amount m in
    match python_float cleaned with
    | Some x => Some (AFloat x)
    | None => scan_matches ms' (Some (AStr cleaned))
    end
  end.

(** The outer amount loop: [break] as soon as [amount] is not [None]. *)
Fixpoint scan_patterns (patterns : list regex) (line : pystr)
  : option pyamount :=
  match patterns with
  | [] => None
  | pattern :: rest =>
    match scan_matches (finditer pattern line) None with
    | Some a => Some a
    | None => scan_patterns rest line
    end
  end.

(** "Extract description (everything between date and amount)" *)
Definition extract_description (line : pystr) : pystr :=
  let description :=
    fold_left (fun d pattern => re_sub pattern [] d)
              (date_patterns ++ amount_patterns) line in
  strip (re_sub (Plus (Sym Space)) [BLANK] description).

Definition any_indicator (indicators : list pystr) (description : pystr) : bool :=
  existsb (fun indicator => contains indicator (str_upper description)) indicators.

(** [amount > 0] and [amount < 0]: a str against an int raises TypeError *)
Definition amount_gt0 (a : pyamount) : result bool :=
  match a with
  | AFloat x => Ok (gt0 x)
  | AStr _ => Raise TypeError
  end.
Definition amount_lt0 (a : pyamount) : result bool :=
  match a with
  | AFloat x => Ok (lt0 x)
  | AStr _ => Raise TypeError
  end.

Definition amount_map (f : number -> number) (a : pyamount) : pyamount :=
  match a with
  | AFloat x => AFloat (f x)
  | AStr s => AStr s
  end.

(** "Check for transaction type indicators" *)
Definition classify (description : pystr) (amount : pyamount)
  : result (pyamount * ttype) :=
  if any_indicator debit_indicators description then
    positive <- amount_gt0 amount ;;
    Ok (if positive then amount_map neg amount else amount, DEBIT)
  else if any_indicator credit_indicators description then
    negative <- amount_lt0 amount ;;
    Ok (if negative then amount_map abs amount else amount, CREDIT)
  else Ok (amount, UNKNOWN).

(** What one iteration of the line loop does with a line that has a date:
    the record it appends, if any.  The amount scan and the classification
    are parameters, so that a statement can say which iterations run them. *)
Definition emit_with
    (scan : pystr -> option pyamount)
    (classify : pystr -> pyamount -> result (pyamount * ttype))
    (date_match : pystr) (line : pystr) : result (option transaction) :=
  match scan line with
  | None => Ok None
  | Some amount =>
    let description := extract_description line in
    r <- classify description amount ;;
    Ok (Some {| date := date_match; description := description;
                amount := fst r; type := snd r |})
  end.

(** One iteration of [for line in lines]: the new [current_date] and the
    record appended, if any. *)
Definition parse_line_with
    (scan : pystr -> option pyamount)
    (classify : pystr -> pyamount -> result (pyamount * ttype))
    (current_date : option pystr) (line : pystr)
  : result (option pystr * option transaction) :=
  match strip line with
  | [] => Ok (current_date, None)                      (* skip empty lines *)
  | _ =>
    let found := find_date date_patterns line in
    let current_date := match found with
                        | Some m => Some m
                        | None => current_date
                        end in
    let date_match := if negb (truthy found) && truthy current_date
                      then current_date else found in
    match date_match with
    | Some (c :: m) =>
      t <- emit_with scan classify (c :: m) line ;; Ok (current_date, t)
    | _ => Ok (current_date, None)                     (* no date: continue *)
    end
  end.

Definition parse_line := parse_line_with (scan_patterns amount_patterns) classify.

(** The line loop, threading [current_date] and [transactions]. *)
Fixpoint parse_lines (current_date : option pystr)
    (transactions : list transaction) (lines : list pystr)
  : result (list transaction) :=
  match lines with
  | [] => Ok transactions
  | line :: rest =>
    st <- parse_line current_date line ;;
    parse_lines (fst st)
                (match snd st with
                 | Some t => transactions ++ [t]
                 | None => transactions
                 end) rest
  end.

Definition amount_value (a : pyamount) : value :=
  match a with
  | AStr s => VStr s
  | AFloat x => VNum x
  end.

(** [pd.DataFrame(transactions)] *)
Definition frame_of_records (transactions : list transaction) : DataFrame :=
  match transactions with
  | [] => []
  | _ =>
    [ (utf8 "date", map (fun t => VStr (date t)) transactions);
      (utf8 "description", map (fun t => VStr (description t)) transactions);
      (utf8 "amount", map (fun t => amount_value (amount t)) transactions);
      (utf8 "type", map (fun t => VType (type t)) transactions) ]
  end.

(** *** [pd.to_datetime(..., format='%d/%m/%Y', errors='coerce')] *)

(** [%d], [%m] and [%Y] as the format is compiled to a regular expression *)
Definition fmt_d : regex :=
  Alt (Lit 51 +++ Sym (Range 48 49))
 (Alt (Sym (Range 49 50) +++ D)
 (Alt (Lit 48 +++ Sym (Range 49 57))
 (Alt (Sym (Range 49 57))
      (Lit BLANK +++ Sym (Range 49 57))))).   (* 3[0-1]|[1-2]\d|0[1-9]|[1-9]| [1-9] *)

Definition fmt_m : regex :=
  Alt (Lit 49 +++ Sym (Range 48 50))
 (Alt (Lit 48 +++ Sym (Range 49 57))
      (Sym (Range 49 57))).                    (* 1[0-2]|0[1-9]|[1-9] *)

Definition fmt_Y : regex := Times 4 D.          (* \d\d\d\d *)

(** [int(group)] *)
Definition int_of (s : pystr) : N := fst (fst (digits 0 0 (strip s))).

Definition taken (s rest : pystr) : pystr :=
  firstn (List.length s - List.length rest) s.

(** the day, month and year groups of a string that the whole format matches *)
Definition strptime_dmY (s : pystr) : option (N * N * N) :=
  re_match fmt_d s (fun s1 =>
  re_match (Lit SLASH) s1 (fun s2 =>
  re_match fmt_m s2 (fun s3 =>
  re_match (Lit SLASH) s3 (fun s4 =>
  re_match fmt_Y s4 (fun s5 =>
    match s5 with
    | [] => Some (int_of (taken s s1), int_of (taken s2 s3), int_of s4)
    | _ => None
    end))))).

Definition to_datetime_dmY (v : value) : option Z :=
  match v with
  | VStr s =>
    match strptime_dmY s with
    | Some (d, m, y) => make_timestamp y m d
    | None => None
    end
  | VTime t => t
  | _ => None
  end.

(** [_parse_text_content(text)] *)
Definition _parse_text_content (text : pystr) : result DataFrame :=
  let lines := split_lines text in
  transactions <- parse_lines None [] lines ;;
  let df := frame_of_records transactions in
  if negb (empty df) then
    dates <- series_of (utf8 "date") df ;;
    let df := setitem (utf8 "date") (map (fun v => VTime (to_datetime_dmY v)) dates) df in
    sort_values (utf8 "date") df
  else Ok df.

End TextParser.

(** ** The tabular standardizer: [_standardize_dataframe] *)

Definition date_terms : list pystr := map utf8 ["date"; "data"; "dia"]%string.
Definition amount_terms : list pystr :=
  map utf8 ["amount"; "valor"; "montante"; "quantia"]%string.
Definition desc_terms : list pystr := map utf8 ["desc"; "texto"; "detalhe"]%string.

Section Standardizer.
Context {U : Unicode} {P : Pandas}.

(** [any(term in col.lower() for term in terms)] *)
Definition matches_terms (terms : list pystr) (col : pystr) : bool :=
  existsb (fun term => contains term (str_lower col)) terms.

(** [[col for col in df.columns if any(...)]] *)
Definition matching_columns (terms : list pystr) (df : DataFrame) : list pystr :=
  filter (matches_terms terms) (columns df).

(** [lambda x: 'CREDIT' if x > 0 else 'DEBIT'] *)
Definition type_of_amount (v : value) : result value :=
  match v with
  | VNum x => Ok (VType (if gt0 x then CREDIT else DEBIT))
  | VBool b => Ok (VType (if b then CREDIT else DEBIT))
  | _ => Raise TypeError
  end.

(** [series.apply(f)] *)
Fixpoint apply (f : value -> result value) (s : Series) : result Series :=
  match s with
  | [] => Ok []
  | v :: s' => w <- f v ;; ws <- apply f s' ;; Ok (w :: ws)
  end.

Definition _standardize_dataframe (df : DataFrame) : result DataFrame :=
  let date_columns := matching_columns date_terms df in
  let amount_columns := matching_columns amount_terms df in
  let desc_columns := matching_columns desc_terms df in
  match date_columns, amount_columns, desc_columns with
  | date0 :: _, amount0 :: _, desc0 :: _ =>
    (* Standardize column names *)
    let df := rename [ (date0, utf8 "date");
                       (amount0, utf8 "amount");
                       (desc0, utf8 "description") ] df in
    (* Convert date format *)
    dates <- series_of (utf8 "date") df ;;
    let df := setitem (utf8 "date") (map VTime (to_datetime dates)) df in
    (* Ensure amount is numeric *)
    amounts <- series_of (utf8 "amount") df ;;
    let df := setitem (utf8 "amount")
                (map (fun v => VNum (to_numeric (replace COMMA [DOT] (astype_str v))))
                     amounts) df in
    (* Add transaction type based on amount *)
    amounts <- series_of (utf8 "amount") df ;;
    types <- apply type_of_amount amounts ;;
    let df := setitem (utf8 "type") types df in
    projected <- select (map utf8 ["date"; "description"; "amount"; "type"]%string) df ;;
    sort_values (utf8 "date") projected
  | _, _, _ => Raise MissingColumns
  end.

End Standardizer.

(** ** The collaborators: file system, text extraction, table loaders *)

Inductive encoding := utf_8 | iso_8859_1 | cp1252.

Class World := {
  (** [Path.exists], [Path.suffix], [Path.name], [Path.glob('*')] *)
  path_exists : pystr -> bool;
  suffix : pystr -> pystr;
  name : pystr -> pystr;
  glob : pystr -> list pystr;
  (** pdfplumber: the text of every page ([''] for a page without text) *)
  pdf_pages : pystr -> result (list pystr);
  (** pdf2image and pytesseract: the recognised text of every page *)
  ocr_pages : pystr -> result (list pystr);
  (** [pd.read_csv(path, encoding=...)] and [pd.read_excel(path)] *)
  read_csv : pystr -> encoding -> result DataFrame;
  read_excel : pystr -> result DataFrame
}.

Record BankStatementProcessor := {
  input_dir : option pystr;
  supported_extensions : list pystr
}.

(** [BankStatementProcessor(input_dir)] *)
Definition __init__ (input_dir : option pystr) : BankStatementProcessor :=
  {| input_dir := if truthy input_dir then input_dir else None;
     supported_extensions := map utf8 [".pdf"; ".csv"; ".xlsx"; ".xls"]%string |}.

Section Processor.
Context {U : Unicode} {P : Pandas} {W : World}.

Definition nonempty (s : pystr) : bool :=
  match s with [] => false | _ => true end.

Definition _process_pdf (file_path : pystr) : result DataFrame :=
  (* Try pdfplumber first *)
  let searchable :=
    pages <- pdf_pages file_path ;;
    let all_text := filter nonempty pages in
    match all_text with
    | [] => Ok None
    | _ => df <- _parse_text_content (join_lines all_text) ;; Ok (Some df)
    end in
  match searchable with
  | Ok (Some df) => Ok df
  | _ =>
    (* Try OCR if text extraction failed *)
    text_content <- ocr_pages file_path ;;
    _parse_text_content (join_lines text_content)
  end.

Definition encodings : list encoding := [utf_8; iso_8859_1; cp1252].

(** the loop of [_process_csv]: both [except] clauses go on to the next
    encoding *)
Fixpoint try_encodings (file_path : pystr) (encs : list encoding)
  : result DataFrame :=
  match encs with
  | [] => Raise UnrecodableFile
  | enc :: rest =>
    match (df <- read_csv file_path enc ;; _standardize_dataframe df) with
    | Ok df => Ok df
    | Raise _ => try_encodings file_path rest
    end
  end.

Definition _process_csv (file_path : pystr) : result DataFrame :=
  try_encodings file_path encodings.

Definition _process_excel (file_path : pystr) : result DataFrame :=
  df <- read_excel file_path ;; _standardize_dataframe df.

Definition member (x : pystr) (l : list pystr) : bool := existsb (str_eqb x) l.

(** [process_statement(file_path)]; [Ok None] is falling off the end. *)
Definition process_statement (self : BankStatementProcessor) (file_path : pystr)
  : result (option DataFrame) :=
  if negb (path_exists file_path) then Raise NotFound
  else
    let extension := str_lower (suffix file_path) in
    if negb (member extension (supported_extensions self)) then Raise UnsupportedFormat
    else if str_eqb extension (utf8 ".pdf") then
      df <- _process_pdf file_path ;; Ok (Some df)
    else if str_eqb extension (utf8 ".csv") then
      df <- _process_csv file_path ;; Ok (Some df)
    else if member extension (map utf8 [".xlsx"; ".xls"]%string) then
      df <- _process_excel file_path ;; Ok (Some df)
    else Ok None.

(** The body of the loop of [process_directory]: what one file adds to
    [all_transactions]. *)
Definition contribution (self : BankStatementProcessor) (file_path : pystr)
  : list DataFrame :=
  if member (str_lower (suffix file_path)) (supported_extensions self) then
    match process_statement self file_path with
    | Ok (Some df) =>
      if negb (empty df)
      then [setitem (utf8 "source_file")
                    (repeat (VStr (name file_path)) (nrows df)) df]
      else []
    | Ok None => []
    | Raise _ => []                                   (* except Exception *)
    end
  else [].

Definition process_directory (self : BankStatementProcessor)
    (directory : option pystr) : result DataFrame :=
  let directory := if truthy directory then directory else input_dir self in
  match directory with
  | None => Raise NoDirectorySpecified
  | Some directory =>
    let all_transactions := flat_map (contribution self) (glob directory) in
    match all_transactions with
    | [] => Ok []
    | _ =>
      result <- concat all_transactions ;;
      sort_values (utf8 "date") result
    end
  end.

End Processor.

(** ** A concrete interpreter for Latin-1 texts

    The Unicode tables restricted to code points below 256 (other code points
    are taken to be caseless and neither digit nor space), and a pandas whose
    cells are strings.  The examples are evaluated with them. *)

Definition latin1_decimal (c : char) : option N :=
  if c <? 128 then ascii_decimal c else None.

Definition latin1_isspace (c : char) : bool :=
  ascii_space c || (c =? 133) || (c =? 160).

Definition latin1_upper1 (c : char) : pystr :=
  if (97 <=? c) && (c <=? 122) then [c - 32]
  else if c =? 181 then [924]
  else if c =? 223 then [83; 83]
  else if c =? 255 then [376]
  else if (224 <=? c) && (c <=? 254) && negb (c =? 247) then [c - 32]
  else [c].

Definition latin1_lower1 (c : char) : pystr :=
  if (65 <=? c) && (c <=? 90) then [c + 32]
  else if (192 <=? c) && (c <=? 222) && negb (c =? 215) then [c + 32]
  else [c].

Lemma latin1_isspace_ascii c : c < 128 -> latin1_isspace c = ascii_space c.
Proof.
  intros H. unfold latin1_isspace.
  replace (c =? 133) with false by (symmetry; apply N.eqb_neq; lia).
  replace (c =? 160) with false by (symmetry; apply N.eqb_neq; lia).
  now rewrite !orb_false_r.
Qed.

Lemma latin1_decimal_not_space c d :
  latin1_decimal c = Some d -> latin1_isspace c = false.
Proof.
  unfold latin1_decimal, ascii_decimal, latin1_isspace, ascii_space.
  destruct (c <? 128); [|discriminate].
  destruct (48 <=? c) eqn:H1; [|discriminate].
  destruct (c <=? 57) eqn:H2; [|discriminate].
  intros _. apply N.leb_le in H1, H2.
  replace (c <=? 13) with false by (symmetry; apply N.leb_gt; lia).
  replace (c <=? 32) with false by (symmetry; apply N.leb_gt; lia).
  replace (c =? 133) with false by (symmetry; apply N.eqb_neq; lia).
  replace (c =? 160) with false by (symmetry; apply N.eqb_neq; lia).
  now rewrite !andb_false_r.
Qed.

#[export] Instance Latin1 : Unicode := {|
  decimal := latin1_decimal;
  isspace := latin1_isspace;
  str_upper := flat_map latin1_upper1;
  str_lower := flat_map latin1_lower1;
  decimal_ascii := fun c H =>
    match N.ltb_spec0 c 128 in reflect _ b
      return (if b then ascii_decimal c else None) = ascii_decimal c with
    | ReflectT _ _ => eq_refl
    | ReflectF _ n => match n H with end
    end;
  decimal_euro := eq_refl;
  isspace_ascii := latin1_isspace_ascii;
  decimal_not_space := latin1_decimal_not_space
|}.

(** the Gregorian calendar: days since 1970-01-01 *)
Definition is_leap (y : Z) : bool :=
  ((y mod 4 =? 0) && negb (y mod 100 =? 0) || (y mod 400 =? 0))%Z.

Definition days_in_month (y m : Z) : Z :=
  (if m =? 2 then (if is_leap y then 29 else 28)
   else if (m =? 4) || (m =? 6) || (m =? 9) || (m =? 11) then 30 else 31)%Z.

Definition days_from_civil (y m d : Z) : Z :=
  (let y' := if m <=? 2 then y - 1 else y in
   let era := y' / 400 in
   let yoe := y' - era * 400 in
   let doy := (153 * (if 2 <? m then m - 3 else m + 9) + 2) / 5 + d - 1 in
   let doe := yoe * 365 + yoe / 4 - yoe / 100 + doy in
   era * 146097 + doe - 719468)%Z.

Definition civil_timestamp (y m d : N) : option Z :=
  let '(y, m, d) := (Z.of_N y, Z.of_N m, Z.of_N d) in
  (if (1 <=? y) && (1 <=? m) && (m <=? 12) && (1 <=? d) && (d <=? days_in_month y m)
   then Some (days_from_civil y m d) else None)%Z.

(** dates written YYYY-MM-DD or DD/MM/YYYY *)
Definition iso_or_dmY (v : value) : option Z :=
  match v with
  | VStr s =>
    match match_at date_Ymd_dash s with
    | Some (_, []) =>
      civil_timestamp (int_of (firstn 4 s)) (int_of (firstn 2 (skipn 5 s)))
                      (int_of (skipn 8 s))
    | _ =>
      match strptime_dmY s with
      | Some (d, m, y) => civil_timestamp y m d
      | None => None
      end
    end
  | VTime t => t
  | _ => None
  end.

(** pandas on tables of text cells, for evaluating the code on sample
    tables: every date cell is read on its own, as YYYY-MM-DD or DD/MM/YYYY
    (pandas infers one format for the column), and numbers are read as
    [float] reads them here, without exponents. *)
#[export] Instance StringCells : Pandas := {|
  astype_str := fun v => match v with
                         | VStr s => s
                         | _ => utf8 "nan"
                         end;
  to_numeric := fun s => match python_float s with
                         | Some x => x
                         | None => NaN
                         end;
  to_datetime := map iso_or_dmY;
  make_timestamp := civil_timestamp;
  to_datetime_length := fun s => length_map iso_or_dmY s
|}.

(** A directory held in memory: file names and what the collaborators
    return for each file. *)
Inductive file :=
| PdfFile (text : result (list pystr)) (ocr : result (list pystr))
| CsvFile (load : encoding -> result DataFrame)
| ExcelFile (load : result DataFrame).

Definition Folder := list (pystr * file).

Fixpoint lookup_file (fs : Folder) (p : pystr) : option file :=
  match fs with
  | [] => None
  | (n, f) :: fs' => if str_eqb n p then Some f else lookup_file fs' p
  end.

Fixpoint rfind_dot (s : pystr) (pos : nat) (best : option nat) : option nat :=
  match s with
  | [] => best
  | c :: s' => rfind_dot s' (S pos) (if char_eqb c DOT then Some pos else best)
  end.

(** [PurePath.suffix] of a file name *)
Definition pathlib_suffix (n : pystr) : pystr :=
  match rfind_dot n 0 None with
  | Some i => if (0 <? i)%nat && (i <? List.length n - 1)%nat then skipn i n else []
  | None => []
  end.

Definition folder_world (fs : Folder) : World := {|
  path_exists := fun p => match lookup_file fs p with Some _ => true | None => false end;
  suffix := pathlib_suffix;
  name := fun p => p;
  glob := fun _ => map fst fs;
  pdf_pages := fun p => match lookup_file fs p with
                        | Some (PdfFile t _) => t
                        | _ => Raise (External 1)
                        end;
  ocr_pages := fun p => match lookup_file fs p with
                        | Some (PdfFile _ o) => o
                        | _ => Raise (External 2)
                        end;
  read_csv := fun p enc => match lookup_file fs p with
                           | Some (CsvFile load) => load enc
                           | _ => Raise (External 3)
                           end;
  read_excel := fun p => match lookup_file fs p with
                         | Some (ExcelFile load) => load
                         | _ => Raise (External 4)
                         end
|}.

(** a table of string cells, column by column *)
Definition table (cols : list (string * list string)) : DataFrame :=
  map (fun c => (utf8 (fst c), map (fun x => VStr (utf8 x)) (snd c))) cols.

(** * Properties *)

(** ** What a regular expression matches *)

Section RegexFacts.
Context {U : Unicode}.

Inductive Matches : regex -> pystr -> Prop :=
| MEps : Matches Eps []
| MSym cs c : in_cset cs c = true -> Matches (Sym cs) [c]
| MCat r1 r2 m1 m2 :
    Matches r1 m1 -> Matches r2 m2 -> Matches (Cat r1 r2) (m1 ++ m2)
| MAltL r1 r2 m : Matches r1 m -> Matches (Alt r1 r2) m
| MAltR r1 r2 m : Matches r2 m -> Matches (Alt r1 r2) m
| MStar0 r : Matches (Star r) []
| MStarS r m1 m2 :
    m1 <> [] -> Matches r m1 -> Matches (Star r) m2 -> Matches (Star r) (m1 ++ m2).

Definition sound_step {A} (r : regex)
    (step : pystr -> (pystr -> option A) -> option A) : Prop :=
  forall s k x, step s k = Some x ->
    exists m rest, s = m ++ rest /\ Matches r m /\ k rest = Some x.

Lemma star_loop_sound {A} r (step : pystr -> (pystr -> option A) -> option A) :
  sound_step r step ->
  forall fuel s k x, star_loop step k fuel s = Some x ->
    exists m rest, s = m ++ rest /\ Matches (Star r) m /\ k rest = Some x.
Proof.
  intros Hstep fuel. induction fuel as [|fuel IH]; intros s k x H; simpl in H.
  - exists [], s. repeat split; auto. constructor.
  - destruct (step s _) as [y|] eqn:E.
    + injection H as ->.
      apply Hstep in E. destruct E as (m1 & s1 & -> & Hm1 & Hk).
      destruct (List.length s1 <? List.length (m1 ++ s1))%nat eqn:L; [|discriminate].
      apply IH in Hk. destruct Hk as (m2 & rest & -> & Hm2 & Hk).
      exists (m1 ++ m2), rest. rewrite <- app_assoc. repeat split; auto.
      apply MStarS; auto.
      intros ->. simpl in L. apply Nat.ltb_lt in L. lia.
    + exists [], s. repeat split; auto. constructor.
Qed.

Lemma re_match_sound {A} r : sound_step (A:=A) r (re_match r).
Proof.
  induction r; intros s k x H; simpl in H.
  - exists [], s. repeat split; auto. constructor.
  - destruct s as [|ch s']; [discriminate|].
    destruct (in_cset c ch) eqn:E; [|discriminate].
    exists [ch], s'. repeat split; auto. now constructor.
  - apply IHr1 in H. destruct H as (m1 & s1 & -> & H1 & H).
    apply IHr2 in H. destruct H as (m2 & rest & -> & H2 & H).
    exists (m1 ++ m2), rest. rewrite <- app_assoc. repeat split; auto.
    now constructor.
  - destruct (re_match r1 s k) as [y|] eqn:E.
    + injection H as ->. apply IHr1 in E. destruct E as (m & rest & -> & Hm & Hk).
      exists m, rest. repeat split; auto. now apply MAltL.
    + apply IHr2 in H. destruct H as (m & rest & -> & Hm & Hk).
      exists m, rest. repeat split; auto. now apply MAltR.
  - eapply star_loop_sound; eauto.
Qed.

Definition complete_step {A} (r : regex)
    (step : pystr -> (pystr -> option A) -> option A) : Prop :=
  forall m, Matches r m -> forall rest k x, k rest = Some x ->
    exists y, step (m ++ rest) k = Some y.

Lemma star_loop_complete {A} r m :
  Matches (Star r) m ->
  complete_step (A:=A) r (re_match r) ->
  forall fuel rest (k : pystr -> option A) x,
    (List.length (m ++ rest) <= fuel)%nat -> k rest = Some x ->
    exists y, star_loop (re_match r) k fuel (m ++ rest) = Some y.
Proof.
  intros H. remember (Star r) as sr eqn:Esr.
  induction H; try discriminate; injection Esr as ->; intros Hr fuel rest k x Hf Hk.
  - simpl. destruct fuel; simpl; eauto.
    destruct (re_match r rest _); eauto.
  - destruct fuel as [|fuel].
    { destruct m1; [congruence|]. simpl in Hf. lia. }
    simpl.
    destruct (re_match r ((m1 ++ m2) ++ rest) _) eqn:E; eauto.
    exfalso.
    rewrite <- app_assoc in E.
    destruct (IHMatches2 eq_refl Hr fuel rest k x) as [y Hy]; auto.
    { rewrite <- app_assoc, length_app in Hf. destruct m1; [congruence|].
      simpl in Hf. lia. }
    destruct (Hr m1 H0 (m2 ++ rest)
                (fun s1 => if (List.length s1 <? List.length (m1 ++ m2 ++ rest))%nat
                           then star_loop (re_match r) k fuel s1 else None) y)
      as [z Hz].
    { replace (List.length (m2 ++ rest) <? List.length (m1 ++ m2 ++ rest))%nat
        with true; auto.
      symmetry. apply Nat.ltb_lt. rewrite (length_app m1).
      destruct m1; [congruence|]. simpl. lia. }
    discriminate (eq_trans (eq_sym Hz) E).
Qed.

Lemma re_match_complete {A} r : complete_step (A:=A) r (re_match r).
Proof.
  induction r; intros m H rest k x Hk; simpl.
  - inversion H; subst. eauto.
  - inversion H; subst. simpl. rewrite H1. eauto.
  - inversion H; subst. rewrite <- app_assoc.
    destruct (IHr2 _ H4 rest k x Hk) as [y Hy].
    eapply IHr1; eauto.
  - inversion H; subst.
    + destruct (IHr1 _ H3 rest k x Hk) as [y Hy]. rewrite Hy. eauto.
    + destruct (re_match r1 (m ++ rest) k); eauto.
  - eapply star_loop_complete; eauto.
Qed.

End RegexFacts.

Section SearchFacts.
Context {U : Unicode}.

Lemma match_at_sound r s m rest :
  match_at r s = Some (m, rest) -> s = m ++ rest /\ Matches r m.
Proof.
  unfold match_at. destruct (re_match r s _) as [rest'|] eqn:E; [|discriminate].
  intros H. injection H as <- <-.
  apply re_match_sound in E. destruct E as (m & rest & -> & Hm & Hk).
  injection Hk as ->.
  rewrite length_app, Nat.add_sub, firstn_app, Nat.sub_diag, firstn_all.
  simpl. rewrite app_nil_r. auto.
Qed.

Lemma match_at_complete r m rest :
  Matches r m -> exists m' rest', match_at r (m ++ rest) = Some (m', rest').
Proof.
  intros H. unfold match_at.
  destruct (re_match_complete H rest (fun rest : pystr => Some rest) eq_refl) as [y Hy].
  change (re_match r (m ++ rest) (fun rest : pystr => Some rest))
    with (re_match r (m ++ rest) (fun rest : list char => Some rest)) in Hy |- *.
  unfold pystr, char in *. rewrite Hy. eauto.
Qed.

Lemma fullmatch_Matches r s : fullmatch r s = true <-> Matches r s.
Proof.
  unfold fullmatch. split.
  - destruct (re_match r s _) as [u|] eqn:E; [|discriminate]. intros _.
    apply re_match_sound in E. destruct E as (m & rest & -> & Hm & Hk).
    destruct rest; [|discriminate]. now rewrite app_nil_r.
  - intros H.
    destruct (re_match_complete H []
                (fun rest : pystr => match rest with [] => Some tt | _ => None end)
                eq_refl) as [y Hy].
    rewrite app_nil_r in Hy.
    match goal with |- match ?e with _ => _ end = _ =>
      replace e with (Some y) by (symmetry; exact Hy) end.
    reflexivity.
Qed.

(** Every reported match is a non-empty substring that the pattern matches. *)
Lemma finditer_from_sound r s : forall skip m,
  In m (finditer_from r skip s) ->
  m <> [] /\ Matches r m /\ exists pre post, s = pre ++ m ++ post.
Proof.
  induction s as [|c s IH]; intros skip m H; simpl in H; [contradiction|].
  assert (Hrec : forall n, In m (finditer_from r n s) ->
            m <> [] /\ Matches r m /\ exists pre post, c :: s = pre ++ m ++ post).
  { intros n Hn. apply IH in Hn. destruct Hn as (Hne & Hm & pre & post & ->).
    repeat split; auto. exists (c :: pre), post. reflexivity. }
  destruct skip; [|eauto].
  destruct (match_at r (c :: s)) as [[m' rest]|] eqn:E; [|eauto].
  destruct (List.length m') eqn:L; [eauto|].
  destruct H as [<-|H]; [|eauto].
  apply match_at_sound in E. destruct E as [E Hm].
  repeat split; auto.
  - intros ->. discriminate.
  - exists [], rest. exact E.
Qed.

Definition never_empty (r : regex) : Prop := forall m, Matches r m -> m <> [].

(** A pattern that matches somewhere is reported at least once. *)
Lemma finditer_complete r s :
  never_empty r ->
  finditer r s = [] ->
  forall pre m post, s = pre ++ m ++ post -> ~ Matches r m.
Proof.
  intros Hne. unfold finditer.
  induction s as [|c s IH]; intros H pre m post E Hm.
  - destruct pre; [|discriminate]. destruct m; [|discriminate].
    now apply (Hne []).
  - simpl in H.
    destruct pre as [|c' pre].
    + simpl in E.
      destruct (match_at_complete (post) Hm) as (m' & rest' & Hm').
      rewrite <- E in Hm'. rewrite Hm' in H.
      apply match_at_sound in Hm'. destruct Hm' as [_ Hm''].
      apply Hne in Hm''.
      destruct m'; [congruence|]. simpl in H. discriminate.
    + injection E as -> ->.
      apply (IH) with (pre := pre) (m := m) (post := post); auto.
      destruct (match_at r _) as [[m' rest]|]; auto.
      destruct (List.length m'); [auto|discriminate].
Qed.

End SearchFacts.

(** ** The amount scan never leaves a string behind *)

Section AmountFacts.
Context {U : Unicode}.

Definition digit (c : char) : Prop := isdigit c = true.

Lemma digit_not_ascii_other c k :
  digit c -> k < 128 -> ascii_decimal k = None -> c <> k.
Proof.
  unfold digit, isdigit. intros H Hk Hd ->.
  rewrite (decimal_ascii Hk), Hd in H. discriminate.
Qed.

Lemma digit_not_euro c : digit c -> c <> EURO.
Proof.
  unfold digit, isdigit. intros H ->.
  unfold EURO in H. rewrite decimal_euro in H. discriminate.
Qed.

Lemma digit_not_space c : digit c -> isspace c = false.
Proof.
  unfold digit, isdigit. destruct (decimal c) eqn:E; [|discriminate].
  intros _. eapply decimal_not_space; eauto.
Qed.

Lemma Star_digits m : Matches (Star D) m -> Forall digit m.
Proof.
  intros H. remember (Star D) as r eqn:E.
  induction H; try discriminate; injection E as ->.
  - constructor.
  - inversion H0; subst. constructor; auto.
Qed.

Lemma Matches_Sym cs m : Matches (Sym cs) m -> exists c, m = [c] /\ in_cset cs c = true.
Proof. inversion 1; subst; eauto. Qed.

Lemma Matches_Lit c m : Matches (Lit c) m -> m = [c].
Proof.
  intros H. apply Matches_Sym in H. destruct H as (c' & -> & H).
  simpl in H. rewrite orb_false_r in H. apply N.eqb_eq in H. now subst.
Qed.

Lemma Matches_D m : Matches D m -> exists c, m = [c] /\ digit c.
Proof. intros H. apply Matches_Sym in H. exact H. Qed.

Lemma Matches_Cat r1 r2 m :
  Matches (Cat r1 r2) m -> exists m1 m2, m = m1 ++ m2 /\ Matches r1 m1 /\ Matches r2 m2.
Proof. inversion 1; subst; eauto. Qed.

Lemma Matches_Alt r1 r2 m : Matches (Alt r1 r2) m -> Matches r1 m \/ Matches r2 m.
Proof. inversion 1; subst; auto. Qed.

Lemma Matches_Eps m : Matches Eps m -> m = [].
Proof. inversion 1; auto. Qed.

Lemma Matches_Opt_Lit c m : Matches (Opt (Lit c)) m -> m = [] \/ m = [c].
Proof.
  intros H. apply Matches_Alt in H. destruct H as [H|H].
  - right. now apply Matches_Lit.
  - left. now apply Matches_Eps.
Qed.

Lemma Matches_Plus_D m :
  Matches (Plus D) m -> exists c ds, m = c :: ds /\ digit c /\ Forall digit ds.
Proof.
  intros H. apply Matches_Cat in H. destruct H as (m1 & m2 & -> & H1 & H2).
  apply Matches_D in H1. destruct H1 as (c & -> & Hc).
  apply Star_digits in H2. exists c, m2. simpl. auto.
Qed.

Lemma Matches_DD m : Matches (Times 2 D) m -> exists a b, m = [a; b] /\ digit a /\ digit b.
Proof.
  intros H. simpl in H. apply Matches_Cat in H. destruct H as (m1 & m2 & -> & H1 & H2).
  apply Matches_D in H1, H2. destruct H1 as (a & -> & Ha), H2 as (b & -> & Hb).
  exists a, b. simpl. auto.
Qed.

Lemma Matches_separator m :
  Matches (Sym (OneOf [DOT; COMMA])) m -> m = [DOT] \/ m = [COMMA].
Proof.
  intros H. apply Matches_Sym in H. destruct H as (c & -> & H). simpl in H.
  rewrite orb_false_r in H. apply orb_true_iff in H.
  destruct H as [H|H]; apply N.eqb_eq in H; subst; auto.
Qed.

(** the strings that [amount_plain] matches *)
Inductive plain_amount : pystr -> Prop :=
| PlainAmount sign c ds sep a b :
    sign = [] \/ sign = [DASH] ->
    digit c -> Forall digit ds ->
    sep = DOT \/ sep = COMMA ->
    digit a -> digit b ->
    plain_amount (sign ++ (c :: ds) ++ [sep; a; b]).

Lemma amount_plain_shape m : Matches amount_plain m <-> plain_amount m.
Proof.
  split.
  - intros H. unfold amount_plain in H.
    apply Matches_Cat in H. destruct H as (sign & m1 & -> & Hs & H).
    apply Matches_Cat in H. destruct H as (ds & m2 & -> & Hds & H).
    apply Matches_Cat in H. destruct H as (sep & dd & -> & Hsep & Hdd).
    apply Matches_Opt_Lit in Hs. apply Matches_Plus_D in Hds.
    destruct Hds as (c & ds' & -> & Hc & Hds).
    apply Matches_DD in Hdd. destruct Hdd as (a & b & -> & Ha & Hb).
    apply Matches_separator in Hsep.
    destruct Hsep as [-> | ->]; apply (PlainAmount (sign:=sign)); auto.
  - intros H. destruct H as [sign c ds sep a b Hs Hc Hds Hsep Ha Hb].
    unfold amount_plain. apply MCat.
    { destruct Hs as [-> | ->]; [apply MAltR; constructor|apply MAltL].
      constructor. simpl. reflexivity. }
    apply MCat.
    { apply (MCat (r1:=D) (r2:=Star D) (m1:=[c]) (m2:=ds)); [now constructor|].
      clear - Hds. induction Hds; [constructor|].
      apply (MStarS (r:=D) (m1:=[x]) (m2:=l)); auto; [discriminate|now constructor]. }
    apply (MCat (m1:=[sep]) (m2:=[a; b])).
    { constructor. simpl. destruct Hsep as [-> | ->]; reflexivity. }
    apply (MCat (r1:=D) (r2:=D) (m1:=[a]) (m2:=[b])); now constructor.
Qed.

Lemma replace_app old new a b :
  replace old new (a ++ b) = replace old new a ++ replace old new b.
Proof.
  induction a as [|c a IH]; simpl; auto.
  destruct (char_eqb c old); rewrite IH; auto. now rewrite app_assoc.
Qed.

Lemma replace_absent old new s :
  Forall (fun c => c <> old) s -> replace old new s = s.
Proof.
  induction 1 as [|c s Hc _ IH]; simpl; auto.
  unfold char_eqb. replace (c =? old) with false by (symmetry; now apply N.eqb_neq).
  now rewrite IH.
Qed.

Lemma clean_amount_app a b :
  clean_amount (a ++ b) = clean_amount a ++ clean_amount b.
Proof. unfold clean_amount. now rewrite !replace_app. Qed.

Lemma clean_amount_digits ds : Forall digit ds -> clean_amount ds = ds.
Proof.
  intros H. unfold clean_amount.
  assert (A : forall k, (k = EURO \/ k < 128 /\ ascii_decimal k = None) ->
            Forall (fun c => c <> k) ds).
  { intros k Hk. eapply Forall_impl; [|exact H]. intros c Hc. simpl in Hc.
    destruct Hk as [-> | [Hk Hd]].
    - now apply digit_not_euro.
    - now apply digit_not_ascii_other. }
  rewrite (@replace_absent EURO [] ds) by (apply A; auto).
  rewrite (@replace_absent BLANK [] ds) by (apply A; right; split; reflexivity).
  rewrite (@replace_absent DOT [] ds) by (apply A; right; split; reflexivity).
  now rewrite (@replace_absent COMMA [DOT] ds) by (apply A; right; split; reflexivity).
Qed.

Lemma strip_no_space s : Forall (fun c => isspace c = false) s -> strip s = s.
Proof.
  assert (L : forall s, Forall (fun c => isspace c = false) s -> lstrip s = s).
  { intros s' H. destruct H as [|c s' Hc _]; simpl; auto. now rewrite Hc. }
  intros H. unfold strip, rstrip. rewrite (L s H), L, rev_involutive; auto.
  now apply Forall_rev.
Qed.

Lemma digits_span ds rest :
  Forall digit ds ->
  match rest with [] => True | c :: _ => decimal c = None end ->
  forall acc n, exists v, digits acc n (ds ++ rest) = (v, (n + List.length ds)%nat, rest).
Proof.
  intros H Hrest. induction H as [|c ds Hc _ IH]; intros acc n; simpl.
  - rewrite Nat.add_0_r. destruct rest as [|c r]; simpl; [eauto|]. rewrite Hrest. eauto.
  - unfold digit, isdigit in Hc. destruct (decimal c); [|discriminate].
    destruct (IH (acc * 10 + n0) (S n)) as [v Hv]. rewrite Hv.
    exists v. f_equal. f_equal. lia.
Qed.

Definition is_num (x : number) : Prop := exists q, x = Num q.

Lemma signed_is_num b m k : is_num (signed b m k).
Proof. unfold signed. eexists; reflexivity. Qed.

Lemma python_float_is_num s x : python_float s = Some x -> is_num x.
Proof.
  unfold python_float.
  destruct (strip s) as [|c s0].
  - simpl. discriminate.
  - destruct (if char_eqb c 45 then _ else _) as [negative s1].
    destruct (digits 0 0 s1) as [[i ni] s2].
    destruct s2 as [|c2 s2].
    + destruct ni; [discriminate|]. intros H. injection H as <-. apply signed_is_num.
    + destruct (char_eqb c2 46); [|discriminate].
      destruct (digits i 0 s2) as [[m nf] s3].
      destruct s3; [|discriminate].
      destruct (ni + nf)%nat; [discriminate|].
      intros H. injection H as <-. apply signed_is_num.
Qed.

(** [float] accepts an optional minus sign, digits, and possibly a point and
    more digits. *)
Lemma python_float_decimal sign c i tail :
  sign = [] \/ sign = [DASH] ->
  digit c -> Forall digit i ->
  tail = [] \/ (exists f, tail = DOT :: f /\ Forall digit f) ->
  exists x, python_float (sign ++ (c :: i) ++ tail) = Some x.
Proof.
  intros Hs Hc Hi Ht.
  assert (Hdot : decimal DOT = None) by (now rewrite decimal_ascii).
  assert (Hsp : Forall (fun c => isspace c = false) (sign ++ (c :: i) ++ tail)).
  { apply Forall_app. split.
    { destruct Hs as [-> | ->]; repeat constructor. now rewrite isspace_ascii. }
    apply Forall_app. split.
    { eapply Forall_impl; [|exact (Forall_cons c Hc Hi)]. apply digit_not_space. }
    destruct Ht as [-> | (f & -> & Hf)]; constructor.
    - now rewrite isspace_ascii.
    - eapply Forall_impl; [|exact Hf]. apply digit_not_space. }
  unfold python_float. rewrite (strip_no_space Hsp).
  assert (Hall : forall neg', exists x',
             (let '(i0, ni, s0) := digits 0 0 ((c :: i) ++ tail) in
              match s0 with
              | [] => match ni with O => None | _ => Some (signed neg' i0 0) end
              | c0 :: s' =>
                if char_eqb c0 46 then
                  let '(m, nf, s'') := digits i0 0 s' in
                  match s'' with
                  | [] => match (ni + nf)%nat with
                          | O => None
                          | _ => Some (signed neg' m nf)
                          end
                  | _ => None
                  end
                else None
              end) = Some x').
  { intros neg'. destruct Ht as [-> | (f & -> & Hf)].
    - destruct (@digits_span (c :: i) [] (Forall_cons c Hc Hi) I 0 0%nat) as [v Hv].
      rewrite Hv. simpl. eauto.
    - destruct (@digits_span (c :: i) (DOT :: f) (Forall_cons c Hc Hi) Hdot 0 0%nat)
        as [v Hv].
      rewrite Hv. simpl.
      destruct (@digits_span f [] Hf I v 0%nat) as [w Hw].
      rewrite app_nil_r in Hw. rewrite Hw. simpl. eauto. }
  destruct Hs as [-> | ->].
  - simpl app at 1.
    change ((c :: i) ++ tail) with (c :: (i ++ tail)).
    unfold char_eqb.
    replace (c =? 45) with false
      by (symmetry; apply N.eqb_neq; apply (digit_not_ascii_other Hc); reflexivity).
    replace (c =? 43) with false
      by (symmetry; apply N.eqb_neq; apply (digit_not_ascii_other Hc); reflexivity).
    apply (Hall false).
  - simpl app at 1. unfold DASH. simpl (char_eqb 45 45). cbv iota.
    apply (Hall true).
Qed.

(** Every match of the first amount pattern is read as a float. *)
Lemma plain_amount_floats m :
  plain_amount m -> exists q, python_float (clean_amount m) = Some (Num q).
Proof.
  intros H. destruct H as [sign c ds sep a b Hs Hc Hds Hsep Ha Hb].
  assert (E : exists tail, clean_amount (sign ++ (c :: ds) ++ [sep; a; b])
                           = sign ++ (c :: ds) ++ tail
                 /\ (exists f, tail = f /\ Forall digit f
                     \/ tail = DOT :: f /\ Forall digit f)).
  { rewrite !clean_amount_app.
    rewrite (clean_amount_digits (Forall_cons c Hc Hds)).
    replace (clean_amount sign) with sign
      by (destruct Hs as [-> | ->]; reflexivity).
    change [sep; a; b] with ([sep] ++ [a; b]).
    rewrite clean_amount_app, (clean_amount_digits (ds:=[a; b])) by (repeat constructor; auto).
    destruct Hsep as [-> | ->].
    - exists [a; b]. split; [reflexivity|]. exists [a; b]. left. auto.
    - exists (DOT :: [a; b]). split; [reflexivity|]. exists [a; b]. right. auto. }
  destruct E as (tail & -> & f & [[-> Hf] | [-> Hf]]).
  - rewrite <- (app_nil_r (sign ++ (c :: ds) ++ f)).
    rewrite <- !app_assoc. rewrite (app_assoc (c :: ds) f []).
    destruct (python_float_decimal (sign:=sign) (c:=c) (i:=ds ++ f) (tail:=[])) as [x Hx];
      auto.
    { apply Forall_app; auto. }
    simpl app in Hx |- *. rewrite Hx.
    destruct (python_float_is_num _ Hx) as [q ->]. eauto.
  - destruct (python_float_decimal (sign:=sign) (c:=c) (i:=ds) (tail:=DOT :: f)) as [x Hx];
      eauto.
    rewrite Hx. destruct (python_float_is_num _ Hx) as [q ->]. eauto.
Qed.

End AmountFacts.

Section ScanFacts.
Context {U : Unicode}.

Lemma plain_never_empty : never_empty amount_plain.
Proof.
  intros m H. apply amount_plain_shape in H. destruct H.
  intros E. apply app_eq_nil in E. destruct E as [_ E]. discriminate.
Qed.

Lemma Matches_Upto_D n : forall m, Matches (Upto n D) m -> Forall digit m.
Proof.
  induction n as [|n IH]; intros m H; simpl in H.
  - apply Matches_Eps in H. subst. constructor.
  - apply Matches_Alt in H. destruct H as [H|H].
    + apply Matches_Cat in H. destruct H as (m1 & m2 & -> & H1 & H2).
      apply Matches_D in H1. destruct H1 as (c & -> & Hc).
      constructor; auto.
    + apply Matches_Eps in H. subst. constructor.
Qed.

Lemma Matches_Star_inv r m :
  Matches (Star r) m ->
  m = [] \/ exists m1 m2, m = m1 ++ m2 /\ Matches r m1 /\ Matches (Star r) m2.
Proof.
  inversion 1; subst; [now left|right].
  exists m1, m2. auto.
Qed.

Definition contains_plain (m : pystr) : Prop :=
  exists pre p post, m = pre ++ p ++ post /\ Matches amount_plain p.

Lemma euro_contains_plain m : Matches amount_euro m -> contains_plain m.
Proof.
  intros H. unfold amount_euro in H.
  apply Matches_Cat in H. destruct H as (sign & m1 & -> & _ & H).
  apply Matches_Cat in H. destruct H as (e & m2 & -> & _ & H).
  apply Matches_Cat in H. destruct H as (ws & m3 & -> & _ & H).
  apply Matches_Cat in H. destruct H as (ds & m4 & -> & Hds & H).
  apply Matches_Cat in H. destruct H as (sep & dd & -> & Hsep & Hdd).
  apply Matches_Plus_D in Hds. destruct Hds as (c & ds' & -> & Hc & Hds).
  apply Matches_DD in Hdd. destruct Hdd as (a & b & -> & Ha & Hb).
  apply Matches_separator in Hsep.
  exists (sign ++ e ++ ws), ([] ++ (c :: ds') ++ sep ++ [a; b]), [].
  split; [now rewrite app_nil_r, <- !app_assoc|].
  apply amount_plain_shape.
  destruct Hsep as [-> | ->]; apply (PlainAmount (sign:=[])); auto.
Qed.

Lemma grouped_contains_plain m : Matches amount_grouped m -> contains_plain m.
Proof.
  intros H. unfold amount_grouped in H.
  apply Matches_Cat in H. destruct H as (sign & m1 & -> & _ & H).
  apply Matches_Cat in H. destruct H as (lead & m2 & -> & Hlead & H).
  apply Matches_Cat in H. destruct H as (groups & m3 & -> & Hg & H).
  apply Matches_Cat in H. destruct H as (comma & dd & -> & Hcomma & Hdd).
  apply Matches_Cat in Hlead. destruct Hlead as (d0 & u & -> & Hd0 & Hu).
  apply Matches_D in Hd0. destruct Hd0 as (c & -> & Hc).
  apply Matches_Upto_D in Hu.
  apply Matches_Lit in Hcomma. subst comma.
  apply Matches_DD in Hdd. destruct Hdd as (a & b & -> & Ha & Hb).
  apply Matches_Star_inv in Hg. destruct Hg as [-> | (g & more & -> & Hg & _)].
  - exists sign, ([] ++ (c :: u) ++ [COMMA; a; b]), [].
    split; [now rewrite app_nil_r|].
    apply amount_plain_shape. apply (PlainAmount (sign:=[])); auto.
  - apply Matches_Cat in Hg. destruct Hg as (dot & ddd & -> & Hdot & Hddd).
    apply Matches_Lit in Hdot. subst dot.
    simpl in Hddd.
    apply Matches_Cat in Hddd. destruct Hddd as (g1 & gg & -> & Hg1 & Hgg).
    apply Matches_D in Hg1. destruct Hg1 as (x & -> & Hx).
    apply (Matches_DD) in Hgg. destruct Hgg as (y & z & -> & Hy & Hz).
    exists sign, ([] ++ (c :: u) ++ [DOT; x; y]), ([z] ++ more ++ [COMMA] ++ [a; b]).
    split.
    + simpl. rewrite <- !app_assoc. simpl. reflexivity.
    + apply amount_plain_shape. apply (PlainAmount (sign:=[])); auto.
Qed.

Lemma no_plain_no_match r line :
  (forall m, Matches r m -> contains_plain m) ->
  finditer amount_plain line = [] -> finditer r line = [].
Proof.
  intros Hr Hnone.
  destruct (finditer r line) as [|m ms] eqn:E; auto.
  exfalso.
  assert (Hin : In m (finditer_from r 0 line)) by (unfold finditer in E; rewrite E; now left).
  apply finditer_from_sound in Hin. destruct Hin as (_ & Hm & pre & post & ->).
  apply Hr in Hm. destruct Hm as (pre' & p & post' & -> & Hp).
  refine (finditer_complete plain_never_empty Hnone (pre ++ pre') (m:=p)
            (post' ++ post) _ Hp).
  now rewrite <- !app_assoc.
Qed.

(** The amount scan finds nothing or a float: the second and third patterns
    never get their turn, and no cleaned string is ever left in [amount]. *)
Lemma scan_patterns_float line :
  scan_patterns amount_patterns line = None \/
  exists q, scan_patterns amount_patterns line = Some (AFloat (Num q)).
Proof.
  unfold amount_patterns. simpl.
  destruct (finditer amount_plain line) as [|m ms] eqn:E.
  - left. simpl.
    rewrite (@no_plain_no_match _ line euro_contains_plain E).
    rewrite (@no_plain_no_match _ line grouped_contains_plain E). reflexivity.
  - right.
    assert (Hin : In m (finditer_from amount_plain 0 line))
      by (unfold finditer in E; rewrite E; now left).
    apply finditer_from_sound in Hin. destruct Hin as (_ & Hm & _).
    apply amount_plain_shape, plain_amount_floats in Hm. destruct Hm as [q Hq].
    exists q. simpl. now rewrite Hq.
Qed.

(** The amount is the first match of the first pattern, cleaned and read. *)
Lemma scan_patterns_first line :
  scan_patterns amount_patterns line =
  match finditer amount_plain line with
  | [] => None
  | m :: _ => option_map AFloat (python_float (clean_amount m))
  end.
Proof.
  destruct (finditer amount_plain line) as [|m ms] eqn:E.
  - unfold amount_patterns. simpl. rewrite E. simpl.
    rewrite (@no_plain_no_match _ line euro_contains_plain E).
    rewrite (@no_plain_no_match _ line grouped_contains_plain E). reflexivity.
  - assert (Hin : In m (finditer_from amount_plain 0 line))
      by (unfold finditer in E; rewrite E; now left).
    apply finditer_from_sound in Hin. destruct Hin as (_ & Hm & _).
    apply amount_plain_shape, plain_amount_floats in Hm. destruct Hm as [q Hq].
    unfold amount_patterns. simpl. rewrite E. simpl. now rewrite Hq.
Qed.

End ScanFacts.

(** ** Sorting by date *)

Definition key_leP (a b : option Z) : Prop := key_le a b = true.

(** ascending, every NaT after every instant *)
Definition ascending (keys : list (option Z)) : Prop := StronglySorted key_leP keys.

Lemma key_le_total a b : key_le a b = false -> key_le b a = true.
Proof.
  destruct a as [x|], b as [y|]; simpl; try discriminate; auto.
  intros H. apply Z.leb_gt in H. apply Z.leb_le. lia.
Qed.

Lemma key_le_trans a b c : key_leP a b -> key_leP b c -> key_leP a c.
Proof.
  unfold key_leP. destruct a as [x|], b as [y|], c as [z|]; simpl; try discriminate; auto.
  intros H1 H2. apply Z.leb_le in H1, H2. apply Z.leb_le. lia.
Qed.

Definition pair_le (x y : option Z * nat) : Prop := key_leP (fst x) (fst y).

Lemma insert_key_perm x l : Permutation (insert_key x l) (x :: l).
Proof.
  induction l as [|y l IH]; simpl; auto.
  destruct (key_le (fst x) (fst y)); auto.
  rewrite IH. apply perm_swap.
Qed.

Lemma insert_key_sorted x l :
  StronglySorted pair_le l -> StronglySorted pair_le (insert_key x l).
Proof.
  induction 1 as [|y l Hs IH Hy]; simpl.
  - repeat constructor.
  - destruct (key_le (fst x) (fst y)) eqn:E.
    + constructor; [constructor; auto|].
      constructor; [exact E|].
      eapply Forall_impl; [|exact Hy]. intros z Hz.
      eapply key_le_trans; [exact E | exact Hz].
    + constructor; auto.
      apply (Permutation_Forall (Permutation_sym (insert_key_perm x l))).
      constructor; auto. now apply key_le_total.
Qed.

Lemma isort_perm l : Permutation (fold_right insert_key [] l) l.
Proof.
  induction l as [|x l IH]; simpl; auto.
  rewrite insert_key_perm. now constructor.
Qed.

Lemma isort_sorted l : StronglySorted pair_le (fold_right insert_key [] l).
Proof.
  induction l as [|x l IH]; simpl; [constructor|]. now apply insert_key_sorted.
Qed.

Lemma sorted_map_fst l :
  StronglySorted pair_le l -> ascending (map fst l).
Proof.
  induction 1 as [|x l Hs IH Hx]; simpl; constructor; auto.
  apply Forall_map. exact Hx.
Qed.

(** every (key, row number) pair of [combine keys (seq start n)] names its row *)
Lemma combine_seq_rows (A : Type) (l : list A) : forall start p,
  In p (combine l (seq start (List.length l))) ->
  (start <= snd p)%nat /\ nth_error l (snd p - start) = Some (fst p).
Proof.
  induction l as [|a l IH]; intros start p H; simpl in H; [contradiction|].
  destruct H as [<-|H]; simpl.
  - rewrite Nat.sub_diag. auto.
  - apply IH in H. destruct H as [H1 H2]. split; [lia|].
    replace (snd p - start)%nat with (S (snd p - S start)) by lia. exact H2.
Qed.

(** The rows chosen by [argsort] are a rearrangement of all the rows. *)
Lemma map_snd_combine (A B : Type) (a : list A) : forall (b : list B),
  List.length a = List.length b -> map snd (combine a b) = b.
Proof.
  induction a as [|x a IH]; intros [|y b]; simpl; intros H; try discriminate; auto.
  f_equal. apply IH. lia.
Qed.

Lemma argsort_perm keys : Permutation (argsort keys) (seq 0 (List.length keys)).
Proof.
  unfold argsort.
  etransitivity; [apply Permutation_map, isort_perm|].
  rewrite map_snd_combine; auto. now rewrite length_seq.
Qed.

Lemma take_map (A B : Type) (f : A -> B) rows s :
  take rows (map f s) = map f (take rows s).
Proof.
  unfold take. induction rows as [|i rows IH]; simpl; auto.
  rewrite map_app, IH, nth_error_map.
  destruct (nth_error s i); reflexivity.
Qed.

Lemma take_keys rows s :
  map sort_key (take rows s) =
  flat_map (fun i => match nth_error (map sort_key s) i with
                     | Some k => [k]
                     | None => []
                     end) rows.
Proof.
  unfold take. induction rows as [|i rows IH]; simpl; auto.
  rewrite map_app, IH, nth_error_map.
  destruct (nth_error s i); reflexivity.
Qed.

(** Taking the rows in [argsort] order puts the keys in ascending order. *)
Lemma take_argsort_ascending s :
  ascending (map sort_key (take (argsort (map sort_key s)) s)).
Proof.
  rewrite take_keys. unfold argsort.
  set (keys := map sort_key s).
  set (sorted := fold_right insert_key [] (combine keys (seq 0 (List.length keys)))).
  assert (Hrows : forall p, In p sorted -> nth_error keys (snd p) = Some (fst p)).
  { intros p Hp. apply (Permutation_in _ (isort_perm _)) in Hp.
    apply combine_seq_rows in Hp. destruct Hp as [_ Hp].
    now rewrite Nat.sub_0_r in Hp. }
  assert (E : flat_map (fun i => match nth_error keys i with
                                 | Some k => [k]
                                 | None => []
                                 end) (map snd sorted) = map fst sorted).
  { clear - Hrows. induction sorted as [|p l IH]; simpl; auto.
    rewrite (Hrows p) by now left. simpl. f_equal. apply IH.
    intros q Hq. apply Hrows. now right. }
  rewrite E. apply sorted_map_fst. apply isort_sorted.
Qed.

Lemma filter_labelled_take label rows (df : DataFrame) :
  filter (labelled label) (map (fun c => (fst c, take rows (snd c))) df) =
  map (fun c => (fst c, take rows (snd c))) (filter (labelled label) df).
Proof.
  rewrite filter_map_swap. f_equal.
Qed.

(** [sort_values] succeeds exactly when the table has one column with that
    label, and then it rearranges every column in the order of its keys. *)
Lemma sort_values_spec label df s :
  series_of label df = Ok s ->
  let rows := argsort (map sort_key s) in
  sort_values label df = Ok (map (fun c => (fst c, take rows (snd c))) df) /\
  series_of label (map (fun c => (fst c, take rows (snd c))) df) = Ok (take rows s).
Proof.
  intros H rows. split.
  - unfold sort_values. rewrite H. reflexivity.
  - unfold series_of, getitem in *. rewrite filter_labelled_take.
    destruct (filter (labelled label) df) as [|c [|c' l]]; try discriminate.
    simpl. injection H as <-. reflexivity.
Qed.

(** ** The line loop *)

Section TextFacts.
Context {U : Unicode} {P : Pandas}.

(** the amount and the type that the classification settles on *)
Definition classified (description : pystr) (x : number) : pyamount * ttype :=
  if any_indicator debit_indicators description
  then (AFloat (if gt0 x then neg x else x), DEBIT)
  else if any_indicator credit_indicators description
  then (AFloat (if lt0 x then abs x else x), CREDIT)
  else (AFloat x, UNKNOWN).

Lemma classify_float description x :
  classify description (AFloat x) = Ok (classified description x).
Proof.
  unfold classify, classified. cbn [amount_gt0 amount_lt0 bind amount_map].
  destruct (any_indicator debit_indicators description);
    [destruct (gt0 x); reflexivity|].
  destruct (any_indicator credit_indicators description);
    [destruct (lt0 x); reflexivity | reflexivity].
Qed.

Definition record_for (date_match line : pystr) (x : number) : transaction :=
  let description := extract_description line in
  {| date := date_match; description := description;
     amount := fst (classified description x);
     type := snd (classified description x) |}.

(** the record of a line whose date is [date_match] *)
Definition emitted (date_match line : pystr) : option transaction :=
  match scan_patterns amount_patterns line with
  | Some (AFloat x) => Some (record_for date_match line x)
  | _ => None
  end.

Lemma emit_with_spec date_match line :
  emit_with (scan_patterns amount_patterns) classify date_match line
  = Ok (emitted date_match line).
Proof.
  unfold emit_with, emitted.
  destruct (scan_patterns_float line) as [E | [q E]]; rewrite E; auto.
  rewrite classify_float. reflexivity.
Qed.

(** the carried date after a line *)
Definition carried (current_date : option pystr) (line : pystr) : option pystr :=
  match strip line with
  | [] => current_date
  | _ => match find_date date_patterns line with
         | Some m => Some m
         | None => current_date
         end
  end.

(** the record that a line contributes *)
Definition contributed (current_date : option pystr) (line : pystr)
  : option transaction :=
  match strip line with
  | [] => None
  | _ => match carried current_date line with
         | Some (c :: m) => emitted (c :: m) line
         | _ => None
         end
  end.

Lemma find_date_matches patterns line m :
  find_date patterns line = Some m ->
  m <> [] /\ exists p pre post, In p patterns /\ Matches p m /\ line = pre ++ m ++ post.
Proof.
  induction patterns as [|p ps IH]; simpl; [discriminate|].
  destruct (finditer p line) as [|m' ms] eqn:E.
  - intros H. apply IH in H. destruct H as (Hne & q & pre & post & Hq & Hm & Hl).
    split; auto. exists q, pre, post. auto.
  - intros H. injection H as ->.
    assert (Hin : In m (finditer_from p 0 line))
      by (unfold finditer in E; rewrite E; now left).
    apply finditer_from_sound in Hin. destruct Hin as (Hne & Hm & pre & post & Hl).
    split; auto. exists p, pre, post. auto.
Qed.

Lemma parse_line_spec current_date line :
  parse_line current_date line
  = Ok (carried current_date line, contributed current_date line).
Proof.
  unfold parse_line, parse_line_with, carried, contributed, carried.
  destruct (strip line) as [|c0 l0]; auto.
  destruct (find_date date_patterns line) as [m|] eqn:E.
  - apply find_date_matches in E. destruct E as [Hne _].
    destruct m as [|c m]; [congruence|]. simpl.
    rewrite emit_with_spec. reflexivity.
  - simpl. destruct current_date as [[|c m]|]; simpl; auto.
    rewrite emit_with_spec. reflexivity.
Qed.

(** the records collected from the lines, in order *)
Fixpoint collected (current_date : option pystr) (lines : list pystr)
  : list transaction :=
  match lines with
  | [] => []
  | line :: rest =>
    match contributed current_date line with
    | Some t => t :: collected (carried current_date line) rest
    | None => collected (carried current_date line) rest
    end
  end.

Lemma parse_lines_spec lines : forall current_date transactions,
  parse_lines current_date transactions lines
  = Ok (transactions ++ collected current_date lines).
Proof.
  induction lines as [|line rest IH]; intros cd txs; simpl.
  - now rewrite app_nil_r.
  - rewrite parse_line_spec. simpl. rewrite IH.
    destruct (contributed cd line); simpl; auto.
    now rewrite <- app_assoc.
Qed.

(** the table of the collected records, dates converted *)
Definition parsed_frame (transactions : list transaction) : DataFrame :=
  match transactions with
  | [] => []
  | _ =>
    [ (utf8 "date", map (fun t => VTime (to_datetime_dmY (VStr (date t)))) transactions);
      (utf8 "description", map (fun t => VStr (description t)) transactions);
      (utf8 "amount", map (fun t => amount_value (amount t)) transactions);
      (utf8 "type", map (fun t => VType (type t)) transactions) ]
  end.

Definition date_key (t : transaction) : option Z := to_datetime_dmY (VStr (date t)).

(** the order in which the records leave the parser *)
Definition by_date (transactions : list transaction) : list transaction :=
  take (argsort (map date_key transactions)) transactions.

Lemma take_perm (A : Type) (l : list A) rows :
  Permutation rows (seq 0 (List.length l)) -> Permutation (take rows l) l.
Proof.
  intros H. unfold take.
  rewrite (Permutation_flat_map _ H).
  clear. 
  assert (G : forall start (pre : list A),
             List.length pre = start ->
             flat_map (fun i => match nth_error (pre ++ l) i with
                                | Some v => [v]
                                | None => []
                                end) (seq start (List.length l)) = l).
  { induction l as [|a l IH]; intros start pre Hp; simpl; auto.
    rewrite nth_error_app2 by lia. rewrite <- Hp, Nat.sub_diag. simpl. f_equal.
    specialize (IH (S start) (pre ++ [a])).
    rewrite <- app_assoc in IH. simpl in IH. rewrite Hp. apply IH.
    rewrite length_app. simpl. lia. }
  pose proof (G 0%nat [] eq_refl) as G0. simpl in G0. rewrite G0. reflexivity.
Qed.

Lemma by_date_perm transactions : Permutation (by_date transactions) transactions.
Proof.
  unfold by_date. apply take_perm.
  rewrite <- (length_map date_key). apply argsort_perm.
Qed.

Lemma by_date_ascending transactions :
  ascending (map date_key (by_date transactions)).
Proof.
  unfold by_date.
  pose proof (take_argsort_ascending
                (map (fun t => VTime (date_key t)) transactions)) as H.
  rewrite map_map in H. simpl in H.
  rewrite take_map, map_map in H. simpl in H. exact H.
Qed.

(** a table with the four canonical columns *)
Definition four_columns (s1 s2 s3 s4 : Series) : DataFrame :=
  [ (utf8 "date", s1); (utf8 "description", s2); (utf8 "amount", s3); (utf8 "type", s4) ].

Lemma four_columns_date s1 s2 s3 s4 :
  series_of (utf8 "date") (four_columns s1 s2 s3 s4) = Ok s1.
Proof. reflexivity. Qed.

Lemma four_columns_set_date s s1 s2 s3 s4 :
  setitem (utf8 "date") s (four_columns s1 s2 s3 s4) = four_columns s s2 s3 s4.
Proof. reflexivity. Qed.

(** [_parse_text_content] always returns: the table of the collected records,
    ordered by date. *)
Lemma parse_text_content_spec text :
  _parse_text_content text
  = Ok (parsed_frame (by_date (collected None (split_lines text)))).
Proof.
  unfold _parse_text_content. rewrite parse_lines_spec. cbn [app bind].
  generalize (collected None (split_lines text)). intros txs.
  destruct txs as [|t l]; [reflexivity|].
  assert (Hne : by_date (t :: l) <> []).
  { intros H. pose proof (by_date_perm (t :: l)) as Hp. rewrite H in Hp.
    apply Permutation_nil in Hp. discriminate. }
  set (txs := t :: l) in *.
  unfold parsed_frame. destruct (by_date txs) as [|t' l'] eqn:E; [congruence|].
  rewrite <- E. clear Hne E t' l'.
  change (frame_of_records txs) with
      (four_columns (map (fun t => VStr (date t)) txs)
                    (map (fun t => VStr (description t)) txs)
                    (map (fun t => amount_value (amount t)) txs)
                    (map (fun t => VType (type t)) txs)).
  replace (empty _) with false by reflexivity. cbn [negb].
  rewrite four_columns_date. cbn [bind]. rewrite four_columns_set_date.
  unfold sort_values. rewrite four_columns_date. cbn [bind].
  rewrite !map_map. cbn [sort_key]. unfold four_columns. cbn [map fst snd].
  unfold by_date, date_key. rewrite !take_map. reflexivity.
Qed.

End TextFacts.

(** ** Columns and labels *)

Lemma str_eqb_eq a : forall b, str_eqb a b = true <-> a = b.
Proof.
  induction a as [|x a IH]; intros [|y b]; simpl; split; try discriminate; auto.
  - intros H. apply andb_true_iff in H. destruct H as [H1 H2].
    apply N.eqb_eq in H1. apply IH in H2. now subst.
  - intros H. injection H as -> ->. apply andb_true_iff. split.
    + apply N.eqb_refl.
    + now apply IH.
Qed.

Lemma str_eqb_refl a : str_eqb a a = true.
Proof. now apply str_eqb_eq. Qed.

Lemma str_eqb_neq a b : a <> b -> str_eqb a b = false.
Proof.
  intros H. destruct (str_eqb a b) eqn:E; auto. apply str_eqb_eq in E. contradiction.
Qed.

Lemma labelled_true label (c : pystr * Series) : labelled label c = true <-> fst c = label.
Proof. apply str_eqb_eq. Qed.

Lemma filter_setitem_other l l' s (df : DataFrame) :
  l' <> l ->
  filter (labelled l') (setitem l s df) = filter (labelled l') df.
Proof.
  intros Hne. unfold setitem.
  destruct (existsb (labelled l) df).
  - induction df as [|c df IH]; simpl; auto.
    destruct (labelled l c) eqn:E.
    + apply labelled_true in E.
      replace (labelled l' (l, s)) with false
        by (symmetry; apply str_eqb_neq; simpl; congruence).
      replace (labelled l' c) with false
        by (symmetry; apply str_eqb_neq; congruence).
      exact IH.
    + destruct (labelled l' c); now rewrite IH.
  - rewrite filter_app. simpl.
    replace (labelled l' (l, s)) with false
      by (symmetry; apply str_eqb_neq; simpl; congruence).
    apply app_nil_r.
Qed.

Lemma filter_setitem_same l s (df : DataFrame) :
  filter (labelled l) (setitem l s df) =
  match filter (labelled l) df with
  | [] => [(l, s)]
  | cs => map (fun _ => (l, s)) cs
  end.
Proof.
  unfold setitem.
  destruct (existsb (labelled l) df) eqn:Ex.
  - assert (G : filter (labelled l)
                  (map (fun c => if labelled l c then (l, s) else c) df)
                = map (fun _ => (l, s)) (filter (labelled l) df)).
    { clear Ex. induction df as [|c df IH]; simpl; auto.
      destruct (labelled l c) eqn:E; simpl.
      - unfold labelled at 1. simpl. rewrite str_eqb_refl. simpl. now rewrite IH.
      - rewrite E. exact IH. }
    rewrite G. destruct (filter (labelled l) df) eqn:F; auto.
    apply existsb_exists in Ex. destruct Ex as (c & Hin & Hc).
    assert (In c (filter (labelled l) df)) by (apply filter_In; auto).
    rewrite F in H. contradiction.
  - rewrite filter_app. simpl. unfold labelled at 2. simpl. rewrite str_eqb_refl.
    replace (filter (labelled l) df) with (@nil (pystr * Series)); auto.
    symmetry. induction df as [|c df IH]; simpl in *; auto.
    apply orb_false_iff in Ex. destruct Ex as [E1 E2]. rewrite E1. auto.
Qed.

Lemma series_of_setitem_other l l' s df :
  l' <> l -> series_of l' (setitem l s df) = series_of l' df.
Proof.
  intros H. unfold series_of, getitem. now rewrite filter_setitem_other.
Qed.

Lemma series_of_setitem_same l s s0 df :
  series_of l df = Ok s0 -> series_of l (setitem l s df) = Ok s.
Proof.
  unfold series_of, getitem. rewrite filter_setitem_same.
  destruct (filter (labelled l) df) as [|c [|c' cs]]; try discriminate. reflexivity.
Qed.

Lemma select_ok labels df :
  Forall (fun l => filter (labelled l) df <> []) labels ->
  select labels df = Ok (flat_map (fun l => filter (labelled l) df) labels).
Proof.
  induction 1 as [|l ls Hl _ IH]; simpl; auto.
  destruct (filter (labelled l) df) as [|c cs]; [congruence|].
  rewrite IH. reflexivity.
Qed.

(** ** The standardizer, step by step *)

Section StandardizerFacts.
Context {U : Unicode} {P : Pandas}.

(** the amount of a cell: text, decimal comma to point, coerced *)
Definition coerce (v : value) : number :=
  to_numeric (replace COMMA [DOT] (astype_str v)).

Definition sign_type (x : number) : ttype := if gt0 x then CREDIT else DEBIT.

(** the table after "Standardize column names" *)
Definition renamed (raw : DataFrame) : option DataFrame :=
  match matching_columns date_terms raw,
        matching_columns amount_terms raw,
        matching_columns desc_terms raw with
  | date0 :: _, amount0 :: _, desc0 :: _ =>
    Some (rename [ (date0, utf8 "date"); (amount0, utf8 "amount");
                   (desc0, utf8 "description") ] raw)
  | _, _, _ => None
  end.

(** the projected table, before the final sort *)
Definition projected (dates amounts : Series) (df1 : DataFrame) : DataFrame :=
  let nums := map coerce amounts in
  (utf8 "date", map VTime (to_datetime dates))
  :: filter (labelled (utf8 "description")) df1
  ++ (utf8 "amount", map VNum nums)
  :: repeat (utf8 "type", map (fun x => VType (sign_type x)) nums)
            (Nat.max 1 (List.length (filter (labelled (utf8 "type")) df1))).

Definition reordered (rows : list nat) (df : DataFrame) : DataFrame :=
  map (fun c => (fst c, take rows (snd c))) df.

Lemma apply_type_of_amount nums :
  apply type_of_amount (map VNum nums) = Ok (map (fun x => VType (sign_type x)) nums).
Proof.
  induction nums as [|x nums IH]; simpl; auto. rewrite IH. reflexivity.
Qed.

Lemma map_const_repeat (A B : Type) (x : B) (l : list A) :
  map (fun _ => x) l = repeat x (List.length l).
Proof. induction l; simpl; congruence. Qed.

Lemma filter_labelled_filter l l' (df : DataFrame) :
  l <> l' -> filter (labelled l) (filter (labelled l') df) = [].
Proof.
  intros H. induction df as [|c df IH]; simpl; auto.
  destruct (labelled l' c) eqn:E; auto. simpl.
  apply labelled_true in E.
  replace (labelled l c) with false by (symmetry; apply str_eqb_neq; congruence).
  exact IH.
Qed.

Lemma filter_labelled_repeat l l' s n :
  l <> l' -> filter (labelled l) (repeat (l', s) n) = [].
Proof.
  intros H. induction n; simpl; auto.
  replace (labelled l (l', s)) with false
    by (symmetry; apply str_eqb_neq; simpl; congruence).
  exact IHn.
Qed.

Lemma map_sort_key_VTime ts : map sort_key (map VTime ts) = ts.
Proof. induction ts; simpl; congruence. Qed.

(** the renaming always leaves a column labelled 'description' *)
Lemma renamed_has_description raw df1 :
  renamed raw = Some df1 -> filter (labelled (utf8 "description")) df1 <> [].
Proof.
  unfold renamed.
  destruct (matching_columns date_terms raw) as [|date0 ?]; [discriminate|].
  destruct (matching_columns amount_terms raw) as [|amount0 ?]; [discriminate|].
  destruct (matching_columns desc_terms raw) as [|desc0 ds] eqn:E; [discriminate|].
  intros H. injection H as <-.
  assert (Hin : In desc0 (columns raw)).
  { assert (In desc0 (matching_columns desc_terms raw)) by (rewrite E; now left).
    unfold matching_columns in H. apply filter_In in H. tauto. }
  unfold columns in Hin. apply in_map_iff in Hin. destruct Hin as (c & Hc & Hin).
  intros F.
  assert (G : In (utf8 "description", snd c)
                 (filter (labelled (utf8 "description"))
                    (rename [ (date0, utf8 "date"); (amount0, utf8 "amount");
                              (desc0, utf8 "description") ] raw))).
  { apply filter_In. split.
    - unfold rename. apply in_map_iff. exists c. split; auto.
      simpl. rewrite Hc, str_eqb_refl. reflexivity.
    - reflexivity. }
  rewrite F in G. contradiction.
Qed.

(** [_standardize_dataframe], as one expression *)
Lemma standardize_spec raw :
  _standardize_dataframe raw =
  match renamed raw with
  | None => Raise MissingColumns
  | Some df1 =>
    dates <- series_of (utf8 "date") df1 ;;
    amounts <- series_of (utf8 "amount") df1 ;;
    Ok (reordered (argsort (to_datetime dates)) (projected dates amounts df1))
  end.
Proof.
  unfold _standardize_dataframe.
  destruct (renamed raw) as [df1|] eqn:R.
  2:{ unfold renamed in R.
      destruct (matching_columns date_terms raw); auto.
      destruct (matching_columns amount_terms raw); auto.
      destruct (matching_columns desc_terms raw); auto. discriminate. }
  pose proof (renamed_has_description _ R) as Hdesc.
  unfold renamed in R.
  destruct (matching_columns date_terms raw) as [|date0 ?]; [discriminate|].
  destruct (matching_columns amount_terms raw) as [|amount0 ?]; [discriminate|].
  destruct (matching_columns desc_terms raw) as [|desc0 ?]; [discriminate|].
  injection R as R. rewrite R. clear R.
  destruct (series_of (utf8 "date") df1) as [dates|e] eqn:Ed; [|reflexivity].
  cbn [bind].
  rewrite series_of_setitem_other by discriminate.
  destruct (series_of (utf8 "amount") df1) as [amounts|e] eqn:Ea; [|reflexivity].
  cbn [bind].
  set (D := map VTime (to_datetime dates)).
  set (A := map (fun v => VNum (to_numeric (replace COMMA [DOT] (astype_str v)))) amounts).
  assert (EA : A = map VNum (map coerce amounts)) by (unfold A; now rewrite map_map).
  rewrite (@series_of_setitem_same (utf8 "amount") A amounts)
    by (now rewrite series_of_setitem_other by discriminate).
  cbn [bind]. rewrite EA, apply_type_of_amount. cbn [bind].
  set (T := map (fun x => VType (sign_type x)) (map coerce amounts)).
  set (df4 := setitem (utf8 "type") T _).
  assert (Fd : filter (labelled (utf8 "date")) df4 = [(utf8 "date", D)]).
  { unfold df4. rewrite !filter_setitem_other by discriminate.
    rewrite filter_setitem_same.
    unfold series_of, getitem in Ed.
    destruct (filter (labelled (utf8 "date")) df1) as [|c [|c' cs]]; try discriminate.
    reflexivity. }
  assert (Fs : filter (labelled (utf8 "description")) df4
               = filter (labelled (utf8 "description")) df1).
  { unfold df4. now rewrite !filter_setitem_other by discriminate. }
  assert (Fa : filter (labelled (utf8 "amount")) df4
               = [(utf8 "amount", map VNum (map coerce amounts))]).
  { unfold df4. rewrite filter_setitem_other by discriminate.
    rewrite filter_setitem_same, filter_setitem_other by discriminate.
    unfold series_of, getitem in Ea.
    destruct (filter (labelled (utf8 "amount")) df1) as [|c [|c' cs]]; try discriminate.
    reflexivity. }
  assert (Ft : filter (labelled (utf8 "type")) df4
               = repeat (utf8 "type", T)
                   (Nat.max 1 (List.length (filter (labelled (utf8 "type")) df1)))).
  { unfold df4. rewrite filter_setitem_same.
    rewrite !filter_setitem_other by discriminate.
    destruct (filter (labelled (utf8 "type")) df1) as [|c cs]; [reflexivity|].
    rewrite map_const_repeat. reflexivity. }
  rewrite select_ok.
  2:{ cbn [map]. repeat constructor.
      - rewrite Fd. discriminate.
      - rewrite Fs. exact Hdesc.
      - rewrite Fa. discriminate.
      - rewrite Ft. destruct (List.length _); discriminate. }
  cbn [bind map flat_map]. rewrite Fd, Fs, Fa, Ft, app_nil_r.
  unfold sort_values.
  replace (series_of (utf8 "date") _) with (Ok D).
  2:{ unfold series_of, getitem. cbn [app filter].
      replace (labelled (utf8 "date") (utf8 "date", D)) with true by reflexivity.
      rewrite filter_app, filter_labelled_filter by discriminate.
      cbn [app filter].
      replace (labelled (utf8 "date") (utf8 "amount", _)) with false by reflexivity.
      rewrite filter_labelled_repeat by discriminate. reflexivity. }
  cbn [bind]. unfold D. rewrite map_sort_key_VTime. reflexivity.
Qed.

End StandardizerFacts.

(** ** The records of a table *)

(** One row of a table: the value under each label, left to right. *)
Definition record := list (pystr * value).

Definition record_at (df : DataFrame) (i : nat) : record :=
  flat_map (fun c => match nth_error (snd c) i with
                     | Some v => [(fst c, v)]
                     | None => []
                     end) df.

Definition records (df : DataFrame) : list record :=
  map (record_at df) (seq 0 (nrows df)).

(** the value of a record under a label (the first, if the label repeats) *)
Fixpoint field (label : pystr) (r : record) : option value :=
  match r with
  | [] => None
  | (l, v) :: r' => if str_eqb l label then Some v else field label r'
  end.

Lemma field_app label r r' :
  field label (r ++ r') =
  match field label r with Some v => Some v | None => field label r' end.
Proof.
  induction r as [|[l v] r IH]; simpl; auto.
  destruct (str_eqb l label); auto.
Qed.

Lemma record_at_app df df' i : record_at (df ++ df') i = record_at df i ++ record_at df' i.
Proof. unfold record_at. apply flat_map_app. Qed.

Lemma field_record_at_none label (df : DataFrame) i :
  filter (labelled label) df = [] -> field label (record_at df i) = None.
Proof.
  induction df as [|c df IH]; simpl; auto.
  destruct (labelled label c) eqn:E; [discriminate|]. intros H.
  change (record_at (c :: df) i) with
    ((match nth_error (snd c) i with Some v => [(fst c, v)] | None => [] end)
       ++ record_at df i).
  rewrite field_app, (IH H).
  destruct c as [l s]. unfold labelled in E. cbn [fst snd] in *.
  destruct (nth_error s i); cbn [field]; auto.
  now rewrite E.
Qed.

Lemma field_record_at_cons label l s (df : DataFrame) i :
  field label (record_at ((l, s) :: df) i) =
  match nth_error s i with
  | Some v => if str_eqb l label then Some v else field label (record_at df i)
  | None => field label (record_at df i)
  end.
Proof.
  change (record_at ((l, s) :: df) i) with
    ((match nth_error s i with Some v => [(l, v)] | None => [] end) ++ record_at df i).
  rewrite field_app. destruct (nth_error s i); simpl; auto.
  destruct (str_eqb l label); auto.
Qed.

Lemma map_seq_nth_error (A B : Type) (h : option A -> B) (l : list A) :
  map (fun i => h (nth_error l i)) (seq 0 (List.length l)) = map (fun a => h (Some a)) l.
Proof.
  assert (G : forall start (pre : list A), List.length pre = start ->
             map (fun i => h (nth_error (pre ++ l) i)) (seq start (List.length l))
             = map (fun a => h (Some a)) l).
  { induction l as [|a l IH]; intros start pre Hp; simpl; auto.
    rewrite nth_error_app2 by lia. rewrite <- Hp, Nat.sub_diag. simpl. f_equal.
    specialize (IH (S start) (pre ++ [a])).
    rewrite <- app_assoc in IH. simpl in IH. rewrite Hp. apply IH.
    rewrite length_app. simpl. lia. }
  exact (G 0%nat [] eq_refl).
Qed.

Section TextRecords.
Context {U : Unicode} {P : Pandas}.

(** the row of a collected record in the parser's table *)
Definition row_of (t : transaction) : record :=
  [ (utf8 "date", VTime (date_key t));
    (utf8 "description", VStr (description t));
    (utf8 "amount", amount_value (amount t));
    (utf8 "type", VType (type t)) ].

Lemma records_parsed_frame transactions :
  records (parsed_frame transactions) = map row_of transactions.
Proof.
  destruct transactions as [|t l]; [reflexivity|].
  set (txs := t :: l). unfold records.
  replace (nrows (parsed_frame txs)) with (List.length txs)
    by (simpl; now rewrite length_map).
  etransitivity;
    [|exact (map_seq_nth_error
               (fun o => match o with
                         | Some t => row_of t
                         | None => []
                         end) txs)].
  apply map_ext. intros i. unfold record_at. subst txs. cbn [parsed_frame flat_map snd fst].
  rewrite !nth_error_map.
  destruct (nth_error (t :: l) i); reflexivity.
Qed.

(** The rows of the parser's table are the rows of the collected records. *)
Lemma text_records text df r :
  _parse_text_content text = Ok df ->
  In r (records df) ->
  exists t, In t (collected None (split_lines text)) /\ r = row_of t.
Proof.
  rewrite parse_text_content_spec. intros H. injection H as <-.
  rewrite records_parsed_frame. intros Hin.
  apply in_map_iff in Hin. destruct Hin as (t & <- & Hin).
  exists t. split; auto.
  eapply Permutation_in; [apply by_date_perm | exact Hin].
Qed.

Lemma contributed_inv current_date line t :
  contributed current_date line = Some t ->
  exists c m q,
    carried current_date line = Some (c :: m) /\
    scan_patterns amount_patterns line = Some (AFloat (Num q)) /\
    t = record_for (c :: m) line (Num q).
Proof.
  unfold contributed. destruct (strip line) as [|s0 l0] eqn:S; [discriminate|].
  destruct (carried current_date line) as [[|c m]|]; try discriminate.
  unfold emitted.
  destruct (scan_patterns_float line) as [E | [q E]]; rewrite E; [discriminate|].
  intros H. injection H as <-. exists c, m, q. auto.
Qed.

Lemma collected_inv lines : forall current_date t,
  In t (collected current_date lines) ->
  exists cd line, In line lines /\ contributed cd line = Some t.
Proof.
  induction lines as [|line rest IH]; intros cd t H; simpl in H; [contradiction|].
  assert (Hrest : In t (collected (carried cd line) rest) ->
                  exists cd' line', In line' (line :: rest) /\ contributed cd' line' = Some t).
  { intros Hr. apply IH in Hr. destruct Hr as (cd' & line' & Hl & Hc).
    exists cd', line'. split; auto. now right. }
  destruct (contributed cd line) as [t'|] eqn:E; auto.
  destruct H as [<-|H]; auto.
  exists cd, line. split; auto. now left.
Qed.

End TextRecords.

(** ** Signs *)

Lemma Qltb_lt x y : Qltb x y = true <-> (x < y)%Q.
Proof. unfold Qltb, Qlt. apply Z.ltb_lt. Qed.

Lemma le0_after_debit q :
  le0 (if gt0 (Num q) then neg (Num q) else Num q) = true.
Proof.
  simpl. destruct (Qltb 0 q) eqn:E; simpl; apply Qle_bool_iff.
  - apply Qltb_lt in E. apply Qlt_le_weak in E.
    apply Qopp_le_compat in E. exact E.
  - apply Qnot_lt_le. intros H. apply Qltb_lt in H. congruence.
Qed.

Lemma ge0_after_credit q :
  ge0 (if lt0 (Num q) then abs (Num q) else Num q) = true.
Proof.
  simpl. destruct (Qltb q 0) eqn:E; simpl; apply Qle_bool_iff.
  - apply Qabs_nonneg.
  - apply Qnot_lt_le. intros H. apply Qltb_lt in H. congruence.
Qed.

Lemma not_gt0 x : gt0 x = false -> le0 x = true \/ x = NaN.
Proof.
  destruct x as [q|[|]|]; simpl; auto; try discriminate.
  intros E. left. apply Qle_bool_iff. apply Qnot_lt_le.
  intros H. apply Qltb_lt in H. congruence.
Qed.

Lemma gt0_ge0 x : gt0 x = true -> ge0 x = true.
Proof.
  destruct x as [q|[|]|]; simpl; auto.
  intros E. apply Qle_bool_iff. apply Qlt_le_weak. now apply Qltb_lt.
Qed.

(** the sign invariant of one record *)
Definition sign_invariant (r : record) : Prop :=
  (field (utf8 "type") r = Some (VType DEBIT) ->
   exists x, field (utf8 "amount") r = Some (VNum x) /\ le0 x = true) /\
  (field (utf8 "type") r = Some (VType CREDIT) ->
   exists x, field (utf8 "amount") r = Some (VNum x) /\ ge0 x = true).

(** the same, with the missing-amount marker allowed under DEBIT *)
Definition sign_invariant_or_missing (r : record) : Prop :=
  (field (utf8 "type") r = Some (VType DEBIT) ->
   exists x, field (utf8 "amount") r = Some (VNum x) /\ (le0 x = true \/ x = NaN)) /\
  (field (utf8 "type") r = Some (VType CREDIT) ->
   exists x, field (utf8 "amount") r = Some (VNum x) /\ ge0 x = true).

Section SignFacts.
Context {U : Unicode} {P : Pandas}.

Lemma record_for_sign date_match line q :
  sign_invariant (row_of (record_for date_match line (Num q))).
Proof.
  unfold sign_invariant, row_of, record_for, classified.
  cbn [field fst snd amount type description date].
  replace (str_eqb (utf8 "date") (utf8 "type")) with false by reflexivity.
  replace (str_eqb (utf8 "description") (utf8 "type")) with false by reflexivity.
  replace (str_eqb (utf8 "amount") (utf8 "type")) with false by reflexivity.
  replace (str_eqb (utf8 "type") (utf8 "type")) with true by reflexivity.
  replace (str_eqb (utf8 "date") (utf8 "amount")) with false by reflexivity.
  replace (str_eqb (utf8 "description") (utf8 "amount")) with false by reflexivity.
  replace (str_eqb (utf8 "amount") (utf8 "amount")) with true by reflexivity.
  destruct (any_indicator debit_indicators _);
    [|destruct (any_indicator credit_indicators _)];
    cbn [fst snd amount_value]; split; intros H; try discriminate.
  - eexists. split; [reflexivity|]. apply le0_after_debit.
  - eexists. split; [reflexivity|]. apply ge0_after_credit.
Qed.

(** the amount and the type of every row of the standardized table *)
Lemma record_at_repeat_none l (s : Series) i n :
  nth_error s i = None -> record_at (repeat (l, s) n) i = [].
Proof.
  intros H. induction n as [|n IH]; auto.
  unfold record_at in *. cbn [repeat flat_map snd]. now rewrite H, IH.
Qed.

Lemma standardized_fields rows dates amounts df1 i :
  let r := record_at (reordered rows (projected dates amounts df1)) i in
  let x := nth_error (take rows (map coerce amounts)) i in
  field (utf8 "amount") r = option_map VNum x /\
  field (utf8 "type") r = option_map (fun x => VType (sign_type x)) x.
Proof.
  unfold projected, reordered.
  set (nums := map coerce amounts).
  set (j := Nat.max 1 _).
  assert (Hj : (1 <= j)%nat) by (unfold j; lia). clearbody j.
  rewrite map_cons, map_app, map_cons. cbn [fst snd].
  set (descs := map _ (filter (labelled (utf8 "description")) df1)).
  assert (Hd : forall l, l <> utf8 "description" -> filter (labelled l) descs = []).
  { intros l Hl. unfold descs.
    rewrite (filter_labelled_take l rows). rewrite filter_labelled_filter; auto. }
  set (types := map _ (repeat _ j)).
  set (tail := _ :: types).
  assert (E : forall l, l <> utf8 "description" -> l <> utf8 "date" ->
            field l (record_at ((utf8 "date", take rows (map VTime (to_datetime dates)))
                                  :: descs ++ tail) i)
            = field l (record_at tail i)).
  { intros l Hl Hl'. rewrite field_record_at_cons.
    replace (str_eqb (utf8 "date") l) with false by (symmetry; apply str_eqb_neq; congruence).
    rewrite record_at_app, field_app.
    rewrite (@field_record_at_none l descs i (Hd l Hl)).
    now destruct (nth_error _ i). }
  cbv zeta. rewrite !E by discriminate.
  unfold tail. rewrite !field_record_at_cons.
  replace (str_eqb (utf8 "amount") (utf8 "type")) with false by reflexivity.
  replace (str_eqb (utf8 "amount") (utf8 "amount")) with true by reflexivity.
  rewrite take_map, nth_error_map.
  assert (Ht : types = repeat (utf8 "type",
                               map (fun x => VType (sign_type x)) (take rows nums)) j).
  { unfold types. rewrite map_repeat. cbn [fst snd]. now rewrite take_map. }
  rewrite Ht. clear Ht types tail E.
  destruct (nth_error (take rows nums) i) as [x|] eqn:Ex; cbn [option_map].
  - split; auto.
    destruct j as [|j]; [lia|]. cbn [repeat]. rewrite field_record_at_cons.
    rewrite nth_error_map, Ex. reflexivity.
  - rewrite record_at_repeat_none by (now rewrite nth_error_map, Ex). auto.
Qed.
(** the type and the amount of a row of the standardized table *)
Lemma standardized_record rows dates amounts df1 i t :
  field (utf8 "type") (record_at (reordered rows (projected dates amounts df1)) i)
    = Some (VType t) ->
  exists x,
    field (utf8 "amount") (record_at (reordered rows (projected dates amounts df1)) i)
      = Some (VNum x) /\ t = sign_type x.
Proof.
  destruct (standardized_fields rows dates amounts df1 i) as [Ea Et].
  rewrite Ea, Et.
  destruct (nth_error _ i) as [x|]; cbn [option_map]; [|discriminate].
  intros H. injection H as <-. eauto.
Qed.

End SignFacts.

(** ** C1: the sign invariant *)

Section C1.
Context {U : Unicode} {P : Pandas}.

Lemma text_sign_invariant text df r :
  _parse_text_content text = Ok df -> In r (records df) -> sign_invariant r.
Proof.
  intros H Hin. destruct (@text_records _ _ text df r H Hin) as (t & Ht & ->).
  apply collected_inv in Ht. destruct Ht as (cd & line & _ & Hc).
  apply contributed_inv in Hc. destruct Hc as (c & m & q & _ & _ & ->).
  apply record_for_sign.
Qed.

Lemma tabular_sign_invariant raw df r :
  _standardize_dataframe raw = Ok df -> In r (records df) ->
  sign_invariant_or_missing r.
Proof.
  rewrite standardize_spec.
  destruct (renamed raw) as [df1|]; [|discriminate].
  destruct (series_of (utf8 "date") df1) as [dates|]; [|discriminate].
  destruct (series_of (utf8 "amount") df1) as [amounts|]; [|discriminate].
  cbn [bind]. intros H. injection H as <-.
  unfold records. intros Hin. apply in_map_iff in Hin. destruct Hin as (i & <- & _).
  split; intros Ht; apply standardized_record in Ht; destruct Ht as (x & Hx & Hs);
    exists x; split; auto; unfold sign_type in Hs; destruct (gt0 x) eqn:G;
    try discriminate.
  - now apply not_gt0.
  - now apply gt0_ge0.
Qed.

End C1.

(** C1 (amended).  Every record of the text parser's table satisfies the sign
    invariant: type DEBIT goes with an amount <= 0 and type CREDIT with an
    amount >= 0.  Every record of the tabular standardizer's table satisfies
    it except that a DEBIT record may carry the missing-amount marker NaN
    instead of an amount <= 0. *)
Theorem C1_sign_invariant (U : Unicode) (P : Pandas) :
  (forall text df r,
      _parse_text_content text = Ok df -> In r (records df) -> sign_invariant r) /\
  (forall raw df r,
      _standardize_dataframe raw = Ok df -> In r (records df) ->
      sign_invariant_or_missing r).
Proof. split; [apply text_sign_invariant | apply tabular_sign_invariant]. Qed.

(** a statement table with one row whose amount is not a number *)
Definition statement_with_text_amount : DataFrame :=
  table [ ("Data", ["01/03/2024"]); ("Valor", ["abc"]); ("Descricao", ["Compra"]) ]%string.

(** C1, as stated, fails on the tabular standardizer: a row whose amount does
    not coerce is typed DEBIT and its amount, NaN, is not <= 0. *)
Lemma C1_counterexample :
  exists out r,
    _standardize_dataframe statement_with_text_amount = Ok out /\
    In r (records out) /\ ~ sign_invariant r.
Proof.
  eexists. eexists. split; [vm_compute; reflexivity|].
  split; [left; reflexivity|].
  intros [H _].
  destruct (H eq_refl) as (x & Hx & Hle).
  vm_compute in Hx. injection Hx as <-. discriminate.
Qed.

(** a statement text: a carried date, a credit, and a debit dated the ISO way *)
Definition sample_text : pystr :=
  utf8 "03/03/2024
PAGAMENTO SERVIÇO 20,00

02/03/2024 TRANSFERÊNCIA RECEBIDA 100,00
2024-01-05 LEVANTAMENTO 45,00".

Lemma C1_witness :
  exists df, _parse_text_content sample_text = Ok df /\
             Forall sign_invariant (records df).
Proof.
  eexists. split; [vm_compute; reflexivity|].
  apply Forall_forall. intros r Hr.
  eapply (proj1 (C1_sign_invariant Latin1 StringCells) sample_text); [|exact Hr].
  vm_compute. reflexivity.
Defined.

(** ** C2: the amounts of the spec's examples *)

(** C2 (the code at the claim's inputs).  On a transaction line that carries
    the amount substring, the amount scan yields -12.34 for "-12,34" and 45.00
    for "€ 45,00", but 123 for "1.234,56": the first pattern matches "1.23"
    before the thousands pattern is tried. *)
Theorem C2_amounts_of_the_examples :
  scan_patterns amount_patterns (utf8 "01/03/2024 TALHO 1.234,56")
    = Some (AFloat (Num (123 # 1))) /\
  scan_patterns amount_patterns (utf8 "01/03/2024 TALHO -12,34")
    = Some (AFloat (Num (-1234 # 100))) /\
  scan_patterns amount_patterns (utf8 "01/03/2024 TALHO € 45,00")
    = Some (AFloat (Num (4500 # 100))) /\
  parse_line None (utf8 "01/03/2024 TALHO 1.234,56")
    = Ok (Some (utf8 "01/03/2024"),
          Some {| date := utf8 "01/03/2024"; description := utf8 "TALHO";
                  amount := AFloat (Num (123 # 1)); type := UNKNOWN |}).
Proof. repeat split; vm_compute; reflexivity. Qed.

(** ** C9: a debit keyword wins over a credit keyword *)

(** C9.  When the amount scan of a line finds an amount and the extracted
    description contains a debit keyword, the record is typed DEBIT and its
    amount is the found one made non-positive, whether or not a credit keyword
    occurs too; the credit branch (type CREDIT, absolute value) is taken only
    by descriptions without a debit keyword. *)
Theorem C9_debit_precedence (U : Unicode) (P : Pandas) :
  (forall date_match line a,
      scan_patterns amount_patterns line = Some a ->
      any_indicator debit_indicators (extract_description line) = true ->
      exists x,
        a = AFloat x /\
        emit_with (scan_patterns amount_patterns) classify date_match line
        = Ok (Some {| date := date_match;
                      description := extract_description line;
                      amount := AFloat (if gt0 x then neg x else x);
                      type := DEBIT |}) /\
        le0 (if gt0 x then neg x else x) = true) /\
  (forall description x a,
      classify description (AFloat x) = Ok (a, CREDIT) ->
      any_indicator debit_indicators description = false /\
      any_indicator credit_indicators description = true /\
      a = AFloat (if lt0 x then abs x else x)).
Proof.
  split.
  - intros date_match line a Ha Hd.
    destruct (scan_patterns_float line) as [E | [q E]]; rewrite E in Ha; [discriminate|].
    injection Ha as <-. exists (Num q). split; auto. split.
    + rewrite emit_with_spec. unfold emitted. rewrite E.
      unfold record_for, classified. rewrite Hd. reflexivity.
    + apply le0_after_debit.
  - intros description x a H. rewrite classify_float in H. unfold classified in H.
    destruct (any_indicator debit_indicators description); [discriminate|].
    destruct (any_indicator credit_indicators description); [|discriminate].
    injection H as <-. auto.
Qed.

Lemma C9_witness :
  exists x,
    AFloat (Num (4567 # 100)) = AFloat x /\
    emit_with (scan_patterns amount_patterns) classify (utf8 "01/03/2024")
              (utf8 "01/03/2024 COMPRA CR 45,67")
    = Ok (Some {| date := utf8 "01/03/2024";
                  description := extract_description (utf8 "01/03/2024 COMPRA CR 45,67");
                  amount := AFloat (if gt0 x then neg x else x);
                  type := DEBIT |}) /\
    le0 (if gt0 x then neg x else x) = true.
Proof.
  apply (proj1 (C9_debit_precedence Latin1 StringCells)
               (utf8 "01/03/2024") (utf8 "01/03/2024 COMPRA CR 45,67")
               (AFloat (Num (4567 # 100))));
    vm_compute; reflexivity.
Defined.

(** ** Dates *)

Section DateFacts.
Context {U : Unicode} {P : Pandas}.

Lemma lstrip_nil s : lstrip s = [] -> Forall (fun c => isspace c = true) s.
Proof.
  induction s as [|c s IH]; simpl; [constructor|].
  destruct (isspace c) eqn:E; [|discriminate]. intros H. constructor; auto.
Qed.

Lemma lstrip_head s c s' : lstrip s = c :: s' -> isspace c = false.
Proof.
  induction s as [|a s IH]; simpl; [discriminate|].
  destruct (isspace a) eqn:E; auto. intros H. injection H as <- _. exact E.
Qed.

(** a blank line has white space only *)
Lemma strip_nil s : strip s = [] -> Forall (fun c => isspace c = true) s.
Proof.
  unfold strip, rstrip. intros H.
  assert (H' : lstrip (rev (lstrip s)) = []).
  { destruct (lstrip (rev (lstrip s))); auto. simpl in H.
    apply app_eq_nil in H. destruct H. discriminate. }
  apply lstrip_nil in H'. apply Forall_rev in H'. rewrite rev_involutive in H'.
  destruct (lstrip s) as [|c s'] eqn:E.
  - now apply lstrip_nil.
  - apply lstrip_head in E. inversion H'; subst. congruence.
Qed.

Lemma Matches_DDDD m :
  Matches (Times 4 D) m ->
  exists a b c d, m = [a; b; c; d] /\ digit a /\ digit b /\ digit c /\ digit d.
Proof.
  intros H. simpl in H.
  apply Matches_Cat in H. destruct H as (m1 & m2 & -> & H1 & H).
  apply Matches_Cat in H. destruct H as (m3 & m4 & -> & H2 & H).
  apply Matches_DD in H. destruct H as (c & d & -> & Hc & Hd).
  apply Matches_D in H1, H2. destruct H1 as (a & -> & Ha), H2 as (b & -> & Hb).
  exists a, b, c, d. simpl. auto.
Qed.

(** the strings that each date pattern matches *)
Lemma date_dmY_slash_shape m :
  Matches date_dmY_slash m ->
  exists a b c d e f g h,
    m = [a; b; SLASH; c; d; SLASH; e; f; g; h] /\
    digit a /\ digit b /\ digit c /\ digit d.
Proof.
  intros H. unfold date_dmY_slash in H.
  apply Matches_Cat in H. destruct H as (dd & m1 & -> & Hdd & H).
  apply Matches_Cat in H. destruct H as (s1 & m2 & -> & Hs1 & H).
  apply Matches_Cat in H. destruct H as (mm & m3 & -> & Hmm & H).
  apply Matches_Cat in H. destruct H as (s2 & yy & -> & Hs2 & Hyy).
  apply Matches_DD in Hdd, Hmm.
  destruct Hdd as (a & b & -> & Ha & Hb), Hmm as (c & d & -> & Hc & Hd).
  apply Matches_Lit in Hs1, Hs2. subst.
  apply Matches_DDDD in Hyy. destruct Hyy as (e & f & g & h & -> & _).
  exists a, b, c, d, e, f, g, h. simpl. auto.
Qed.

Lemma date_dmY_dash_shape m :
  Matches date_dmY_dash m ->
  exists a b c d e f g h,
    m = [a; b; DASH; c; d; DASH; e; f; g; h] /\ digit a /\ digit b.
Proof.
  intros H. unfold date_dmY_dash in H.
  apply Matches_Cat in H. destruct H as (dd & m1 & -> & Hdd & H).
  apply Matches_Cat in H. destruct H as (s1 & m2 & -> & Hs1 & H).
  apply Matches_Cat in H. destruct H as (mm & m3 & -> & Hmm & H).
  apply Matches_Cat in H. destruct H as (s2 & yy & -> & Hs2 & Hyy).
  apply Matches_DD in Hdd, Hmm.
  destruct Hdd as (a & b & -> & Ha & Hb), Hmm as (c & d & -> & Hc & Hd).
  apply Matches_Lit in Hs1, Hs2. subst.
  apply Matches_DDDD in Hyy. destruct Hyy as (e & f & g & h & -> & _).
  exists a, b, c, d, e, f, g, h. simpl. auto.
Qed.

Lemma date_Ymd_dash_shape m :
  Matches date_Ymd_dash m ->
  exists a b c d e f g h,
    m = [a; b; c; d; DASH; e; f; DASH; g; h] /\ digit a /\ digit b /\ digit c.
Proof.
  intros H. unfold date_Ymd_dash in H.
  apply Matches_Cat in H. destruct H as (yy & m1 & -> & Hyy & H).
  apply Matches_Cat in H. destruct H as (s1 & m2 & -> & Hs1 & H).
  apply Matches_Cat in H. destruct H as (mm & m3 & -> & Hmm & H).
  apply Matches_Cat in H. destruct H as (s2 & dd & -> & Hs2 & Hdd).
  apply Matches_DD in Hdd, Hmm.
  destruct Hdd as (g & h & -> & _ & _), Hmm as (e & f & -> & _ & _).
  apply Matches_Lit in Hs1, Hs2. subst.
  apply Matches_DDDD in Hyy. destruct Hyy as (a & b & c & d & -> & Ha & Hb & Hc & _).
  exists a, b, c, d, e, f, g, h. simpl. auto.
Qed.

Lemma date_match_starts_with_digit p m :
  In p date_patterns -> Matches p m -> exists c m', m = c :: m' /\ digit c.
Proof.
  intros [<- | [<- | [<- | []]]] H.
  - apply date_dmY_slash_shape in H.
    destruct H as (a & b & c & d & e & f & g & h & -> & Ha & _). eauto.
  - apply date_dmY_dash_shape in H.
    destruct H as (a & b & c & d & e & f & g & h & -> & Ha & _). eauto.
  - apply date_Ymd_dash_shape in H.
    destruct H as (a & b & c & d & e & f & g & h & -> & Ha & _). eauto.
Qed.

(** a line in which a date is found is not blank *)
Lemma dated_line_not_blank line m :
  find_date date_patterns line = Some m -> strip line <> [].
Proof.
  intros H E. apply find_date_matches in H.
  destruct H as (_ & p & pre & post & Hp & Hm & ->).
  destruct (date_match_starts_with_digit Hp Hm) as (c & m' & -> & Hc).
  apply strip_nil in E. apply Forall_app in E. destruct E as [_ E].
  inversion E; subst. apply digit_not_space in Hc. congruence.
Qed.



End DateFacts.

(** ** C4: the carried date *)



(** ** C10: dates written with dashes are not parsed *)

Section C10.
Context {U : Unicode} {P : Pandas}.

Lemma fmt_d_length m :
  Matches fmt_d m -> (exists x, m = [x]) \/ (exists x y, m = [x; y]).
Proof.
  unfold fmt_d. intros H.
  assert (two : forall r1 r2 m, Matches (Sym r1 +++ Sym r2) m -> exists x y, m = [x; y]).
  { intros r1 r2 m' H'. apply Matches_Cat in H'. destruct H' as (m1 & m2 & -> & H1 & H2).
    apply Matches_Sym in H1, H2. destruct H1 as (x & -> & _), H2 as (y & -> & _).
    exists x, y. reflexivity. }
  apply Matches_Alt in H. destruct H as [H|H]; [right; eapply two; exact H|].
  apply Matches_Alt in H. destruct H as [H|H]; [right; eapply two; exact H|].
  apply Matches_Alt in H. destruct H as [H|H]; [right; eapply two; exact H|].
  apply Matches_Alt in H. destruct H as [H|H]; [|right; eapply two; exact H].
  apply Matches_Sym in H. destruct H as (x & -> & _). left. eauto.
Qed.

(** the format %d/%m/%Y needs a slash as the second or third character *)
Lemma strptime_dmY_slash s x :
  strptime_dmY s = Some x ->
  (exists a rest, s = a :: SLASH :: rest) \/ (exists a b rest, s = a :: b :: SLASH :: rest).
Proof.
  unfold strptime_dmY. intros H.
  apply re_match_sound in H. destruct H as (m1 & s1 & -> & Hd & H).
  apply re_match_sound in H. destruct H as (m2 & s2 & -> & Hs & _).
  apply Matches_Lit in Hs. subst m2.
  apply fmt_d_length in Hd. destruct Hd as [(a & ->) | (a & b & ->)].
  - left. exists a, s2. reflexivity.
  - right. exists a, b, s2. reflexivity.
Qed.

Lemma dashed_date_unparsed s :
  Matches date_dmY_dash s \/ Matches date_Ymd_dash s ->
  to_datetime_dmY (VStr s) = None.
Proof.
  intros H. unfold to_datetime_dmY.
  destruct (strptime_dmY s) as [[[dd mm] yy]|] eqn:E; auto.
  exfalso. apply strptime_dmY_slash in E.
  destruct H as [H|H].
  - apply date_dmY_dash_shape in H.
    destruct H as (a & b & c & d' & e & f & g & h & -> & Ha & Hb).
    destruct E as [(x & rest & E) | (x & y & rest & E)].
    + injection E as _ -> _.
      exact (@digit_not_ascii_other _ SLASH SLASH Hb eq_refl eq_refl eq_refl).
    + discriminate E.
  - apply date_Ymd_dash_shape in H.
    destruct H as (a & b & c & d' & e & f & g & h & -> & Ha & Hb & Hc).
    destruct E as [(x & rest & E) | (x & y & rest & E)].
    + injection E as _ -> _.
      exact (@digit_not_ascii_other _ SLASH SLASH Hb eq_refl eq_refl eq_refl).
    + injection E as _ _ -> _.
      exact (@digit_not_ascii_other _ SLASH SLASH Hc eq_refl eq_refl eq_refl).
Qed.

End C10.

(** C10.  When the text parser returns its table, every record that the line
    loop collected with a date string matched by the DD-MM-YYYY or the
    YYYY-MM-DD pattern is a row of the table whose date is the unparsed-date
    marker NaT: the conversion accepts day/month/year with slashes only. *)
Theorem C10_dashed_dates_unparsed (U : Unicode) (P : Pandas) text transactions df t :
  parse_lines None [] (split_lines text) = Ok transactions ->
  _parse_text_content text = Ok df ->
  In t transactions ->
  fullmatch date_dmY_dash (date t) || fullmatch date_Ymd_dash (date t) = true ->
  exists r, In r (records df) /\
            field (utf8 "date") r = Some (VTime None) /\
            field (utf8 "description") r = Some (VStr (description t)) /\
            field (utf8 "amount") r = Some (amount_value (amount t)) /\
            field (utf8 "type") r = Some (VType (type t)).
Proof.
  rewrite parse_lines_spec, parse_text_content_spec. simpl.
  intros H1 H2 Hin Hd. injection H1 as <-. injection H2 as <-.
  assert (Hd' : Matches date_dmY_dash (date t) \/ Matches date_Ymd_dash (date t)).
  { apply orb_true_iff in Hd. destruct Hd as [Hd|Hd]; apply fullmatch_Matches in Hd; auto. }
  exists (row_of t). split.
  - rewrite records_parsed_frame. apply in_map.
    eapply Permutation_in; [apply Permutation_sym, by_date_perm | exact Hin].
  - unfold row_of, date_key. rewrite (dashed_date_unparsed Hd').
    repeat split; reflexivity.
Qed.

Lemma C10_witness :
  exists r,
    In r (records [ (utf8 "date", [VTime None]);
                    (utf8 "description", [VStr (utf8 "LEVANTAMENTO")]);
                    (utf8 "amount", [VNum (Num (-4500 # 100))]);
                    (utf8 "type", [VType DEBIT]) ]) /\
    field (utf8 "date") r = Some (VTime None) /\
    field (utf8 "description") r = Some (VStr (utf8 "LEVANTAMENTO")) /\
    field (utf8 "amount") r = Some (VNum (Num (-4500 # 100))) /\
    field (utf8 "type") r = Some (VType DEBIT).
Proof.
  apply (@C10_dashed_dates_unparsed Latin1 StringCells
           (utf8 "2024-01-05 LEVANTAMENTO 45,00")
           [ {| date := utf8 "2024-01-05"; description := utf8 "LEVANTAMENTO";
                amount := AFloat (Num (-4500 # 100)); type := DEBIT |} ]
           _
           {| date := utf8 "2024-01-05"; description := utf8 "LEVANTAMENTO";
              amount := AFloat (Num (-4500 # 100)); type := DEBIT |}).
  - vm_compute. reflexivity.
  - vm_compute. reflexivity.
  - left. reflexivity.
  - vm_compute. reflexivity.
Defined.

(** ** C5: rows without a numeric amount *)

(** every column has as many cells as the table has rows *)
Definition rectangular (df : DataFrame) : Prop :=
  forall c, In c df -> List.length (snd c) = nrows df.

Section C5.
Context {U : Unicode} {P : Pandas}.

Lemma take_length (A : Type) (l : list A) rows :
  Permutation rows (seq 0 (List.length l)) -> List.length (take rows l) = List.length l.
Proof. intros H. apply Permutation_length, take_perm, H. Qed.

Lemma series_of_In label df s :
  series_of label df = Ok s -> In (label, s) df.
Proof.
  unfold series_of, getitem.
  destruct (filter (labelled label) df) as [|c [|c' cs]] eqn:E; try discriminate.
  intros H. injection H as <-.
  assert (Hin : In c (filter (labelled label) df)) by (rewrite E; now left).
  apply filter_In in Hin. destruct Hin as [Hin Hl].
  apply labelled_true in Hl. destruct c as [l s]. simpl in *. now subst.
Qed.

Lemma rename_rectangular d raw :
  rectangular raw -> rectangular (rename d raw) /\ nrows (rename d raw) = nrows raw.
Proof.
  intros H.
  assert (N : nrows (rename d raw) = nrows raw).
  { destruct raw as [|[l s] raw]; auto. simpl.
    destruct (dict_get d l); reflexivity. }
  split; auto.
  intros c Hc. rewrite N. unfold rename in Hc. apply in_map_iff in Hc.
  destruct Hc as (c0 & <- & Hc0). rewrite <- (H c0 Hc0).
  destruct (dict_get d (fst c0)); reflexivity.
Qed.

Lemma renamed_rectangular raw df1 :
  renamed raw = Some df1 -> rectangular raw ->
  rectangular df1 /\ nrows df1 = nrows raw.
Proof.
  unfold renamed.
  destruct (matching_columns date_terms raw); [discriminate|].
  destruct (matching_columns amount_terms raw); [discriminate|].
  destruct (matching_columns desc_terms raw); [discriminate|].
  intros H. injection H as <-. apply rename_rectangular.
Qed.

Lemma standardized_rows raw out :
  rectangular raw ->
  _standardize_dataframe raw = Ok out ->
  exists df1 amounts,
    renamed raw = Some df1 /\
    series_of (utf8 "amount") df1 = Ok amounts /\
    List.length amounts = nrows raw /\
    nrows out = nrows raw /\
    Permutation
      (map (fun r => (field (utf8 "amount") r, field (utf8 "type") r)) (records out))
      (map (fun v => (Some (VNum (coerce v)), Some (VType (sign_type (coerce v)))))
           amounts).
Proof.
  intros Hrect. rewrite standardize_spec.
  destruct (renamed raw) as [df1|] eqn:R; [|discriminate].
  destruct (series_of (utf8 "date") df1) as [dates|] eqn:Ed; [|discriminate].
  destruct (series_of (utf8 "amount") df1) as [amounts|] eqn:Ea; [|discriminate].
  cbn [bind]. intros H.
  assert (Eout : out = reordered (argsort (to_datetime dates))
                                 (projected dates amounts df1))
    by (injection H; auto).
  clear H. subst out.
  destruct (renamed_rectangular R Hrect) as [Hrect1 Hn].
  pose proof (Hrect1 _ (series_of_In _ _ Ed)) as Ld.
  pose proof (Hrect1 _ (series_of_In _ _ Ea)) as La.
  cbn [snd] in Ld, La. rewrite Hn in Ld, La.
  set (rows := argsort (to_datetime dates)).
  assert (Hrows : Permutation rows (seq 0 (nrows raw))).
  { unfold rows. rewrite <- Ld, <- (to_datetime_length dates). apply argsort_perm. }
  assert (Hout : nrows (reordered rows (projected dates amounts df1)) = nrows raw).
  { unfold projected, reordered. cbn [map nrows fst snd].
    rewrite take_length; rewrite length_map, to_datetime_length; congruence. }
  exists df1, amounts. split; [auto|]. split; [auto|]. split; [auto|].
  split; [exact Hout|].
  unfold records. rewrite Hout, map_map.
  etransitivity.
  { apply Permutation_refl' , map_ext. intros i.
    destruct (standardized_fields rows dates amounts df1 i) as [E1 E2].
    rewrite E1, E2. reflexivity. }
  set (tn := take rows (map coerce amounts)).
  assert (Ltn : List.length tn = nrows raw).
  { unfold tn. rewrite take_length; rewrite length_map; congruence. }
  rewrite <- Ltn.
  rewrite (map_seq_nth_error
             (fun o => (option_map VNum o,
                        option_map (fun x => VType (sign_type x)) o)) tn).
  cbn [option_map].
  rewrite <- (map_map coerce
                (fun x => (Some (VNum x), Some (VType (sign_type x)))) amounts).
  apply Permutation_map. unfold tn. apply take_perm.
  rewrite length_map, La. exact Hrows.
Qed.

End C5.

(** C5 (amended).  The standardizer drops no row.  For a rectangular table
    that it accepts, the output has as many rows as the input, and the
    (amount, type) pairs of its records are, up to the order of the rows, the
    coerced amount entries of the input, each with the type its sign gives: a
    row whose amount entry does not coerce to a number appears as a record
    with the missing-amount marker NaN and type DEBIT. *)
Theorem C5_rows_are_kept (U : Unicode) (P : Pandas) raw out :
  rectangular raw ->
  _standardize_dataframe raw = Ok out ->
  exists df1 amounts,
    renamed raw = Some df1 /\
    series_of (utf8 "amount") df1 = Ok amounts /\
    nrows out = nrows raw /\
    Permutation
      (map (fun r => (field (utf8 "amount") r, field (utf8 "type") r)) (records out))
      (map (fun v => (Some (VNum (coerce v)), Some (VType (sign_type (coerce v)))))
           amounts) /\
    (forall v, In v amounts -> coerce v = NaN ->
               exists r, In r (records out) /\
                         field (utf8 "amount") r = Some (VNum NaN) /\
                         field (utf8 "type") r = Some (VType DEBIT)).
Proof.
  intros Hrect H.
  destruct (standardized_rows Hrect H) as (df1 & amounts & R & Ea & La & Hn & Hp).
  exists df1, amounts. repeat split; auto.
  intros v Hv Hnan.
  assert (Hin : In (Some (VNum NaN), Some (VType DEBIT))
                   (map (fun v => (Some (VNum (coerce v)),
                                   Some (VType (sign_type (coerce v))))) amounts)).
  { apply in_map_iff. exists v. split; auto. rewrite Hnan. reflexivity. }
  apply (Permutation_in _ (Permutation_sym Hp)) in Hin.
  apply in_map_iff in Hin. destruct Hin as (r & Hr & Hin).
  injection Hr as Hr1 Hr2. eauto.
Qed.

(** C5, as stated, fails: the row whose amount entry is "abc" is a record of
    the output, with its description, the amount NaN and the type DEBIT. *)
Lemma C5_counterexample :
  exists out r,
    _standardize_dataframe statement_with_text_amount = Ok out /\
    In r (records out) /\
    field (utf8 "description") r = Some (VStr (utf8 "Compra")) /\
    field (utf8 "amount") r = Some (VNum NaN).
Proof.
  eexists. eexists. split; [vm_compute; reflexivity|].
  split; [left; reflexivity|]. split; vm_compute; reflexivity.
Qed.

Lemma rectangular_statement : rectangular statement_with_text_amount.
Proof.
  intros c [<- | [<- | [<- | []]]]; reflexivity.
Defined.

Lemma C5_witness :
  exists df1 amounts,
    renamed statement_with_text_amount = Some df1 /\
    series_of (utf8 "amount") df1 = Ok amounts /\
    nrows (reordered [0%nat]
             (four_columns [VTime (Some 19783%Z)] [VStr (utf8 "Compra")]
                           [VNum NaN] [VType DEBIT]))
      = nrows statement_with_text_amount /\
    Permutation
      (map (fun r => (field (utf8 "amount") r, field (utf8 "type") r))
           (records (reordered [0%nat]
                       (four_columns [VTime (Some 19783%Z)] [VStr (utf8 "Compra")]
                                     [VNum NaN] [VType DEBIT]))))
      (map (fun v => (Some (VNum (coerce v)), Some (VType (sign_type (coerce v)))))
           amounts) /\
    (forall v, In v amounts -> coerce v = NaN ->
               exists r, In r (records (reordered [0%nat]
                       (four_columns [VTime (Some 19783%Z)] [VStr (utf8 "Compra")]
                                     [VNum NaN] [VType DEBIT]))) /\
                         field (utf8 "amount") r = Some (VNum NaN) /\
                         field (utf8 "type") r = Some (VType DEBIT)).
Proof.
  apply (@C5_rows_are_kept Latin1 StringCells statement_with_text_amount).
  - exact rectangular_statement.
  - vm_compute. reflexivity.
Defined.

(** ** The shape of the tables *)

Definition canonical_labels (k j : nat) (extra : list pystr) : list pystr :=
  utf8 "date" :: repeat (utf8 "description") k
              ++ utf8 "amount" :: repeat (utf8 "type") j ++ extra.

(** a date column of instants first, then description, amount and type
    columns, then the [extra] ones *)
Definition canonical (extra : list pystr) (df : DataFrame) : Prop :=
  exists times rest k j,
    df = (utf8 "date", map VTime times) :: rest /\
    (1 <= k)%nat /\ (1 <= j)%nat /\
    columns df = canonical_labels k j extra.

Lemma filter_labelled_absent l (df : DataFrame) :
  ~ In l (columns df) -> filter (labelled l) df = [].
Proof.
  induction df as [|c df IH]; simpl; auto. intros H.
  replace (labelled l c) with false.
  - apply IH. tauto.
  - symmetry. apply str_eqb_neq. intros E. apply H. now left.
Qed.

Lemma columns_filter_labelled l (df : DataFrame) :
  columns (filter (labelled l) df) = repeat l (List.length (filter (labelled l) df)).
Proof.
  induction df as [|c df IH]; simpl; auto.
  destruct (labelled l c) eqn:E; auto. simpl. rewrite IH.
  apply labelled_true in E. now rewrite E.
Qed.

Lemma columns_reordered rows df : columns (reordered rows df) = columns df.
Proof. unfold columns, reordered. rewrite map_map. reflexivity. Qed.

Lemma in_canonical_labels l k j extra :
  In l (canonical_labels k j extra) ->
  l = utf8 "date" \/ l = utf8 "description" \/ l = utf8 "amount" \/ l = utf8 "type"
  \/ In l extra.
Proof.
  unfold canonical_labels. intros [H|H]; auto.
  apply in_app_or in H. destruct H as [H|H].
  - apply repeat_spec in H. auto.
  - destruct H as [H|H]; auto.
    apply in_app_or in H. destruct H as [H|H]; auto.
    apply repeat_spec in H. auto.
Qed.

Lemma canonical_date extra df :
  canonical extra df -> ~ In (utf8 "date") extra ->
  exists times, series_of (utf8 "date") df = Ok (map VTime times) /\
                exists rest, df = (utf8 "date", map VTime times) :: rest.
Proof.
  intros (times & rest & k & j & -> & _ & _ & Hc) Hx.
  exists times. split; eauto.
  unfold series_of, getitem. simpl.
  replace (labelled (utf8 "date") (utf8 "date", map VTime times)) with true by reflexivity.
  rewrite filter_labelled_absent; auto.
  simpl in Hc. unfold canonical_labels in Hc. injection Hc as Hc. rewrite Hc.
  intros H. apply in_app_or in H. destruct H as [H|H].
  - apply repeat_spec in H. discriminate.
  - destruct H as [H|H]; [discriminate|].
    apply in_app_or in H. destruct H as [H|H]; auto.
    apply repeat_spec in H. discriminate.
Qed.

Section Shapes.
Context {U : Unicode} {P : Pandas}.

Lemma parsed_frame_shape transactions :
  parsed_frame transactions = [] \/ canonical [] (parsed_frame transactions).
Proof.
  destruct transactions as [|t l]; [now left|right].
  exists (map date_key (t :: l)), (tl (parsed_frame (t :: l))), 1%nat, 1%nat.
  split; [|repeat split; auto].
  unfold parsed_frame. cbn [tl]. rewrite map_map. reflexivity.
Qed.

Lemma parse_text_content_shape text df :
  _parse_text_content text = Ok df -> df = [] \/ canonical [] df.
Proof.
  rewrite parse_text_content_spec. intros H. injection H as <-.
  apply parsed_frame_shape.
Qed.

Lemma standardize_shape raw df :
  _standardize_dataframe raw = Ok df -> canonical [] df.
Proof.
  rewrite standardize_spec.
  destruct (renamed raw) as [df1|] eqn:R; [|discriminate].
  destruct (series_of (utf8 "date") df1) as [dates|]; [|discriminate].
  destruct (series_of (utf8 "amount") df1) as [amounts|]; [|discriminate].
  cbn [bind]. intros H.
  assert (E : df = reordered (argsort (to_datetime dates)) (projected dates amounts df1))
    by (injection H; auto).
  clear H. subst df.
  set (rows := argsort (to_datetime dates)).
  exists (take rows (to_datetime dates)),
         (tl (reordered rows (projected dates amounts df1))),
         (List.length (filter (labelled (utf8 "description")) df1)),
         (Nat.max 1 (List.length (filter (labelled (utf8 "type")) df1))).
  split; [|split; [|split]].
  - unfold projected, reordered. cbn [map tl fst snd]. now rewrite take_map.
  - pose proof (renamed_has_description _ R) as H.
    destruct (filter (labelled (utf8 "description")) df1); [congruence|]. simpl. lia.
  - lia.
  - rewrite columns_reordered. unfold projected, columns, canonical_labels.
    cbn [map fst]. rewrite map_app. cbn [map fst].
    fold (columns (filter (labelled (utf8 "description")) df1)).
    rewrite columns_filter_labelled, map_repeat, app_nil_r. reflexivity.
Qed.

End Shapes.

(** ** The directory aggregator *)

Section Batch.
Context {U : Unicode} {P : Pandas} {W : World}.

Lemma try_encodings_raise file_path encs e :
  try_encodings file_path encs = Raise e -> e = UnrecodableFile.
Proof.
  induction encs as [|enc rest IH]; simpl.
  - intros H. now injection H.
  - destruct (bind _ _); [discriminate|]. exact IH.
Qed.

Lemma try_encodings_ok file_path encs df :
  try_encodings file_path encs = Ok df ->
  exists enc raw, In enc encs /\ read_csv file_path enc = Ok raw /\
                  _standardize_dataframe raw = Ok df.
Proof.
  induction encs as [|enc rest IH]; simpl; [discriminate|].
  destruct (read_csv file_path enc) as [raw|] eqn:R; simpl.
  - destruct (_standardize_dataframe raw) as [out|] eqn:S.
    + intros H. injection H as <-. exists enc, raw. auto.
    + intros H. apply IH in H. destruct H as (enc' & raw' & H1 & H2 & H3).
      exists enc', raw'. auto.
  - intros H. apply IH in H. destruct H as (enc' & raw' & H1 & H2 & H3).
    exists enc', raw'. auto.
Qed.

Lemma process_pdf_shape file_path df :
  _process_pdf file_path = Ok df -> df = [] \/ canonical [] df.
Proof.
  unfold _process_pdf.
  destruct (pdf_pages file_path) as [pages|]; cbn [bind].
  - destruct (filter nonempty pages) as [|p ps].
    + destruct (ocr_pages file_path); cbn [bind]; [|discriminate].
      apply parse_text_content_shape.
    + rewrite parse_text_content_spec. cbn [bind].
      intros H. injection H as <-. apply parsed_frame_shape.
  - destruct (ocr_pages file_path); cbn [bind]; [|discriminate].
    apply parse_text_content_shape.
Qed.

Lemma process_statement_shape self file_path df :
  process_statement self file_path = Ok (Some df) -> df = [] \/ canonical [] df.
Proof.
  unfold process_statement.
  destruct (negb (path_exists file_path)); [discriminate|].
  destruct (negb (member _ (supported_extensions self))); [discriminate|].
  destruct (str_eqb _ (utf8 ".pdf")).
  { destruct (_process_pdf file_path) eqn:E; cbn [bind]; [|discriminate].
    intros H. injection H as <-. now apply process_pdf_shape in E. }
  destruct (str_eqb _ (utf8 ".csv")).
  { destruct (_process_csv file_path) eqn:E; cbn [bind]; [|discriminate].
    intros H. injection H as <-. right.
    apply try_encodings_ok in E. destruct E as (enc & raw & _ & _ & E).
    now apply standardize_shape in E. }
  destruct (member _ _); [|discriminate].
  unfold _process_excel.
  destruct (read_excel file_path) as [raw|]; cbn [bind]; [|discriminate].
  destruct (_standardize_dataframe raw) eqn:E; cbn [bind]; [|discriminate].
  intros H. injection H as <-. right. now apply standardize_shape in E.
Qed.

Lemma canonical_with_source df s :
  canonical [] df -> canonical [utf8 "source_file"] (setitem (utf8 "source_file") s df).
Proof.
  intros (times & rest & k & j & -> & Hk & Hj & Hc).
  assert (Habs : existsb (labelled (utf8 "source_file"))
                   ((utf8 "date", map VTime times) :: rest) = false).
  { destruct (existsb _ _) eqn:E; auto. exfalso.
    apply existsb_exists in E. destruct E as (c & Hin & Hl).
    apply labelled_true in Hl.
    assert (In (fst c) (columns ((utf8 "date", map VTime times) :: rest)))
      by (unfold columns; now apply in_map).
    rewrite Hc, Hl in H. apply in_canonical_labels in H.
    destruct H as [H|[H|[H|[H|[]]]]]; discriminate. }
  unfold setitem. rewrite Habs.
  exists times, (rest ++ [(utf8 "source_file", s)]), k, j.
  repeat split; auto.
  unfold columns in *. rewrite map_app, Hc. unfold canonical_labels.
  cbn [map fst app]. rewrite <- !app_assoc. cbn [app].
  rewrite app_nil_r. reflexivity.
Qed.

Lemma contribution_shape self file_path c :
  In c (contribution self file_path) -> canonical [utf8 "source_file"] c.
Proof.
  unfold contribution.
  destruct (member _ _); [|contradiction].
  destruct (process_statement self file_path) as [[df|]|] eqn:E; try contradiction.
  destruct (negb (empty df)) eqn:Em; [|contradiction].
  intros [<- | []]. apply canonical_with_source.
  apply process_statement_shape in E. destruct E as [-> | E]; auto. discriminate.
Qed.

End Batch.

(** *** Stacking tables of one shape *)

Lemma list_eqb_eq a : forall b, list_eqb a b = true <-> a = b.
Proof.
  induction a as [|x a IH]; intros [|y b]; simpl; split; try discriminate; auto.
  - intros H. apply andb_true_iff in H. destruct H as [H1 H2].
    apply str_eqb_eq in H1. apply IH in H2. now subst.
  - intros H. injection H as -> ->. apply andb_true_iff. split.
    + apply str_eqb_refl.
    + now apply IH.
Qed.

Lemma stack_columns : forall top bottom,
  columns bottom = columns top -> columns (stack top bottom) = columns top.
Proof.
  induction top as [|[l s] top IH]; intros [|[l' s'] bottom] H; simpl in *;
    try discriminate; auto.
  injection H as _ H. rewrite IH; auto.
Qed.

Lemma stack_canonical extra top bottom :
  canonical extra top -> canonical extra bottom ->
  columns bottom = columns top -> canonical extra (stack top bottom).
Proof.
  intros (t1 & r1 & k & j & -> & Hk & Hj & Hc) (t2 & r2 & k' & j' & -> & _ & _ & _) E.
  exists (t1 ++ t2), (stack r1 r2), k, j. repeat split; auto.
  - simpl. now rewrite map_app.
  - rewrite <- Hc. apply (stack_columns _ _ E).
Qed.

Lemma fold_stack_canonical extra others : forall first,
  canonical extra first ->
  Forall (canonical extra) others ->
  forallb (fun df => list_eqb (columns df) (columns first)) others = true ->
  canonical extra (fold_left stack others first) /\
  columns (fold_left stack others first) = columns first.
Proof.
  induction others as [|df others IH]; intros first Hf Ho Hc; simpl in *; auto.
  apply andb_true_iff in Hc. destruct Hc as [Hc1 Hc2]. apply list_eqb_eq in Hc1.
  apply Forall_cons_iff in Ho. destruct Ho as [Hdf Ho].
  assert (Hs : columns (stack first df) = columns first) by now apply stack_columns.
  destruct (IH (stack first df)) as [G1 G2]; auto.
  - now apply stack_canonical.
  - rewrite Hs. exact Hc2.
  - split; auto. congruence.
Qed.

Lemma has_duplicates_repeat l n : (2 <= n)%nat -> has_duplicates (repeat l n) = true.
Proof.
  destruct n as [|[|n]]; try lia. intros _. simpl. now rewrite str_eqb_refl.
Qed.

Lemma has_duplicates_app a b :
  has_duplicates a = true \/ has_duplicates b = true -> has_duplicates (a ++ b) = true.
Proof.
  induction a as [|x a IH]; simpl; intros [H|H]; try discriminate; auto.
  - apply orb_true_iff in H. apply orb_true_iff. destruct H as [H|H].
    + left. rewrite existsb_app, H. reflexivity.
    + right. auto.
  - apply orb_true_iff. right. auto.
Qed.

(** tables of the canonical shape without a repeated label have the same
    labels *)
Lemma canonical_unique_labels extra df :
  canonical extra df -> has_duplicates (columns df) = false ->
  columns df = canonical_labels 1 1 extra.
Proof.
  intros (times & rest & k & j & -> & Hk & Hj & Hc) Hd. rewrite Hc in *.
  assert (k = 1%nat).
  { destruct (Nat.le_gt_cases k 1); [lia|]. exfalso.
    unfold canonical_labels in Hd. simpl in Hd. apply orb_false_iff in Hd.
    destruct Hd as [_ Hd].
    rewrite has_duplicates_app in Hd; [discriminate|].
    left. apply has_duplicates_repeat. lia. }
  assert (j = 1%nat).
  { destruct (Nat.le_gt_cases j 1); [lia|]. exfalso.
    unfold canonical_labels in Hd. simpl in Hd. apply orb_false_iff in Hd.
    destruct Hd as [_ Hd].
    rewrite has_duplicates_app in Hd; [discriminate|].
    right. simpl. apply orb_true_iff. right.
    apply has_duplicates_app. left. apply has_duplicates_repeat. lia. }
  now subst.
Qed.

(** Concatenating tables of the canonical shape either succeeds with a table
    of that shape, or fails because two of them differ in their labels. *)
Lemma concat_canonical extra first others :
  canonical extra first -> Forall (canonical extra) others ->
  (forallb (fun df => list_eqb (columns df) (columns first)) others = true /\
   exists out, concat (first :: others) = Ok out /\ canonical extra out) \/
  (forallb (fun df => list_eqb (columns df) (columns first)) others = false /\
   concat (first :: others) = Raise InvalidIndexError).
Proof.
  intros Hf Ho. unfold concat.
  destruct (forallb _ others) eqn:E.
  - left. split; auto. eexists. split; [reflexivity|].
    now apply fold_stack_canonical.
  - right. split; auto.
    destruct (existsb _ (first :: others)) eqn:D; auto. exfalso.
    assert (Hall : forall df, In df (first :: others) ->
                              columns df = canonical_labels 1 1 extra).
    { intros df Hin. apply canonical_unique_labels.
      - destruct Hin as [<- | Hin]; auto.
        rewrite Forall_forall in Ho. auto.
      - destruct (has_duplicates (columns df)) eqn:Hd; auto.
        assert (existsb (fun df => has_duplicates (columns df)) (first :: others) = true)
          by (apply existsb_exists; eauto).
        congruence. }
    assert (forallb (fun df => list_eqb (columns df) (columns first)) others = true).
    { apply forallb_forall. intros df Hin. apply list_eqb_eq.
      rewrite (Hall df) by now right. rewrite (Hall first) by now left. reflexivity. }
    congruence.
Qed.

(** ** C7: the order of the output *)

(** non-decreasing instants, and no instant after a NaT *)
Definition in_date_order (times : list (option Z)) : Prop :=
  forall i j a b,
    (i < j)%nat -> nth_error times i = Some a -> nth_error times j = Some b ->
    match a, b with
    | Some x, Some y => (x <= y)%Z
    | None, Some _ => False
    | _, None => True
    end.

(** an empty table, or a table whose one date column holds instants and NaT
    in date order *)
Definition date_ordered (df : DataFrame) : Prop :=
  df = [] \/
  exists times, series_of (utf8 "date") df = Ok (map VTime times) /\ in_date_order times.

Lemma ascending_in_date_order times : ascending times -> in_date_order times.
Proof.
  unfold ascending. induction 1 as [|a l Hs IH Ha]; intros i j x y Hij Hi Hj.
  - destruct i; discriminate.
  - destruct j as [|j]; [lia|]. simpl in Hj.
    destruct i as [|i]; simpl in Hi.
    + injection Hi as <-. apply nth_error_In in Hj.
      rewrite Forall_forall in Ha. specialize (Ha _ Hj). unfold key_leP in Ha.
      destruct a, y; simpl in Ha; try discriminate; auto. now apply Z.leb_le.
    + apply (IH i j); auto. lia.
Qed.

Lemma take_argsort_times times : ascending (take (argsort times) times).
Proof.
  pose proof (take_argsort_ascending (map VTime times)) as H.
  now rewrite map_sort_key_VTime, take_map, map_sort_key_VTime in H.
Qed.

Lemma map_VTime_inj a : forall b, map VTime a = map VTime b -> a = b.
Proof.
  induction a as [|x a IH]; intros [|y b] H; try discriminate; auto.
  injection H as -> H. f_equal. auto.
Qed.

(** Sorting a table of the canonical shape by date succeeds and leaves it in
    date order. *)
Lemma sort_values_canonical extra df :
  canonical extra df -> ~ In (utf8 "date") extra ->
  exists out, sort_values (utf8 "date") df = Ok out /\ date_ordered out.
Proof.
  intros Hc Hx. destruct (canonical_date Hc Hx) as (times & Hs & _).
  destruct (sort_values_spec _ _ Hs) as [E1 E2]. cbv zeta in E1, E2.
  rewrite map_sort_key_VTime in E1, E2. rewrite take_map in E2.
  eexists. split; [exact E1|]. right.
  exists (take (argsort times) times). split; [exact E2|].
  apply ascending_in_date_order, take_argsort_times.
Qed.

Section C7.
Context {U : Unicode} {P : Pandas}.

Lemma text_date_ordered text df :
  _parse_text_content text = Ok df -> date_ordered df.
Proof.
  rewrite parse_text_content_spec. intros H. injection H as <-.
  destruct (by_date (collected None (split_lines text))) as [|t l] eqn:E;
    [now left|right].
  exists (map date_key (t :: l)). split.
  - rewrite map_map. reflexivity.
  - apply ascending_in_date_order. rewrite <- E. apply by_date_ascending.
Qed.

Lemma tabular_date_ordered raw df :
  _standardize_dataframe raw = Ok df -> date_ordered df.
Proof.
  intros H. pose proof (standardize_shape _ H) as Hc.
  rewrite standardize_spec in H.
  destruct (renamed raw) as [df1|]; [|discriminate].
  destruct (series_of (utf8 "date") df1) as [dates|]; [|discriminate].
  destruct (series_of (utf8 "amount") df1) as [amounts|]; [|discriminate].
  cbn [bind] in H.
  assert (E : df = reordered (argsort (to_datetime dates)) (projected dates amounts df1))
    by (injection H; auto).
  clear H.
  destruct (canonical_date Hc (fun x => x)) as (times & Hs & rest & Hdf).
  right. exists times. split; auto.
  assert (Et : times = take (argsort (to_datetime dates)) (to_datetime dates)).
  { rewrite Hdf in E. unfold projected, reordered in E. cbn [map fst snd] in E.
    injection E as E _. rewrite take_map in E. now apply map_VTime_inj. }
  rewrite Et. apply ascending_in_date_order, take_argsort_times.
Qed.

End C7.

Lemma forallb_false (A : Type) (f : A -> bool) l :
  forallb f l = false -> exists x, In x l /\ f x = false.
Proof.
  induction l as [|a l IH]; simpl; [discriminate|].
  destruct (f a) eqn:E; simpl.
  - intros H. destruct (IH H) as (x & Hx & Hf). eauto.
  - intros _. eauto.
Qed.

Section BatchFacts.
Context {U : Unicode} {P : Pandas} {W : World}.

(** the directory that [process_directory] works on *)
Definition chosen_directory (self : BankStatementProcessor)
    (directory : option pystr) : option pystr :=
  if truthy directory then directory else input_dir self.

(** Merging the contributions of a directory: the result, or the failure of
    [pd.concat] on contributions whose labels differ. *)
Lemma merge_contributions self dir :
  let all_transactions := flat_map (contribution self) (glob dir) in
  (all_transactions = [] \/
   (forall df1 df2, In df1 all_transactions -> In df2 all_transactions ->
                    columns df1 = columns df2)) /\
  (exists out,
      match all_transactions with
      | [] => Ok []
      | _ => result <- concat all_transactions ;; sort_values (utf8 "date") result
      end = Ok out /\ date_ordered out)
  \/
  (exists df1 df2, In df1 all_transactions /\ In df2 all_transactions /\
                   columns df1 <> columns df2) /\
  match all_transactions with
  | [] => Ok []
  | _ => result <- concat all_transactions ;; sort_values (utf8 "date") result
  end = Raise InvalidIndexError.
Proof.
  intros all_transactions.
  assert (Hall : Forall (canonical [utf8 "source_file"]) all_transactions).
  { apply Forall_forall. intros c Hc. unfold all_transactions in Hc.
    apply in_flat_map in Hc. destruct Hc as (p & _ & Hc).
    eapply contribution_shape; eauto. }
  destruct all_transactions as [|first others].
  - left. split; auto. exists []. split; auto. now left.
  - apply Forall_cons_iff in Hall. destruct Hall as [Hf Ho].
    destruct (concat_canonical Hf Ho) as [[Hc (out & Hout & Hcan)] | [Hc Hraise]].
    + left. split.
      * right. intros df1 df2 H1 H2.
        assert (G : forall df, In df (first :: others) -> columns df = columns first).
        { intros df [<- | Hin]; auto.
          rewrite forallb_forall in Hc. now apply list_eqb_eq, Hc. }
        rewrite (G df1 H1), (G df2 H2). reflexivity.
      * rewrite Hout. cbn [bind].
        apply (sort_values_canonical Hcan). intros [H|[]]. discriminate.
    + right. split.
      * apply forallb_false in Hc. destruct Hc as (df & Hin & Hne).
        exists df, first. repeat split; [now right | now left |].
        intros E. apply list_eqb_eq in E. congruence.
      * rewrite Hraise. reflexivity.
Qed.

End BatchFacts.

(** C7.  Whenever the text parser, the tabular standardizer or the directory
    aggregator returns a table, the table is empty or its date column is in
    date order: the dates never decrease from one row to the next, and no row
    with a parsed date comes after a row with the unparsed-date marker. *)
Theorem C7_output_sorted_by_date (U : Unicode) (P : Pandas) (W : World) :
  (forall text df, _parse_text_content text = Ok df -> date_ordered df) /\
  (forall raw df, _standardize_dataframe raw = Ok df -> date_ordered df) /\
  (forall self directory df,
      process_directory self directory = Ok df -> date_ordered df).
Proof.
  split; [|split].
  - apply text_date_ordered.
  - apply tabular_date_ordered.
  - intros self directory df. unfold process_directory.
    destruct (if truthy directory then directory else input_dir self) as [dir|];
      [|discriminate].
    pose proof (merge_contributions self dir) as M. cbv zeta in M |- *.
    destruct M as [[_ (out & Hout & Hord)] | [_ Hraise]].
    + intros H. pose proof (eq_trans (eq_sym Hout) H) as E.
      injection E as <-. exact Hord.
    + intros H. discriminate (eq_trans (eq_sym Hraise) H).
Qed.

Lemma C7_witness :
  date_ordered
    [ (utf8 "date", [VTime (Some 19784%Z); VTime (Some 19785%Z); VTime None]);
      (utf8 "description",
       [VStr (utf8 "TRANSFERÊNCIA RECEBIDA"); VStr (utf8 "PAGAMENTO SERVIÇO");
        VStr (utf8 "LEVANTAMENTO")]);
      (utf8 "amount",
       [VNum (Num (10000 # 100)); VNum (Num (-2000 # 100)); VNum (Num (-4500 # 100))]);
      (utf8 "type", [VType CREDIT; VType DEBIT; VType DEBIT]) ].
Proof.
  apply (proj1 (C7_output_sorted_by_date Latin1 StringCells (folder_world []))
               sample_text).
  vm_compute. reflexivity.
Defined.

(** ** C3: fault isolation in the directory aggregator *)

(** two statements of one directory; the second has a column "description"
    besides the column "Descricao" that is renamed to it *)
Definition plain_statement : DataFrame :=
  table [ ("Data", ["01/03/2024"]); ("Valor", ["-45,67"]); ("Descricao", ["COMPRA"]) ]%string.

Definition statement_with_two_descriptions : DataFrame :=
  table [ ("Descricao", ["DEPOSITO"]); ("description", ["balcao"]);
          ("Data", ["02/03/2024"]); ("Valor", ["100,00"]) ]%string.

Definition two_statements : Folder :=
  [ (utf8 "a.csv", CsvFile (fun _ => Ok plain_statement));
    (utf8 "b.csv", CsvFile (fun _ => Ok statement_with_two_descriptions)) ].

(** C3 (the code at the claim's inputs).  [process_directory] catches every
    error raised while processing an individual file and treats that file as
    a zero-row contribution; it raises NoDirectorySpecified exactly when no
    directory is available; with a directory, it returns the empty table
    when no file contributes.  The batch call fails all the same for the
    directory [two_statements]: both files are processed without error, and
    the call raises the error of [pd.concat], which runs after the loop,
    outside its try block. *)
Theorem C3_batch_fault_isolation :
  (forall (U : Unicode) (P : Pandas) (W : World)
          (self : BankStatementProcessor) (directory : option pystr),
      (forall file_path e,
          process_statement self file_path = Raise e ->
          contribution self file_path = []) /\
      (process_directory self directory = Raise NoDirectorySpecified <->
       chosen_directory self directory = None) /\
      (forall dir,
          chosen_directory self directory = Some dir ->
          flat_map (contribution self) (glob dir) = [] ->
          process_directory self directory = Ok [])) /\
  (let W := folder_world two_statements in
   let self := __init__ None in
   (exists df, process_statement self (utf8 "a.csv") = Ok (Some df)) /\
   (exists df, process_statement self (utf8 "b.csv") = Ok (Some df)) /\
   process_directory self (Some (utf8 "extratos")) = Raise InvalidIndexError).
Proof.
  split.
  - intros U P W self directory. split; [|split].
    + intros file_path e H. unfold contribution. rewrite H.
      now destruct (member _ _).
    + unfold process_directory, chosen_directory.
      destruct (if truthy directory then directory else input_dir self) as [dir|];
        [|tauto].
      split; [|discriminate]. intros H. exfalso.
      pose proof (merge_contributions self dir) as M. cbv zeta in M, H.
      destruct M as [[_ (out & Hout & _)] | [_ Hraise]].
      * discriminate (eq_trans (eq_sym Hout) H).
      * discriminate (eq_trans (eq_sym Hraise) H).
    + intros dir Hdir Hnone.
      unfold process_directory, chosen_directory in *. rewrite Hdir. cbv zeta.
      rewrite Hnone. reflexivity.
  - cbv zeta. split; [|split].
    + eexists. vm_compute. reflexivity.
    + eexists. vm_compute. reflexivity.
    + vm_compute. reflexivity.
Qed.

(** a directory with a statement and a file that cannot be read *)
Definition statement_and_corrupt_file : Folder :=
  [ (utf8 "a.csv", CsvFile (fun _ => Ok plain_statement));
    (utf8 "b.pdf", PdfFile (Raise (External 7)) (Raise (External 8))) ].

Lemma C3_witness :
  contribution (W := folder_world statement_and_corrupt_file)
               (__init__ None) (utf8 "b.pdf") = [].
Proof.
  apply (proj1 (proj1 C3_batch_fault_isolation Latin1 StringCells
                  (folder_world statement_and_corrupt_file)
                  (__init__ None) (Some (utf8 "extratos")))
               (utf8 "b.pdf") (External 8)).
  vm_compute. reflexivity.
Defined.

(** ** C6: a delimited-text file without the required columns *)

(** a table without a date column, as a delimited-text file and as a
    spreadsheet *)
Definition statement_without_date : Folder :=
  [ (utf8 "extrato.csv",
     CsvFile (fun _ => Ok (table [ ("Valor", ["-45,67"]);
                                   ("Descricao", ["COMPRA"]) ]%string)));
    (utf8 "extrato.xlsx",
     ExcelFile (Ok (table [ ("Valor", ["-45,67"]);
                            ("Descricao", ["COMPRA"]) ]%string))) ].

(** C6 (the code at the claim's inputs).  For a .csv input the error of the
    standardizer does not reach the caller: it is caught in the encoding
    loop of [_process_csv], which goes on to the next candidate and raises
    UnrecodableFile when none is left.  The file "extrato.csv" of
    [statement_without_date] decodes, the standardizer reports
    MissingColumns for its table, and the caller gets UnrecodableFile; for
    the same table in the spreadsheet "extrato.xlsx" the caller gets
    MissingColumns. *)
Theorem C6_missing_columns_in_csv :
  (forall (U : Unicode) (P : Pandas) (W : World)
          (self : BankStatementProcessor) (file_path : pystr),
      path_exists file_path = true ->
      str_lower (suffix file_path) = utf8 ".csv" ->
      member (utf8 ".csv") (supported_extensions self) = true ->
      (forall e, process_statement self file_path = Raise e -> e = UnrecodableFile) /\
      ((forall enc df, In enc encodings -> read_csv file_path enc = Ok df ->
                       _standardize_dataframe df = Raise MissingColumns) ->
       process_statement self file_path = Raise UnrecodableFile)) /\
  (let W := folder_world statement_without_date in
   let self := __init__ None in
   exists df,
     read_csv (utf8 "extrato.csv") utf_8 = Ok df /\
     read_excel (utf8 "extrato.xlsx") = Ok df /\
     _standardize_dataframe df = Raise MissingColumns /\
     process_statement self (utf8 "extrato.csv") = Raise UnrecodableFile /\
     process_statement self (utf8 "extrato.xlsx") = Raise MissingColumns).
Proof.
  split.
  - intros U P W self file_path Hex Hsuf Hsup. unfold process_statement.
    rewrite Hex, Hsuf, Hsup. cbn [negb].
    replace (str_eqb (utf8 ".csv") (utf8 ".pdf")) with false by reflexivity.
    replace (str_eqb (utf8 ".csv") (utf8 ".csv")) with true by reflexivity.
    unfold _process_csv. split.
    + intros e. destruct (try_encodings file_path encodings) eqn:E; cbn [bind];
        [discriminate|].
      intros H. injection H as <-. eapply try_encodings_raise; eauto.
    + intros Hall.
      assert (G : forall encs, (forall enc, In enc encs -> In enc encodings) ->
                               try_encodings file_path encs = Raise UnrecodableFile).
      { induction encs as [|enc rest IH]; intros Hsub; simpl; auto.
        destruct (read_csv file_path enc) as [df|] eqn:R; cbn [bind].
        - rewrite (Hall enc df (Hsub enc (or_introl eq_refl)) R).
          apply IH. intros enc' H. apply Hsub. now right.
        - apply IH. intros enc' H. apply Hsub. now right. }
      rewrite G; auto.
  - cbv zeta. eexists. split; [vm_compute; reflexivity|].
    repeat split; vm_compute; reflexivity.
Qed.

Lemma C6_witness :
  (forall e,
      process_statement (W := folder_world statement_without_date)
                        (__init__ None) (utf8 "extrato.csv") = Raise e ->
      e = UnrecodableFile) /\
  ((forall enc df, In enc encodings ->
                   read_csv (World := folder_world statement_without_date)
                            (utf8 "extrato.csv") enc = Ok df ->
                   _standardize_dataframe df = Raise MissingColumns) ->
   process_statement (W := folder_world statement_without_date)
                     (__init__ None) (utf8 "extrato.csv") = Raise UnrecodableFile).
Proof.
  apply (proj1 C6_missing_columns_in_csv Latin1 StringCells
           (folder_world statement_without_date) (__init__ None)
           (utf8 "extrato.csv")); vm_compute; reflexivity.
Defined.

(** ** C8: column resolution *)



Section C8.
Context {U : Unicode} {P : Pandas}.





(** the one column of [df] whose header matches a field *)
Definition only_match (terms : list pystr) (df : DataFrame) (c : pystr * Series) : Prop :=
  exists pre post,
    df = pre ++ c :: post /\ matches_terms terms (fst c) = true /\
    Forall (fun c' => matches_terms terms (fst c') = false) (pre ++ post).

Lemma filter_none (A : Type) (f : A -> bool) l :
  Forall (fun x => f x = false) l -> filter f l = [].
Proof. induction 1 as [|x l Hx _ IH]; simpl; auto. now rewrite Hx. Qed.



Lemma only_match_columns terms raw c :
  only_match terms raw c -> matching_columns terms raw = [fst c].
Proof.
  intros (pre & post & -> & Hc & H). apply Forall_app in H. destruct H as [H1 H2].
  unfold matching_columns, columns. rewrite map_app, filter_app. cbn [map filter].
  rewrite Hc, !filter_none; auto; now apply Forall_map.
Qed.





Variables hd ha hs : pystr.
Hypothesis hd_ha : hd <> ha.
Hypothesis hd_hs : hd <> hs.
Hypothesis ha_hs : ha <> hs.

Let d := [ (hd, utf8 "date"); (ha, utf8 "amount"); (hs, utf8 "description") ].





















End C8.

Section C8Resolved.
Context {U : Unicode} {P : Pandas}.



End C8Resolved.









(** * Further properties *)

(** ** The single-document entry point *)

Section Dispatch.
Context {U : Unicode} {P : Pandas} {W : World}.

(** the four extensions of [supported_extensions] *)
Definition known_extension (extension : pystr) : bool :=
  member extension (map utf8 [".pdf"; ".csv"; ".xlsx"; ".xls"]%string).

(** X1.  [process_statement] of a processor made by [__init__] returns only
    for a path that exists and whose lower-cased suffix is one of .pdf, .csv,
    .xlsx and .xls, and what it returns is a table, never [None]: the chain
    of extension tests covers the whole of [supported_extensions]. *)
Theorem X1_process_statement_returns_a_table input_dir file_path r :
  process_statement (__init__ input_dir) file_path = Ok r ->
  path_exists file_path = true /\
  known_extension (str_lower (suffix file_path)) = true /\
  exists df, r = Some df.
Proof.
  unfold process_statement, known_extension.
  destruct (path_exists file_path); [|discriminate].
  cbn [negb __init__ supported_extensions map member existsb].
  set (extension := str_lower (suffix file_path)).
  destruct (str_eqb extension (utf8 ".pdf")) eqn:E1; cbn [orb negb].
  { destruct (_process_pdf file_path); cbn [bind]; [|discriminate].
    intros H. injection H as <-. eauto. }
  destruct (str_eqb extension (utf8 ".csv")) eqn:E2; cbn [orb negb].
  { destruct (_process_csv file_path); cbn [bind]; [|discriminate].
    intros H. injection H as <-. eauto. }
  destruct (str_eqb extension (utf8 ".xlsx")) eqn:E3; cbn [orb negb].
  { destruct (_process_excel file_path); cbn [bind]; [|discriminate].
    intros H. injection H as <-. eauto. }
  destruct (str_eqb extension (utf8 ".xls")) eqn:E4; cbn [orb negb]; [|discriminate].
  destruct (_process_excel file_path); cbn [bind]; [|discriminate].
  intros H. injection H as <-. eauto.
Qed.

End Dispatch.

Definition plain_statement_standardized : DataFrame :=
  Eval vm_compute in
    match @_standardize_dataframe Latin1 StringCells plain_statement with
    | Ok out => out
    | Raise _ => []
    end.

Lemma X1_witness :
  @path_exists (folder_world two_statements) (utf8 "a.csv") = true /\
  known_extension (@str_lower Latin1 (@suffix (folder_world two_statements) (utf8 "a.csv")))
    = true /\
  exists df, Some plain_statement_standardized = Some df.
Proof.
  apply (@X1_process_statement_returns_a_table Latin1 StringCells
           (folder_world two_statements) None (utf8 "a.csv")).
  vm_compute. reflexivity.
Defined.

(** ** The PDF path *)

Section Pdf.
Context {U : Unicode} {P : Pandas} {W : World}.

(** the text layer that [_process_pdf] parses, when there is one *)
Definition text_layer (file_path : pystr) : option (list pystr) :=
  match pdf_pages file_path with
  | Ok pages => match filter nonempty pages with
                | [] => None
                | all_text => Some all_text
                end
  | Raise _ => None
  end.

Lemma process_pdf_cases file_path :
  _process_pdf file_path =
  match text_layer file_path with
  | Some all_text => _parse_text_content (join_lines all_text)
  | None => text_content <- ocr_pages file_path ;;
            _parse_text_content (join_lines text_content)
  end.
Proof.
  unfold _process_pdf, text_layer.
  destruct (pdf_pages file_path) as [pages|e]; cbn [bind]; auto.
  destruct (filter nonempty pages) as [|p ps]; auto.
  rewrite parse_text_content_spec. reflexivity.
Qed.

(** X2.  When pdfplumber returns the pages of a document and at least one
    page has text, [_process_pdf] returns the table parsed from the
    non-empty page texts joined by newlines; the OCR is not consulted, and
    the call does not fail. *)
Theorem X2_text_layer_is_preferred file_path pages :
  pdf_pages file_path = Ok pages ->
  existsb nonempty pages = true ->
  _process_pdf file_path = _parse_text_content (join_lines (filter nonempty pages)) /\
  exists df, _process_pdf file_path = Ok df.
Proof.
  intros Hp Hne. rewrite process_pdf_cases. unfold text_layer. rewrite Hp.
  destruct (filter nonempty pages) as [|p ps] eqn:E.
  - exfalso. apply existsb_exists in Hne. destruct Hne as (x & Hx & Hn).
    assert (In x (filter nonempty pages)) by (apply filter_In; auto).
    rewrite E in H. contradiction.
  - split; auto. rewrite parse_text_content_spec. eauto.
Qed.

(** X3.  [_process_pdf] fails exactly when the document has no text layer
    (pdfplumber failed, or no page has text) and the OCR fails, and then with
    the error of the OCR: an error of pdfplumber never reaches the caller. *)
Theorem X3_pdf_fails_with_the_ocr_error file_path e :
  _process_pdf file_path = Raise e <->
  text_layer file_path = None /\ ocr_pages file_path = Raise e.
Proof.
  rewrite process_pdf_cases.
  destruct (text_layer file_path) as [all_text|].
  - rewrite parse_text_content_spec. split; [discriminate|]. intros [H _]. discriminate.
  - destruct (ocr_pages file_path) as [text_content|e']; cbn [bind].
    + rewrite parse_text_content_spec. split; [discriminate|]. intros [_ H]. discriminate.
    + split.
      * intros H. injection H as ->. auto.
      * intros [_ H]. injection H as ->. reflexivity.
Qed.

End Pdf.

(** a document with a text layer on its second page and no usable OCR, and a
    document that neither pdfplumber nor the OCR can read *)
Definition two_documents : Folder :=
  [ (utf8 "s.pdf", PdfFile (Ok [utf8 ""; utf8 "03/03/2024 COMPRA 5,00"])
                           (Raise (External 7)));
    (utf8 "broken.pdf", PdfFile (Raise (External 5)) (Raise (External 7))) ].

Lemma X2_witness :
  @_process_pdf Latin1 StringCells (folder_world two_documents) (utf8 "s.pdf")
  = @_parse_text_content Latin1 StringCells
      (join_lines (filter nonempty [utf8 ""; utf8 "03/03/2024 COMPRA 5,00"])) /\
  exists df, @_process_pdf Latin1 StringCells (folder_world two_documents) (utf8 "s.pdf")
             = Ok df.
Proof.
  apply (@X2_text_layer_is_preferred Latin1 StringCells (folder_world two_documents));
    reflexivity.
Defined.

Lemma X3_witness :
  @_process_pdf Latin1 StringCells (folder_world two_documents) (utf8 "broken.pdf")
  = Raise (External 7).
Proof.
  apply (proj2 (@X3_pdf_fails_with_the_ocr_error Latin1 StringCells
                  (folder_world two_documents) (utf8 "broken.pdf") (External 7))).
  split; reflexivity.
Defined.

(** ** Pages and lines *)

Lemma split_lines_not_nil s : split_lines s <> [].
Proof.
  destruct s as [|c s]; simpl; [discriminate|].
  destruct (char_eqb c 10); [discriminate|].
  destruct (split_lines s); discriminate.
Qed.

Lemma split_lines_newline a : forall b,
  split_lines (a ++ 10 :: b) = split_lines a ++ split_lines b.
Proof.
  induction a as [|c a IH]; intros b; [reflexivity|].
  cbn [app split_lines]. rewrite IH.
  destruct (char_eqb c 10); [reflexivity|].
  pose proof (split_lines_not_nil a) as H.
  destruct (split_lines a) as [|l ls]; [congruence|reflexivity].
Qed.

Lemma split_join_lines p : forall ps,
  split_lines (join_lines (p :: ps)) = flat_map split_lines (p :: ps).
Proof.
  revert p. intros p ps. revert p.
  induction ps as [|q ps IH]; intros p.
  - cbn [join_lines flat_map]. now rewrite app_nil_r.
  - change (join_lines (p :: q :: ps)) with (p ++ 10 :: join_lines (q :: ps)).
    rewrite split_lines_newline, IH. reflexivity.
Qed.

Section Lines.
Context {U : Unicode} {P : Pandas}.

Definition blank (line : pystr) : bool :=
  match strip line with [] => true | _ => false end.

(** X4.  Blank lines are ignored: removing the lines that are empty or all
    white space changes neither the records collected nor the date carried
    from line to line, whatever the date carried and the records collected
    so far. *)
Theorem X4_blank_lines_are_ignored lines : forall current_date transactions,
  parse_lines current_date transactions (filter (fun line => negb (blank line)) lines)
  = parse_lines current_date transactions lines.
Proof.
  induction lines as [|line rest IH]; intros cd txs; [reflexivity|].
  cbn [filter]. unfold blank at 1.
  destruct (strip line) as [|c s] eqn:E; cbn [negb].
  - cbn [parse_lines]. rewrite parse_line_spec. cbn [bind fst snd].
    unfold contributed, carried. rewrite E. apply IH.
  - cbn [parse_lines]. rewrite parse_line_spec. cbn [bind fst snd]. apply IH.
Qed.

(** X5.  Joining page texts with newlines and splitting the result at
    newlines gives the lines of the pages, page after page: the line loop
    collects from the joined text what it collects from those lines, so a
    date carried at the end of a page is still carried on the next one. *)
Theorem X5_pages_are_read_in_order pages :
  parse_lines None [] (split_lines (join_lines pages))
  = parse_lines None [] (flat_map split_lines pages).
Proof.
  destruct pages as [|p ps].
  - rewrite !parse_lines_spec. cbn [join_lines split_lines flat_map collected].
    unfold contributed, carried. cbn [strip rstrip lstrip rev app]. reflexivity.
  - now rewrite split_join_lines.
Qed.

End Lines.

(** ** The table of the text parser *)

Section TextTable.
Context {U : Unicode} {P : Pandas}.

Lemma classified_amount description x :
  exists x', fst (classified description x) = AFloat x'.
Proof.
  unfold classified.
  destruct (any_indicator debit_indicators description); [simpl; eauto|].
  destruct (any_indicator credit_indicators description); simpl; eauto.
Qed.

Lemma collected_amount current_date lines t :
  In t (collected current_date lines) -> exists x, amount t = AFloat x.
Proof.
  intros H. apply collected_inv in H. destruct H as (cd & line & _ & H).
  apply contributed_inv in H. destruct H as (c & m & q & _ & _ & ->).
  unfold record_for. cbn [amount]. apply classified_amount.
Qed.

Lemma parsed_frame_rectangular transactions : rectangular (parsed_frame transactions).
Proof.
  destruct transactions as [|t l]; intros c Hc; [contradiction|].
  unfold parsed_frame in *. cbn [nrows].
  destruct Hc as [<-|[<-|[<-|[<-|[]]]]]; cbn [snd]; now rewrite !length_map.
Qed.

(** X6.  [_parse_text_content] never fails.  Its table is either the empty
    table without columns, or it has exactly the columns date, description,
    amount and type, all of one length, and at least one row; every row holds
    a datetime (possibly NaT) under date and a float, never a cleaned string,
    under amount: the comparison of a string with a number in the type check
    is never reached. *)
Theorem X6_text_parser_is_total text :
  exists df,
    _parse_text_content text = Ok df /\
    (df = [] \/
     columns df = map utf8 ["date"; "description"; "amount"; "type"]%string /\
     (0 < nrows df)%nat /\ rectangular df) /\
    (forall r, In r (records df) ->
               exists t x, field (utf8 "date") r = Some (VTime t) /\
                           field (utf8 "amount") r = Some (VNum x)).
Proof.
  rewrite parse_text_content_spec. eexists. split; [reflexivity|]. split.
  - destruct (by_date (collected None (split_lines text))) as [|t l] eqn:E; [now left|right].
    split; [reflexivity|]. split.
    + unfold parsed_frame. cbn [nrows]. rewrite length_map. simpl. lia.
    + apply parsed_frame_rectangular.
  - intros r Hr. rewrite records_parsed_frame in Hr. apply in_map_iff in Hr.
    destruct Hr as (t & <- & Ht).
    apply (Permutation_in _ (by_date_perm _)) in Ht.
    apply collected_amount in Ht. destruct Ht as [x Hx].
    exists (date_key t), x. split; [reflexivity|].
    unfold row_of. cbn. rewrite Hx. reflexivity.
Qed.

(** X7.  The rows of the text parser's table are the records that the line
    loop collected, each with its date converted, in some order: the date
    conversion and the sort neither drop nor duplicate a record, and a
    record whose date does not convert stays in the table. *)
Theorem X7_rows_are_the_records text transactions df :
  parse_lines None [] (split_lines text) = Ok transactions ->
  _parse_text_content text = Ok df ->
  Permutation (records df) (map row_of transactions) /\
  nrows df = List.length transactions.
Proof.
  rewrite parse_lines_spec, parse_text_content_spec. cbn [app].
  intros H1 H2. injection H1 as <-. injection H2 as <-.
  set (l := collected None (split_lines text)).
  split.
  - rewrite records_parsed_frame. apply Permutation_map, by_date_perm.
  - pose proof (Permutation_length (by_date_perm l)) as L.
    destruct (by_date l) as [|t l'] eqn:E; [exact L|].
    unfold parsed_frame. cbn [nrows]. now rewrite length_map.
Qed.

Lemma collected_without_date lines :
  (forall line, In line lines -> find_date date_patterns line = None) ->
  collected None lines = [].
Proof.
  induction lines as [|line rest IH]; intros H; simpl; auto.
  assert (C : carried None line = None).
  { unfold carried. rewrite (H line) by now left. now destruct (strip line). }
  assert (T : contributed None line = None).
  { unfold contributed. rewrite C. now destruct (strip line). }
  rewrite T, C. apply IH. intros l Hl. apply H. now right.
Qed.

(** X8.  A text in which no line has a date match yields the empty table,
    whatever amounts and keywords its lines carry: lines before the first
    date are dropped. *)
Theorem X8_no_date_no_rows text :
  (forall line, In line (split_lines text) -> find_date date_patterns line = None) ->
  _parse_text_content text = Ok [].
Proof.
  intros H. rewrite parse_text_content_spec, (collected_without_date _ H). reflexivity.
Qed.

End TextTable.

Definition text_without_dates : pystr :=
  utf8 "PAGAMENTO 20,00
saldo 1.500,00".

Lemma X8_witness :
  @_parse_text_content Latin1 StringCells text_without_dates = Ok [].
Proof.
  apply (@X8_no_date_no_rows Latin1 StringCells text_without_dates).
  intros line H. vm_compute in H.
  destruct H as [<- | [<- | []]]; vm_compute; reflexivity.
Defined.

(** a statement of one line, dated the ISO way *)
Definition one_line_text : pystr := utf8 "2024-01-05 LEVANTAMENTO 45,00".

Definition one_line_records : list transaction :=
  [ {| date := utf8 "2024-01-05"; description := utf8 "LEVANTAMENTO";
       amount := AFloat (Num (-4500 # 100)); type := DEBIT |} ].

Definition one_line_table : DataFrame :=
  [ (utf8 "date", [VTime None]);
    (utf8 "description", [VStr (utf8 "LEVANTAMENTO")]);
    (utf8 "amount", [VNum (Num (-4500 # 100))]);
    (utf8 "type", [VType DEBIT]) ].

Lemma X7_witness :
  Permutation (records one_line_table)
              (map (@row_of Latin1 StringCells) one_line_records) /\
  nrows one_line_table = List.length one_line_records.
Proof.
  apply (@X7_rows_are_the_records Latin1 StringCells one_line_text);
    vm_compute; reflexivity.
Defined.

(** ** Lines and amounts *)

Section LineFacts.
Context {U : Unicode} {P : Pandas}.

Lemma first_plain_match_floats line m ms :
  finditer amount_plain line = m :: ms ->
  exists q, python_float (clean_amount m) = Some (Num q).
Proof.
  intros E.
  assert (Hin : In m (finditer_from amount_plain 0 line))
    by (unfold finditer in E; rewrite E; now left).
  apply finditer_from_sound in Hin. destruct Hin as (_ & Hm & _).
  now apply amount_plain_shape, plain_amount_floats in Hm.
Qed.

(** X9.  The second and the third amount pattern never decide an amount:
    the scan with the three patterns equals the scan with the first one
    alone.  The amount is read from the first match of the first pattern on
    the line (a later match, such as a balance, is never read), and the scan
    finds nothing exactly when the first pattern has no match. *)
Theorem X9_first_amount_pattern_decides line :
  scan_patterns amount_patterns line = scan_patterns [amount_plain] line /\
  (forall a, scan_patterns amount_patterns line = Some a ->
             exists m ms x, finditer amount_plain line = m :: ms /\
                            python_float (clean_amount m) = Some x /\
                            a = AFloat x) /\
  (scan_patterns amount_patterns line = None <-> finditer amount_plain line = []).
Proof.
  rewrite scan_patterns_first. cbn [scan_patterns].
  destruct (finditer amount_plain line) as [|m ms] eqn:E.
  - cbn [scan_matches]. repeat split; auto; discriminate.
  - destruct (first_plain_match_floats _ E) as [q Hq].
    cbn [scan_matches]. rewrite Hq. cbn [option_map]. repeat split; try discriminate.
    intros a H. injection H as <-. exists m, ms, (Num q). auto.
Qed.

Lemma emitted_some date_match line :
  (exists t, emitted date_match line = Some t) <-> finditer amount_plain line <> [].
Proof.
  unfold emitted. rewrite scan_patterns_first.
  destruct (finditer amount_plain line) as [|m ms] eqn:E.
  - split; [intros [t H]; discriminate | congruence].
  - destruct (first_plain_match_floats _ E) as [q Hq]. rewrite Hq. cbn [option_map].
    split; [discriminate | eauto].
Qed.

(** X10.  A line adds a record exactly when it is not blank, a date is
    available (found on the line, or carried and not empty) and the first
    amount pattern has a match on the line. *)
Theorem X10_line_yields_record current_date line :
  (exists cd t, parse_line current_date line = Ok (cd, Some t)) <->
  strip line <> [] /\
  (find_date date_patterns line <> None \/ truthy current_date = true) /\
  finditer amount_plain line <> [].
Proof.
  rewrite parse_line_spec. unfold contributed, carried.
  destruct (strip line) as [|s0 l0] eqn:S.
  { split; [intros (cd & t & H); discriminate | intros [H _]; congruence]. }
  destruct (find_date date_patterns line) as [m|] eqn:F.
  - pose proof (find_date_matches _ _ F) as [Hm _].
    destruct m as [|c m]; [congruence|].
    split.
    + intros (cd & t & H). injection H as _ H.
      repeat split; try discriminate. left. discriminate.
      apply (emitted_some (c :: m)). eauto.
    + intros (_ & _ & H). apply (emitted_some (c :: m)) in H. destruct H as [t H].
      rewrite H. eauto.
  - destruct current_date as [[|c m]|]; cbn [truthy].
    + split; [intros (cd & t & H); discriminate|].
      intros (_ & [H|H] & _); congruence.
    + split.
      * intros (cd & t & H). injection H as _ H.
        repeat split; try discriminate; auto.
        apply (emitted_some (c :: m)). eauto.
      * intros (_ & _ & H). apply (emitted_some (c :: m)) in H. destruct H as [t H].
        rewrite H. eauto.
    + split; [intros (cd & t & H); discriminate|].
      intros (_ & [H|H] & _); congruence.
Qed.

End LineFacts.

Lemma X10_witness :
  exists cd t,
    @parse_line Latin1 (Some (utf8 "03/03/2024")) (utf8 "COMPRA 5,00")
    = Ok (cd, Some t).
Proof.
  apply (proj2 (@X10_line_yields_record Latin1
                  (Some (utf8 "03/03/2024")) (utf8 "COMPRA 5,00"))).
  split; [vm_compute; discriminate|]. split; [right; reflexivity|].
  vm_compute; discriminate.
Defined.

Section LineRecord.
Context {U : Unicode} {P : Pandas}.

(** X11.  The record that a line adds: its date is the date found on the
    line or, when the line has none, the carried one, and it is the date
    carried on; its description is the one extracted from the line; its
    type is DEBIT when the description has a debit keyword, else CREDIT when
    it has a credit keyword, else UNKNOWN, whatever the sign of the amount;
    its amount is the one read from the line, made non-positive for DEBIT,
    non-negative for CREDIT, and left with its sign for UNKNOWN. *)
Theorem X11_record_of_a_line current_date line cd t :
  parse_line current_date line = Ok (cd, Some t) ->
  cd = Some (date t) /\
  (find_date date_patterns line = Some (date t) \/
   find_date date_patterns line = None /\ current_date = Some (date t)) /\
  description t = extract_description line /\
  exists x,
    scan_patterns amount_patterns line = Some (AFloat x) /\
    (amount t, type t) =
      if any_indicator debit_indicators (description t)
      then (AFloat (if gt0 x then neg x else x), DEBIT)
      else if any_indicator credit_indicators (description t)
      then (AFloat (if lt0 x then abs x else x), CREDIT)
      else (AFloat x, UNKNOWN).
Proof.
  rewrite parse_line_spec. intros H.
  assert (Hcd : carried current_date line = cd) by (injection H; auto).
  assert (Ht : contributed current_date line = Some t) by (injection H; auto).
  clear H. apply contributed_inv in Ht. destruct Ht as (c & m & q & Hc & Hs & ->).
  unfold record_for. cbn [date description amount type].
  split; [exact (eq_trans (eq_sym Hcd) Hc)|]. split; [|split; [reflexivity|]].
  - unfold carried in Hc. destruct (strip line) as [|s0 l0] eqn:S.
    + destruct (find_date date_patterns line) as [m'|] eqn:F; auto.
      apply dated_line_not_blank in F. congruence.
    + destruct (find_date date_patterns line) as [m'|] eqn:F; auto.
  - exists (Num q). split; auto. unfold classified.
    destruct (any_indicator debit_indicators _); [reflexivity|].
    destruct (any_indicator credit_indicators _); reflexivity.
Qed.

End LineRecord.

Definition carried_purchase : transaction :=
  {| date := utf8 "03/03/2024"; description := utf8 "COMPRA";
     amount := AFloat (Num (-500 # 100)); type := DEBIT |}.

Lemma X11_witness :
  Some (utf8 "03/03/2024") = Some (date carried_purchase) /\
  (@find_date Latin1 date_patterns (utf8 "COMPRA 5,00") = Some (date carried_purchase) \/
   @find_date Latin1 date_patterns (utf8 "COMPRA 5,00") = None /\
   Some (utf8 "03/03/2024") = Some (date carried_purchase)) /\
  description carried_purchase = @extract_description Latin1 (utf8 "COMPRA 5,00") /\
  exists x,
    @scan_patterns Latin1 amount_patterns (utf8 "COMPRA 5,00") = Some (AFloat x) /\
    (amount carried_purchase, type carried_purchase) =
      if @any_indicator Latin1 debit_indicators (description carried_purchase)
      then (AFloat (if gt0 x then neg x else x), DEBIT)
      else if @any_indicator Latin1 credit_indicators (description carried_purchase)
      then (AFloat (if lt0 x then abs x else x), CREDIT)
      else (AFloat x, UNKNOWN).
Proof.
  apply (@X11_record_of_a_line Latin1 (Some (utf8 "03/03/2024")) (utf8 "COMPRA 5,00")).
  vm_compute. reflexivity.
Defined.

Section AmountValue.
Context {U : Unicode}.

(** X12.  What the cleaner hands to [float] for a match of the first amount
    pattern (an optional minus sign, digits, a separator and two digits): the
    sign and the digits, with a point before the last two digits only when
    the separator was a comma.  A point written in the match is deleted:
    "12,34" is handed over as "12.34", but "12.34" as "1234". *)
Theorem X12_cleaned_match m :
  Matches amount_plain m ->
  exists sign ds a b,
    (sign = [] \/ sign = [DASH]) /\ ds <> [] /\ Forall digit (ds ++ [a; b]) /\
    (m = sign ++ ds ++ [DOT; a; b] /\ clean_amount m = sign ++ ds ++ [a; b] \/
     m = sign ++ ds ++ [COMMA; a; b] /\ clean_amount m = sign ++ ds ++ [DOT; a; b]).
Proof.
  intros H. apply amount_plain_shape in H.
  destruct H as [sign c ds sep a b Hs Hc Hds Hsep Ha Hb].
  assert (Hcds : Forall digit (c :: ds)) by now constructor.
  assert (Hab : Forall digit [a; b]) by (repeat constructor; auto).
  exists sign, (c :: ds), a, b.
  split; [exact Hs|]. split; [discriminate|]. split; [now apply Forall_app|].
  assert (Hsign : clean_amount sign = sign) by (destruct Hs as [-> | ->]; reflexivity).
  assert (E : clean_amount (sign ++ (c :: ds) ++ [sep; a; b])
              = sign ++ (c :: ds) ++ clean_amount [sep] ++ [a; b]).
  { rewrite !clean_amount_app, Hsign, (clean_amount_digits Hcds).
    change [sep; a; b] with ([sep] ++ [a; b]).
    now rewrite clean_amount_app, (clean_amount_digits Hab). }
  destruct Hsep as [-> | ->]; [left | right]; (split; [reflexivity|]);
    rewrite E; reflexivity.
Qed.

End AmountValue.

Lemma X12_witness :
  exists sign ds a b,
    (sign = [] \/ sign = [DASH]) /\ ds <> [] /\ Forall (@digit Latin1) (ds ++ [a; b]) /\
    (utf8 "-12,34" = sign ++ ds ++ [DOT; a; b] /\
     clean_amount (utf8 "-12,34") = sign ++ ds ++ [a; b] \/
     utf8 "-12,34" = sign ++ ds ++ [COMMA; a; b] /\
     clean_amount (utf8 "-12,34") = sign ++ ds ++ [DOT; a; b]).
Proof.
  apply (@X12_cleaned_match Latin1 (utf8 "-12,34")).
  apply fullmatch_Matches. vm_compute. reflexivity.
Defined.

(** ** Descriptions *)

Section Description.
Context {U : Unicode}.

(** every white-space character is a blank, and what follows it, if
    anything, is no white space *)
Fixpoint single_spaced (s : pystr) : Prop :=
  match s with
  | [] => True
  | c :: s' =>
    (isspace c = true ->
     c = BLANK /\ match s' with [] => True | d :: _ => isspace d = false end) /\
    single_spaced s'
  end.

(** no white space at either end *)
Definition trimmed (s : pystr) : Prop :=
  match s with [] => True | c :: _ => isspace c = false end /\
  match rev s with [] => True | c :: _ => isspace c = false end.

Lemma star_space_loop fuel : forall s,
  (List.length s <= fuel)%nat ->
  star_loop (re_match (Sym Space)) (fun rest => Some rest) fuel s = Some (lstrip s).
Proof.
  induction fuel as [|fuel IH]; intros s Hs.
  - destruct s; [reflexivity|simpl in Hs; lia].
  - destruct s as [|c s']; [reflexivity|].
    cbn [star_loop re_match in_cset lstrip].
    destruct (isspace c); [|reflexivity].
    replace (List.length s' <? List.length (c :: s'))%nat with true
      by (symmetry; apply Nat.ltb_lt; simpl; lia).
    rewrite IH by (simpl in Hs; lia). reflexivity.
Qed.

Lemma lstrip_suffix s : exists pre, s = pre ++ lstrip s /\
                                    Forall (fun c => isspace c = true) pre.
Proof.
  induction s as [|c s IH]; simpl.
  - exists []. auto.
  - destruct (isspace c) eqn:E.
    + destruct IH as (pre & Hp & Hf). exists (c :: pre). split.
      * simpl. now rewrite <- Hp.
      * constructor; auto.
    + exists []. auto.
Qed.

Lemma match_spaces c s :
  match_at (Plus (Sym Space)) (c :: s) =
  if isspace c
  then Some (firstn (List.length (c :: s) - List.length (lstrip s)) (c :: s), lstrip s)
  else None.
Proof.
  unfold match_at, Plus. cbn [re_match in_cset].
  destruct (isspace c); [|reflexivity].
  rewrite star_space_loop; auto.
Qed.

Lemma re_sub_from_skip r repl : forall s n,
  re_sub_from r repl n s = re_sub_from r repl 0 (skipn n s).
Proof.
  induction s as [|c s IH]; intros [|n]; simpl; auto.
Qed.

Lemma collapse_spaces_step c s :
  re_sub (Plus (Sym Space)) [BLANK] (c :: s) =
  if isspace c then BLANK :: re_sub (Plus (Sym Space)) [BLANK] (lstrip s)
  else c :: re_sub (Plus (Sym Space)) [BLANK] s.
Proof.
  unfold re_sub. cbn [re_sub_from]. rewrite match_spaces.
  destruct (isspace c); [|reflexivity].
  destruct (lstrip_suffix s) as (pre & Hp & _).
  assert (Hlen : (List.length s = List.length pre + List.length (lstrip s))%nat)
    by (rewrite Hp at 1; apply length_app).
  rewrite length_firstn. cbn [List.length].
  replace (Nat.min (S (List.length s) - List.length (lstrip s)) (S (List.length s)))
    with (S (List.length pre)) by lia.
  rewrite re_sub_from_skip. cbn [app]. f_equal. f_equal.
  rewrite Hp at 1. rewrite skipn_app, skipn_all, Nat.sub_diag. reflexivity.
Qed.

Lemma lstrip_shorter s : (List.length (lstrip s) <= List.length s)%nat.
Proof.
  destruct (lstrip_suffix s) as (pre & Hp & _). rewrite Hp at 2.
  rewrite length_app. lia.
Qed.

Lemma lstrip_head_not_space s :
  match lstrip s with [] => True | c :: _ => isspace c = false end.
Proof.
  induction s as [|c s IH]; simpl; auto.
  destruct (isspace c) eqn:E; auto.
Qed.

Lemma collapse_head s :
  match s with [] => True | c :: _ => isspace c = false end ->
  match re_sub (Plus (Sym Space)) [BLANK] s with
  | [] => True
  | c :: _ => isspace c = false
  end.
Proof.
  destruct s as [|c s]; [auto|]. intros H. now rewrite collapse_spaces_step, H.
Qed.

Lemma collapse_single_spaced n : forall s,
  (List.length s <= n)%nat -> single_spaced (re_sub (Plus (Sym Space)) [BLANK] s).
Proof.
  induction n as [|n IH]; intros s Hs.
  - destruct s; [exact I|simpl in Hs; lia].
  - destruct s as [|c s]; [exact I|]. rewrite collapse_spaces_step.
    simpl in Hs. destruct (isspace c) eqn:E.
    + cbn [single_spaced]. split.
      * intros _. split; auto. apply collapse_head, lstrip_head_not_space.
      * apply IH. pose proof (lstrip_shorter s). lia.
    + cbn [single_spaced]. split; [congruence|]. apply IH. lia.
Qed.

Lemma single_spaced_suffix a : forall b, single_spaced (a ++ b) -> single_spaced b.
Proof.
  induction a as [|c a IH]; intros b H; auto. apply IH. exact (proj2 H).
Qed.

Lemma single_spaced_prefix a : forall b, single_spaced (a ++ b) -> single_spaced a.
Proof.
  induction a as [|c a IH]; intros b H; [exact I|].
  destruct H as [H1 H2]. split; [|eapply IH; eauto].
  intros Hc. destruct (H1 Hc) as [-> Hn]. split; auto.
  destruct a; auto.
Qed.

Lemma rstrip_prefix s : exists post, s = rstrip s ++ post.
Proof.
  unfold rstrip. destruct (lstrip_suffix (rev s)) as (pre & Hp & _).
  exists (rev pre). rewrite <- rev_app_distr, <- Hp. now rewrite rev_involutive.
Qed.

Lemma strip_single_spaced s : single_spaced s -> single_spaced (strip s).
Proof.
  intros H. unfold strip.
  destruct (lstrip_suffix s) as (pre & Hp & _). rewrite Hp in H.
  apply single_spaced_suffix in H.
  destruct (rstrip_prefix (lstrip s)) as (post & Hq). rewrite Hq in H.
  now apply single_spaced_prefix in H.
Qed.

Lemma strip_trimmed s : trimmed (strip s).
Proof.
  unfold trimmed, strip. split.
  - destruct (rstrip_prefix (lstrip s)) as (post & Hq).
    pose proof (lstrip_head_not_space s) as H. rewrite Hq in H.
    destruct (rstrip (lstrip s)); auto.
  - unfold rstrip. rewrite rev_involutive. apply lstrip_head_not_space.
Qed.

(** X13.  The description of a record is normalised: it has no white space
    at either end, and every white-space character in it is a single blank
    followed by a character that is no white space. *)
Theorem X13_description_is_normalised line :
  single_spaced (extract_description line) /\ trimmed (extract_description line).
Proof.
  unfold extract_description. split.
  - apply strip_single_spaced. eapply collapse_single_spaced. reflexivity.
  - apply strip_trimmed.
Qed.

End Description.

(** ** The dates of the records *)

Section RecordDates.
Context {U : Unicode} {P : Pandas}.

(** a string of ten characters that one of the date patterns matches as a
    whole *)
Definition is_date_match (s : pystr) : bool :=
  existsb (fun pattern => fullmatch pattern s) date_patterns
  && (List.length s =? 10)%nat.

Lemma date_match_length p m :
  In p date_patterns -> Matches p m -> List.length m = 10%nat.
Proof.
  intros [<-|[<-|[<-|[]]]] H.
  - apply date_dmY_slash_shape in H.
    destruct H as (a & b & c & d & e & f & g & h & -> & _). reflexivity.
  - apply date_dmY_dash_shape in H.
    destruct H as (a & b & c & d & e & f & g & h & -> & _). reflexivity.
  - apply date_Ymd_dash_shape in H.
    destruct H as (a & b & c & d & e & f & g & h & -> & _). reflexivity.
Qed.

Lemma find_date_is_date_match line m :
  find_date date_patterns line = Some m -> is_date_match m = true.
Proof.
  intros H. apply find_date_matches in H.
  destruct H as (_ & p & pre & post & Hp & Hm & _).
  unfold is_date_match. apply andb_true_iff. split.
  - apply existsb_exists. exists p. split; auto. now apply fullmatch_Matches.
  - apply Nat.eqb_eq. eapply date_match_length; eauto.
Qed.

Definition dated (current_date : option pystr) : Prop :=
  forall d, current_date = Some d -> truthy current_date = true -> is_date_match d = true.

Lemma carried_dated current_date line :
  dated current_date -> dated (carried current_date line).
Proof.
  intros H. unfold carried.
  destruct (strip line); auto.
  destruct (find_date date_patterns line) as [m|] eqn:F; auto.
  intros d E _. injection E as <-. eapply find_date_is_date_match; eauto.
Qed.

Lemma collected_dates lines : forall current_date t,
  dated current_date -> In t (collected current_date lines) ->
  is_date_match (date t) = true.
Proof.
  induction lines as [|line rest IH]; intros cd t Hcd Hin; simpl in Hin; [contradiction|].
  pose proof (carried_dated line Hcd) as Hc.
  destruct (contributed cd line) as [t'|] eqn:C.
  - destruct Hin as [<- | Hin]; [|eapply IH; eauto].
    apply contributed_inv in C. destruct C as (c & m & q & C & _ & ->).
    unfold record_for. cbn [date]. apply (Hc _ C). now rewrite C.
  - eapply IH; eauto.
Qed.

(** X14.  The date of every record that the line loop collects is a string
    of ten characters that one of the three date patterns matches as a
    whole: a date found on a line, or such a date carried forward. *)
Theorem X14_record_dates_are_matches text transactions t :
  parse_lines None [] (split_lines text) = Ok transactions ->
  In t transactions -> is_date_match (date t) = true.
Proof.
  rewrite parse_lines_spec. cbn [app]. intros H Hin. injection H as <-.
  eapply collected_dates; eauto. intros d E. discriminate.
Qed.

End RecordDates.

Lemma X14_witness :
  @is_date_match Latin1 (utf8 "2024-01-05") = true.
Proof.
  apply (@X14_record_dates_are_matches Latin1 one_line_text one_line_records
           {| date := utf8 "2024-01-05"; description := utf8 "LEVANTAMENTO";
              amount := AFloat (Num (-4500 # 100)); type := DEBIT |}).
  - vm_compute. reflexivity.
  - left. reflexivity.
Defined.

Section SlashDates.
Context {U : Unicode} {P : Pandas}.

(** two characters that [%d] accepts as a day: 30 or 31, 10 to 29, 01 to 09 *)
Definition day_ok (a b : char) : bool :=
  ((a =? 51) && ((48 <=? b) && (b <=? 49)))
  || (((49 <=? a) && (a <=? 50)) && isdigit b)
  || ((a =? 48) && ((49 <=? b) && (b <=? 57))).

(** two characters that [%m] accepts as a month: 10 to 12, 01 to 09 *)
Definition month_ok (c d : char) : bool :=
  ((c =? 49) && ((48 <=? d) && (d <=? 50)))
  || ((c =? 48) && ((49 <=? d) && (d <=? 57))).

Lemma fmt_d_two (A : Type) a b rest (k : pystr -> option A) :
  (a =? 32) = false -> k (b :: rest) = None ->
  re_match fmt_d (a :: b :: rest) k = if day_ok a b then k rest else None.
Proof.
  intros Ha Hk. unfold fmt_d, day_ok, Lit, BLANK, D.
  cbn [re_match in_cset existsb]. unfold char_eqb. rewrite Hk, Ha, !orb_false_r.
  destruct (k rest);
    destruct (a =? 51), (48 <=? b), (b <=? 49), (49 <=? a), (a <=? 50), (isdigit b),
             (a =? 48), (49 <=? b), (b <=? 57), (a <=? 57); reflexivity.
Qed.

Lemma fmt_m_two (A : Type) c d rest (k : pystr -> option A) :
  k (d :: rest) = None ->
  re_match fmt_m (c :: d :: rest) k = if month_ok c d then k rest else None.
Proof.
  intros Hk. unfold fmt_m, month_ok, Lit.
  cbn [re_match in_cset existsb]. unfold char_eqb. rewrite Hk, !orb_false_r.
  destruct (k rest);
    destruct (c =? 49), (48 <=? d), (d <=? 50), (c =? 48), (49 <=? d), (d <=? 57),
             (49 <=? c), (c <=? 57); reflexivity.
Qed.

Lemma digit_not_slash c : digit c -> (c =? SLASH) = false.
Proof.
  intros H. apply N.eqb_neq. apply (digit_not_ascii_other H); reflexivity.
Qed.

Lemma date_dmY_slash_digits m :
  Matches date_dmY_slash m ->
  exists a b c d e f g h,
    m = [a; b; SLASH; c; d; SLASH; e; f; g; h] /\
    Forall digit [a; b; c; d; e; f; g; h].
Proof.
  intros H. unfold date_dmY_slash in H.
  apply Matches_Cat in H. destruct H as (dd & m1 & -> & Hdd & H).
  apply Matches_Cat in H. destruct H as (s1 & m2 & -> & Hs1 & H).
  apply Matches_Cat in H. destruct H as (mm & m3 & -> & Hmm & H).
  apply Matches_Cat in H. destruct H as (s2 & yy & -> & Hs2 & Hyy).
  apply Matches_DD in Hdd, Hmm.
  destruct Hdd as (a & b & -> & Ha & Hb), Hmm as (c & d & -> & Hc & Hd).
  apply Matches_Lit in Hs1, Hs2. subst.
  apply Matches_DDDD in Hyy. destruct Hyy as (e & f & g & h & -> & He & Hf & Hg & Hh).
  exists a, b, c, d, e, f, g, h. split; [reflexivity|]. repeat constructor; auto.
Qed.

Lemma strptime_slash_date a b c d e f g h :
  Forall digit [a; b; c; d; e; f; g; h] ->
  strptime_dmY [a; b; SLASH; c; d; SLASH; e; f; g; h] =
  if day_ok a b && month_ok c d
  then Some (int_of [a; b], int_of [c; d], int_of [e; f; g; h])
  else None.
Proof.
  intros H.
  inversion H as [|? ? Ha H1]; subst. inversion H1 as [|? ? Hb H2]; subst.
  inversion H2 as [|? ? Hc H3]; subst. inversion H3 as [|? ? Hd H4]; subst.
  inversion H4 as [|? ? He H5]; subst. inversion H5 as [|? ? Hf H6]; subst.
  inversion H6 as [|? ? Hg H7]; subst. inversion H7 as [|? ? Hh _]; subst.
  unfold strptime_dmY.
  rewrite fmt_d_two.
  2:{ apply N.eqb_neq. apply (digit_not_ascii_other Ha); reflexivity. }
  2:{ cbn [re_match Lit in_cset existsb]. unfold char_eqb.
      now rewrite (digit_not_slash Hb). }
  destruct (day_ok a b); [|reflexivity]. cbn [andb].
  cbn [re_match Lit in_cset existsb]. unfold char_eqb at 1.
  replace (SLASH =? SLASH) with true by reflexivity. cbn [orb].
  rewrite fmt_m_two.
  2:{ cbn [re_match Lit in_cset existsb]. unfold char_eqb.
      now rewrite (digit_not_slash Hd). }
  destruct (month_ok c d); [|reflexivity].
  cbn [re_match Lit in_cset existsb]. unfold char_eqb at 1.
  replace (SLASH =? SLASH) with true by reflexivity. cbn [orb].
  unfold fmt_Y, D. cbn [Times re_match in_cset].
  unfold digit in He, Hf, Hg, Hh. rewrite He, Hf, Hg, Hh. reflexivity.
Qed.

(** X15.  The conversion of a date string that the first date pattern
    matches, two digits, a slash, two digits, a slash and four digits: the
    first two digits are the day and the next two the month.  The string
    converts only if [%d] accepts the day (01 to 31) and [%m] the month (01
    to 12), and then to what the calendar makes of that year, month and
    day; otherwise it becomes NaT. *)
Theorem X15_slash_date_conversion s :
  fullmatch date_dmY_slash s = true ->
  exists a b c d y,
    s = a :: b :: SLASH :: c :: d :: SLASH :: y /\
    to_datetime_dmY (VStr s) =
      if day_ok a b && month_ok c d
      then make_timestamp (int_of y) (int_of [c; d]) (int_of [a; b])
      else None.
Proof.
  intros H. apply fullmatch_Matches, date_dmY_slash_digits in H.
  destruct H as (a & b & c & d & e & f & g & h & -> & Hd).
  exists a, b, c, d, [e; f; g; h]. split; [reflexivity|].
  unfold to_datetime_dmY. rewrite (strptime_slash_date Hd).
  destruct (day_ok a b && month_ok c d); reflexivity.
Qed.

End SlashDates.

Lemma X15_witness :
  exists a b c d y,
    utf8 "03/12/2024" = a :: b :: SLASH :: c :: d :: SLASH :: y /\
    @to_datetime_dmY Latin1 StringCells (VStr (utf8 "03/12/2024")) =
      if @day_ok Latin1 a b && month_ok c d
      then @make_timestamp StringCells (@int_of Latin1 y) (@int_of Latin1 [c; d])
                                       (@int_of Latin1 [a; b])
      else None.
Proof.
  apply (@X15_slash_date_conversion Latin1 StringCells (utf8 "03/12/2024")).
  vm_compute. reflexivity.
Defined.

(** ** The failures of the standardizer *)

Section StandardizerErrors.
Context {U : Unicode} {P : Pandas}.



(** a header that is the first match of the date field and of the amount
    field *)
Lemma rename_never_date c s (raw : DataFrame) :
  ~ In (utf8 "date") (columns raw) ->
  filter (labelled (utf8 "date"))
         (rename [ (c, utf8 "date"); (c, utf8 "amount"); (s, utf8 "description") ] raw)
  = [].
Proof.
  intros H. apply filter_labelled_absent. intros Hin. apply H.
  unfold columns, rename in *. rewrite map_map in Hin. apply in_map_iff in Hin.
  destruct Hin as (col & E & Hin). apply in_map_iff. exists col. split; auto.
  cbn [dict_get] in E.
  destruct (str_eqb s (fst col)); [discriminate|].
  destruct (str_eqb c (fst col)); [discriminate|]. exact E.
Qed.

(** X17.  When one header is the first match of the date field and of the
    amount field, the renaming maps it to 'amount' (the later key of the
    mapping wins), and the standardizer fails with KeyError on 'date' unless
    the table already has a column of that name: an amount column further
    to the right is not looked at. *)
Theorem X17_shared_header_fails raw c :
  hd_error (matching_columns date_terms raw) = Some c ->
  hd_error (matching_columns amount_terms raw) = Some c ->
  matching_columns desc_terms raw <> [] ->
  ~ In (utf8 "date") (columns raw) ->
  _standardize_dataframe raw = Raise KeyError.
Proof.
  intros Hd Ha Hs Hn. rewrite standardize_spec. unfold renamed.
  destruct (matching_columns date_terms raw) as [|d ds]; [discriminate|].
  destruct (matching_columns amount_terms raw) as [|a az]; [discriminate|].
  destruct (matching_columns desc_terms raw) as [|s ss]; [congruence|].
  injection Hd as ->. injection Ha as ->.
  unfold series_of, getitem. rewrite (rename_never_date c s raw Hn). reflexivity.
Qed.

End StandardizerErrors.


(** a statement whose first header names two fields: the value date *)
Definition statement_with_value_date : DataFrame :=
  table [ ("Data Valor", ["01/03/2024"]); ("Descricao", ["COMPRA"]);
          ("Montante", ["-45,67"]) ]%string.

Lemma X17_witness :
  @_standardize_dataframe Latin1 StringCells statement_with_value_date = Raise KeyError.
Proof.
  apply (@X17_shared_header_fails Latin1 StringCells statement_with_value_date
           (utf8 "Data Valor")).
  - reflexivity.
  - reflexivity.
  - vm_compute. discriminate.
  - vm_compute. intros [H | [H | [H | []]]]; discriminate.
Defined.

Section StandardizerSuccess.
Context {U : Unicode} {P : Pandas}.

Lemma series_of_ok_iff label df :
  (exists s, series_of label df = Ok s) <->
  List.length (filter (labelled label) df) = 1%nat.
Proof.
  unfold series_of, getitem.
  destruct (filter (labelled label) df) as [|c [|c' cs]]; simpl; split;
    try discriminate; eauto; intros [s H]; discriminate.
Qed.

(** X18.  The standardizer returns a table only if the three fields have a
    matching column and, after the renaming, exactly one column is labelled
    'date' and exactly one 'amount': with none or several of either label it
    fails. *)
Theorem X18_standardizer_returns_only_if raw out :
  _standardize_dataframe raw = Ok out ->
  exists df1,
    renamed raw = Some df1 /\
    List.length (filter (labelled (utf8 "date")) df1) = 1%nat /\
    List.length (filter (labelled (utf8 "amount")) df1) = 1%nat.
Proof.
  rewrite standardize_spec. destruct (renamed raw) as [df1|]; [|discriminate].
  intros H. exists df1. split; auto.
  destruct (series_of (utf8 "date") df1) as [dates|] eqn:Ed; [|discriminate].
  destruct (series_of (utf8 "amount") df1) as [amounts|] eqn:Ea; [|discriminate].
  split; apply series_of_ok_iff; eauto.
Qed.

End StandardizerSuccess.

Lemma X18_witness :
  exists df1,
    @renamed Latin1 plain_statement = Some df1 /\
    List.length (filter (labelled (utf8 "date")) df1) = 1%nat /\
    List.length (filter (labelled (utf8 "amount")) df1) = 1%nat.
Proof.
  apply (@X18_standardizer_returns_only_if Latin1 StringCells plain_statement
           plain_statement_standardized).
  vm_compute. reflexivity.
Defined.


(** ** Rows through a reordering and through a concatenation *)

Definition columns_of_length (n : nat) (df : DataFrame) : Prop :=
  Forall (fun c => List.length (snd c) = n) df.

Lemma rectangular_columns df : rectangular df <-> columns_of_length (nrows df) df.
Proof. unfold rectangular, columns_of_length. now rewrite Forall_forall. Qed.

Lemma nth_error_take (A : Type) (s : list A) rows :
  Forall (fun j => (j < List.length s)%nat) rows ->
  forall i, nth_error (take rows s) i =
            match nth_error rows i with
            | Some j => nth_error s j
            | None => None
            end.
Proof.
  induction 1 as [|j rows Hj _ IH]; intros i.
  - now destruct i.
  - unfold take. cbn [flat_map]. fold (take rows s).
    destruct (nth_error s j) as [v|] eqn:E.
    + destruct i as [|i]; simpl; auto.
    + apply nth_error_None in E. lia.
Qed.

Lemma record_at_reordered n rows df i :
  columns_of_length n df ->
  Forall (fun j => (j < n)%nat) rows ->
  record_at (reordered rows df) i =
  match nth_error rows i with
  | Some j => record_at df j
  | None => []
  end.
Proof.
  intros Hdf Hrows. induction Hdf as [|c df Hc _ IH].
  - now destruct (nth_error rows i).
  - unfold record_at, reordered in *. cbn [map flat_map fst snd]. rewrite IH.
    rewrite nth_error_take by now rewrite Hc.
    now destruct (nth_error rows i).
Qed.

Lemma length_take_valid (A : Type) (s : list A) rows :
  Forall (fun j => (j < List.length s)%nat) rows ->
  List.length (take rows s) = List.length rows.
Proof.
  induction 1 as [|j rows Hj _ IH]; auto.
  unfold take. cbn [flat_map]. fold (take rows s).
  destruct (nth_error s j) as [v|] eqn:E.
  - simpl. now rewrite IH.
  - apply nth_error_None in E. lia.
Qed.

Lemma map_nth_error_seq (A B : Type) (f : A -> B) (d : B) (l : list A) :
  map (fun i => match nth_error l i with Some a => f a | None => d end)
      (seq 0 (List.length l)) = map f l.
Proof.
  induction l as [|a l IH]; auto.
  cbn [List.length seq map nth_error]. f_equal.
  rewrite <- seq_shift, map_map. exact IH.
Qed.

Lemma records_reordered rows df :
  rectangular df ->
  Forall (fun j => (j < nrows df)%nat) rows ->
  records (reordered rows df) = map (record_at df) rows /\
  rectangular (reordered rows df) /\
  nrows (reordered rows df) = List.length rows.
Proof.
  intros Hrect Hrows.
  assert (Hcols : columns_of_length (nrows df) df) by now apply rectangular_columns.
  assert (Hn : nrows (reordered rows df) = List.length rows).
  { destruct df as [|[l s] df].
    - simpl in Hrows. destruct Hrows as [|j rows Hj _]; [reflexivity|lia].
    - cbn [reordered map nrows fst snd]. apply length_take_valid. exact Hrows. }
  split; [|split]; auto.
  - unfold records. rewrite Hn.
    rewrite <- (map_nth_error_seq (record_at df) [] rows).
    apply map_ext. intros i. now apply record_at_reordered with (n := nrows df).
  - intros c Hc. rewrite Hn. unfold reordered in Hc. apply in_map_iff in Hc.
    destruct Hc as (c0 & <- & Hc0). cbn [snd].
    apply length_take_valid. eapply Forall_impl; [|exact Hrows].
    intros j Hj. exact (eq_ind_r (fun n => (j < n)%nat) Hj (Hrect c0 Hc0)).
Qed.

Lemma permutation_bounded rows n :
  Permutation rows (seq 0 n) -> Forall (fun j => (j < n)%nat) rows.
Proof.
  intros H. apply Forall_forall. intros j Hj.
  apply (Permutation_in _ H), in_seq in Hj. lia.
Qed.

Lemma records_reordered_perm rows df :
  rectangular df ->
  Permutation rows (seq 0 (nrows df)) ->
  Permutation (records (reordered rows df)) (records df) /\
  rectangular (reordered rows df) /\
  nrows (reordered rows df) = nrows df.
Proof.
  intros Hrect Hp.
  destruct (records_reordered Hrect (@permutation_bounded _ _ Hp)) as (E & R & N).
  split; [|split]; auto.
  - rewrite E. unfold records. now apply Permutation_map.
  - rewrite N, (Permutation_length Hp). apply length_seq.
Qed.

(** Sorting keeps the rows. *)
Lemma sort_values_records label df out :
  rectangular df ->
  sort_values label df = Ok out ->
  Permutation (records out) (records df) /\ rectangular out /\ nrows out = nrows df.
Proof.
  intros Hrect. unfold sort_values.
  destruct (series_of label df) as [s|] eqn:E; cbn [bind]; [|discriminate].
  intros H. injection H as <-.
  apply (records_reordered_perm Hrect).
  pose proof (Hrect _ (series_of_In _ _ E)) as L. cbn [snd] in L.
  rewrite <- L, <- (length_map sort_key s). apply argsort_perm.
Qed.

Lemma record_at_stack n : forall top bottom i,
  columns_of_length n top -> columns bottom = columns top ->
  record_at (stack top bottom) i =
  if (i <? n)%nat then record_at top i else record_at bottom (i - n).
Proof.
  induction top as [|[l s] top IH]; intros [|[l' s'] bottom] i Ht Hc;
    try discriminate.
  - now destruct (i <? n)%nat.
  - apply Forall_cons_iff in Ht. destruct Ht as [Hs Ht]. cbn [snd] in Hs.
    injection Hc as -> Hc.
    cbn [stack]. unfold record_at in *. cbn [flat_map fst snd].
    rewrite (IH bottom i Ht Hc).
    destruct (i <? n)%nat eqn:E.
    + apply Nat.ltb_lt in E. rewrite nth_error_app1 by lia. reflexivity.
    + apply Nat.ltb_ge in E. rewrite nth_error_app2 by lia. now rewrite Hs.
Qed.

Lemma stack_columns_of_length n m : forall top bottom,
  columns_of_length n top -> columns_of_length m bottom ->
  columns_of_length (n + m) (stack top bottom).
Proof.
  induction top as [|[l s] top IH]; intros [|[l' s'] bottom] Ht Hb; try constructor.
  - apply Forall_cons_iff in Ht, Hb. cbn [snd] in *. rewrite length_app.
    destruct Ht as [<- _], Hb as [<- _]. reflexivity.
  - apply Forall_cons_iff in Ht, Hb. apply IH; tauto.
Qed.

Lemma map_seq_sub (A : Type) (f : nat -> A) n : forall len start,
  map (fun i => f (i - n)%nat) (seq (n + start) len) = map f (seq start len).
Proof.
  induction len as [|len IH]; intros start; auto.
  cbn [seq map]. f_equal.
  - f_equal. lia.
  - rewrite <- (IH (S start)). f_equal. f_equal. lia.
Qed.

Lemma records_stack top bottom :
  top <> [] -> rectangular top -> rectangular bottom ->
  columns bottom = columns top ->
  records (stack top bottom) = records top ++ records bottom /\
  rectangular (stack top bottom) /\
  stack top bottom <> [].
Proof.
  intros Hne Ht Hb Hc.
  assert (Hn : nrows (stack top bottom) = (nrows top + nrows bottom)%nat).
  { destruct top as [|[l s] top]; [congruence|].
    destruct bottom as [|[l' s'] bottom]; [discriminate|].
    cbn [stack nrows]. apply length_app. }
  assert (Hs : stack top bottom <> []).
  { destruct top as [|[l s] top]; [congruence|].
    destruct bottom as [|[l' s'] bottom]; discriminate. }
  apply rectangular_columns in Ht, Hb.
  split; [|split]; auto.
  - unfold records. rewrite Hn, seq_app, map_app. f_equal.
    + apply map_ext_in. intros i Hi. apply in_seq in Hi.
      rewrite (@record_at_stack (nrows top) top bottom i Ht Hc).
      replace (i <? nrows top)%nat with true by (symmetry; apply Nat.ltb_lt; lia).
      reflexivity.
    + rewrite <- (map_seq_sub (record_at bottom) (nrows top) (nrows bottom) 0).
      rewrite Nat.add_0_r. apply map_ext_in. intros i Hi. apply in_seq in Hi.
      rewrite (@record_at_stack (nrows top) top bottom i Ht Hc).
      replace (i <? nrows top)%nat with false by (symmetry; apply Nat.ltb_ge; lia).
      reflexivity.
  - apply rectangular_columns. rewrite Hn. now apply stack_columns_of_length.
Qed.

Lemma records_fold_stack others : forall first,
  first <> [] -> rectangular first -> Forall rectangular others ->
  Forall (fun df => columns df = columns first) others ->
  records (fold_left stack others first) = records first ++ flat_map records others /\
  rectangular (fold_left stack others first).
Proof.
  induction others as [|df others IH]; intros first Hne Hf Ho Hc.
  - cbn [fold_left flat_map]. now rewrite app_nil_r.
  - apply Forall_cons_iff in Ho, Hc. destruct Ho as [Hdf Ho], Hc as [Hcdf Hc].
    destruct (records_stack Hne Hf Hdf Hcdf) as (E & R & N).
    cbn [fold_left flat_map].
    destruct (IH (stack first df) N R Ho) as [E' R'].
    + eapply Forall_impl; [|exact Hc]. intros d Hd. cbn beta in Hd.
      now rewrite (stack_columns _ _ Hcdf).
    + split; auto. now rewrite E', E, <- app_assoc.
Qed.

(** ** The rows and the labels of the standardized table *)

Lemma nth_error_combine (A B : Type) (a : list A) : forall (b : list B) j,
  nth_error (combine a b) j =
  match nth_error a j, nth_error b j with
  | Some x, Some y => Some (x, y)
  | _, _ => None
  end.
Proof.
  induction a as [|x a IH]; intros [|y b] [|j]; simpl; auto.
  - now destruct (nth_error a j).
Qed.

Section StandardizedRows.
Context {U : Unicode} {P : Pandas}.

(** the date, description, amount and type of a record *)
Definition fields (r : record) : option value * option value * option value * option value :=
  (field (utf8 "date") r, field (utf8 "description") r,
   field (utf8 "amount") r, field (utf8 "type") r).

(** the record that the standardizer makes of a date, a description cell and
    an amount cell *)
Definition standardized (row : option Z * value * value)
  : option value * option value * option value * option value :=
  let '(d, s, a) := row in
  (Some (VTime d), Some s, Some (VNum (coerce a)), Some (VType (sign_type (coerce a)))).

Lemma first_description raw df1 :
  renamed raw = Some df1 ->
  exists descs others,
    filter (labelled (utf8 "description")) df1 = (utf8 "description", descs) :: others /\
    In (utf8 "description", descs) df1.
Proof.
  intros R. pose proof (renamed_has_description _ R) as H.
  destruct (filter (labelled (utf8 "description")) df1) as [|[l s] others] eqn:E;
    [congruence|].
  assert (Hin : In (l, s) (filter (labelled (utf8 "description")) df1))
    by (rewrite E; now left).
  apply filter_In in Hin. destruct Hin as [Hin Hl]. apply labelled_true in Hl.
  cbn [fst] in Hl. subst l. eauto.
Qed.

Lemma projected_fields dates amounts df1 descs others j d s a :
  filter (labelled (utf8 "description")) df1 = (utf8 "description", descs) :: others ->
  nth_error (to_datetime dates) j = Some d ->
  nth_error descs j = Some s ->
  nth_error amounts j = Some a ->
  fields (record_at (projected dates amounts df1) j) = standardized (d, s, a).
Proof.
  intros Hf Hd Hs Ha.
  assert (Hj : Forall (fun k => (k < List.length (map coerce amounts))%nat) [j]).
  { constructor; auto. rewrite length_map. apply nth_error_Some. congruence. }
  destruct (standardized_fields [j] dates amounts df1 0) as [E1 E2].
  cbv zeta in E1, E2. rewrite (@nth_error_take _ (map coerce amounts) [j] Hj) in E1, E2.
  cbn [nth_error] in E1, E2. rewrite nth_error_map, Ha in E1, E2.
  cbn [option_map] in E1, E2.
  assert (R : record_at (reordered [j] (projected dates amounts df1)) 0
              = record_at (projected dates amounts df1) j).
  { unfold record_at, reordered. rewrite flat_map_concat_map, map_map.
    rewrite <- flat_map_concat_map. apply flat_map_ext. intros c. cbn [fst snd].
    unfold take. cbn [flat_map]. destruct (nth_error (snd c) j); reflexivity. }
  rewrite R in E1, E2.
  unfold fields, standardized. rewrite E1, E2. f_equal. f_equal.
  unfold projected. rewrite Hf.
  rewrite !field_record_at_cons, nth_error_map, Hd. cbn [option_map].
  replace (str_eqb (utf8 "date") (utf8 "date")) with true by reflexivity.
  replace (str_eqb (utf8 "date") (utf8 "description")) with false by reflexivity.
  cbn [app]. rewrite field_record_at_cons, Hs.
  replace (str_eqb (utf8 "description") (utf8 "description")) with true by reflexivity.
  reflexivity.
Qed.

Lemma projected_rectangular raw df1 dates amounts :
  rectangular raw -> renamed raw = Some df1 ->
  series_of (utf8 "date") df1 = Ok dates ->
  series_of (utf8 "amount") df1 = Ok amounts ->
  rectangular (projected dates amounts df1) /\
  nrows (projected dates amounts df1) = nrows raw /\
  List.length dates = nrows raw /\ List.length amounts = nrows raw /\
  forall c, In c df1 -> List.length (snd c) = nrows raw.
Proof.
  intros Hrect R Ed Ea.
  destruct (renamed_rectangular R Hrect) as [Hrect1 Hn].
  pose proof (Hrect1 _ (series_of_In _ _ Ed)) as Ld.
  pose proof (Hrect1 _ (series_of_In _ _ Ea)) as La.
  cbn [snd] in Ld, La. rewrite Hn in Ld, La.
  assert (N : nrows (projected dates amounts df1) = nrows raw).
  { unfold projected. cbn [nrows]. now rewrite length_map, to_datetime_length. }
  split; [|split; [|split; [|split]]]; auto.
  - intros c Hc. rewrite N. unfold projected in Hc.
    destruct Hc as [<- | Hc]; [cbn [snd]; now rewrite length_map, to_datetime_length|].
    apply in_app_or in Hc. destruct Hc as [Hc | [<- | Hc]].
    + apply filter_In in Hc. destruct Hc as [Hc _]. rewrite <- Hn. now apply Hrect1.
    + cbn [snd]. now rewrite !length_map.
    + apply repeat_spec in Hc. subst c. cbn [snd]. now rewrite !length_map.
  - intros c Hc. rewrite <- Hn. now apply Hrect1.
Qed.

(** The standardizer keeps every row intact. *)
Lemma standardized_rows_intact raw out :
  rectangular raw ->
  _standardize_dataframe raw = Ok out ->
  exists df1 dates descs amounts,
    renamed raw = Some df1 /\
    series_of (utf8 "date") df1 = Ok dates /\
    hd_error (filter (labelled (utf8 "description")) df1)
      = Some (utf8 "description", descs) /\
    series_of (utf8 "amount") df1 = Ok amounts /\
    rectangular out /\ nrows out = nrows raw /\
    Permutation (map fields (records out))
                (map standardized (combine (combine (to_datetime dates) descs) amounts)).
Proof.
  intros Hrect. rewrite standardize_spec.
  destruct (renamed raw) as [df1|] eqn:R; [|discriminate].
  destruct (series_of (utf8 "date") df1) as [dates|] eqn:Ed; [|discriminate].
  destruct (series_of (utf8 "amount") df1) as [amounts|] eqn:Ea; [|discriminate].
  cbn [bind]. intros H.
  assert (Eout : out = reordered (argsort (to_datetime dates))
                                 (projected dates amounts df1))
    by (injection H; auto).
  clear H. subst out.
  destruct (first_description _ R) as (descs & others & Hf & Hin).
  destruct (projected_rectangular Hrect R Ed Ea) as (Hp & Np & Ld & La & Hall).
  pose proof (Hall _ Hin) as Ls. cbn [snd] in Ls.
  exists df1, dates, descs, amounts.
  split; [auto|]. split; [auto|]. split; [now rewrite Hf|]. split; [auto|].
  assert (Hrows : Permutation (argsort (to_datetime dates))
                              (seq 0 (nrows (projected dates amounts df1)))).
  { rewrite Np, <- Ld, <- (to_datetime_length dates). apply argsort_perm. }
  destruct (records_reordered_perm Hp Hrows) as (Eperm & Ro & No).
  split; [auto|]. split; [congruence|].
  set (L := combine (combine (to_datetime dates) descs) amounts).
  assert (LL : List.length L = nrows raw).
  { unfold L. rewrite !length_combine, to_datetime_length. lia. }
  assert (Heq : map fields (records (projected dates amounts df1)) = map standardized L).
  { unfold records. rewrite Np, map_map, <- LL.
    rewrite <- (map_nth_error_seq standardized (None, None, None, None) L).
    apply map_ext_in. intros j Hj. apply in_seq in Hj.
    unfold L at 1. rewrite !nth_error_combine.
    destruct (nth_error (to_datetime dates) j) as [d|] eqn:Nd;
      [|apply nth_error_None in Nd; rewrite to_datetime_length in Nd; lia].
    destruct (nth_error descs j) as [s|] eqn:Ns; [|apply nth_error_None in Ns; lia].
    destruct (nth_error amounts j) as [a|] eqn:Na; [|apply nth_error_None in Na; lia].
    eapply projected_fields; eauto. }
  rewrite <- Heq. exact (Permutation_map fields Eperm).
Qed.

End StandardizedRows.

(** X19.  The standardizer keeps every row intact.  For a rectangular table
    that it accepts, the (date, description, amount, type) of the output
    rows are, up to the order of the rows, those of the input rows: the
    converted date, the cell of the first description column as it is, the
    coerced amount and the type of its sign.  The output is rectangular and
    has as many rows as the input. *)
Theorem X19_standardized_rows_intact (U : Unicode) (P : Pandas) (raw out : DataFrame) :
  rectangular raw ->
  _standardize_dataframe raw = Ok out ->
  exists df1 dates descs amounts,
    renamed raw = Some df1 /\
    series_of (utf8 "date") df1 = Ok dates /\
    hd_error (filter (labelled (utf8 "description")) df1)
      = Some (utf8 "description", descs) /\
    series_of (utf8 "amount") df1 = Ok amounts /\
    rectangular out /\ nrows out = nrows raw /\
    Permutation (map fields (records out))
                (map standardized (combine (combine (to_datetime dates) descs) amounts)).
Proof. apply standardized_rows_intact. Qed.

Lemma X19_witness :
  exists df1 dates descs amounts,
    @renamed Latin1 plain_statement = Some df1 /\
    series_of (utf8 "date") df1 = Ok dates /\
    hd_error (filter (labelled (utf8 "description")) df1)
      = Some (utf8 "description", descs) /\
    series_of (utf8 "amount") df1 = Ok amounts /\
    rectangular plain_statement_standardized /\
    nrows plain_statement_standardized = nrows plain_statement /\
    Permutation (map fields (records plain_statement_standardized))
                (map (@standardized StringCells)
                     (combine (combine (@to_datetime StringCells dates) descs) amounts)).
Proof.
  apply (@X19_standardized_rows_intact Latin1 StringCells plain_statement).
  - intros c Hc. vm_compute in Hc. destruct Hc as [<- | [<- | [<- | []]]]; reflexivity.
  - vm_compute. reflexivity.
Defined.

Section Labels.
Context {U : Unicode} {P : Pandas}.

Lemma has_duplicates_repeat_iff l n :
  has_duplicates (repeat l n) = true <-> (2 <= n)%nat.
Proof.
  split; [|apply has_duplicates_repeat].
  destruct n as [|[|n]]; simpl; try discriminate. lia.
Qed.

Lemma existsb_repeat_other l l' n :
  l <> l' -> existsb (str_eqb l) (repeat l' n) = false.
Proof.
  intros H. induction n as [|n IH]; simpl; auto.
  now rewrite (str_eqb_neq H), IH.
Qed.

Lemma has_duplicates_app_disjoint a : forall b,
  (forall x, In x a -> existsb (str_eqb x) b = false) ->
  has_duplicates (a ++ b) = has_duplicates a || has_duplicates b.
Proof.
  induction a as [|x a IH]; intros b H; [reflexivity|].
  cbn [app has_duplicates]. rewrite existsb_app, IH.
  - rewrite (H x) by now left. rewrite orb_false_r, orb_assoc. reflexivity.
  - intros y Hy. apply H. now right.
Qed.

Lemma canonical_labels_duplicates k j :
  has_duplicates (canonical_labels k j []) = true <-> (2 <= k)%nat \/ (2 <= j)%nat.
Proof.
  unfold canonical_labels. rewrite app_nil_r.
  change (utf8 "date" :: repeat (utf8 "description") k
            ++ utf8 "amount" :: repeat (utf8 "type") j)
    with ([utf8 "date"] ++ repeat (utf8 "description") k
            ++ [utf8 "amount"] ++ repeat (utf8 "type") j).
  rewrite !has_duplicates_app_disjoint.
  - cbn [has_duplicates existsb orb].
    rewrite orb_true_iff, !has_duplicates_repeat_iff. reflexivity.
  - intros x [<-|[]]. apply existsb_repeat_other. discriminate.
  - intros x Hx. apply repeat_spec in Hx. subst x. rewrite existsb_app.
    cbn [existsb]. rewrite existsb_repeat_other by discriminate. reflexivity.
  - intros x [<-|[]]. rewrite !existsb_app. cbn [existsb].
    now rewrite !existsb_repeat_other by discriminate.
Qed.

(** X20.  The labels of a standardized table are date, then description once
    for every column that carries that label after the renaming, then
    amount, then type (once, or once for every type column of the input);
    every other column of the input is dropped.  A label repeats exactly
    when the renamed input has a second description or type column. *)
Theorem X20_standardized_labels raw out :
  _standardize_dataframe raw = Ok out ->
  exists df1,
    renamed raw = Some df1 /\
    let k := List.length (filter (labelled (utf8 "description")) df1) in
    let j := List.length (filter (labelled (utf8 "type")) df1) in
    columns out = utf8 "date" :: repeat (utf8 "description") k
                    ++ utf8 "amount" :: repeat (utf8 "type") (Nat.max 1 j) /\
    (1 <= k)%nat /\
    (has_duplicates (columns out) = true <-> (2 <= k)%nat \/ (2 <= j)%nat).
Proof.
  rewrite standardize_spec.
  destruct (renamed raw) as [df1|] eqn:R; [|discriminate].
  destruct (series_of (utf8 "date") df1) as [dates|]; [|discriminate].
  destruct (series_of (utf8 "amount") df1) as [amounts|]; [|discriminate].
  cbn [bind]. intros H.
  assert (E : out = reordered (argsort (to_datetime dates)) (projected dates amounts df1))
    by (injection H; auto).
  clear H. subst out. exists df1. split; auto. cbv zeta.
  set (k := List.length (filter (labelled (utf8 "description")) df1)).
  set (j := List.length (filter (labelled (utf8 "type")) df1)).
  assert (C : columns (reordered (argsort (to_datetime dates))
                                 (projected dates amounts df1))
              = canonical_labels k (Nat.max 1 j) []).
  { rewrite columns_reordered. unfold projected, columns, canonical_labels.
    cbn [map fst]. rewrite map_app. cbn [map fst].
    fold (columns (filter (labelled (utf8 "description")) df1)).
    rewrite columns_filter_labelled, map_repeat, app_nil_r. reflexivity. }
  split; [|split].
  - rewrite C. unfold canonical_labels. now rewrite app_nil_r.
  - pose proof (renamed_has_description _ R) as H. unfold k.
    destruct (filter (labelled (utf8 "description")) df1); [congruence|]. simpl. lia.
  - rewrite C, canonical_labels_duplicates. lia.
Qed.

End Labels.

Definition two_descriptions_standardized : DataFrame :=
  Eval vm_compute in
    match @_standardize_dataframe Latin1 StringCells statement_with_two_descriptions with
    | Ok out => out
    | Raise _ => []
    end.

Lemma X20_witness :
  exists df1,
    @renamed Latin1 statement_with_two_descriptions = Some df1 /\
    let k := List.length (filter (labelled (utf8 "description")) df1) in
    let j := List.length (filter (labelled (utf8 "type")) df1) in
    columns two_descriptions_standardized
      = utf8 "date" :: repeat (utf8 "description") k
          ++ utf8 "amount" :: repeat (utf8 "type") (Nat.max 1 j) /\
    (1 <= k)%nat /\
    (has_duplicates (columns two_descriptions_standardized) = true
     <-> (2 <= k)%nat \/ (2 <= j)%nat).
Proof.
  apply (@X20_standardized_labels Latin1 StringCells statement_with_two_descriptions).
  vm_compute. reflexivity.
Defined.

(** ** The table loaders *)

Section Loaders.
Context {U : Unicode} {P : Pandas} {W : World}.

(** one round of the encoding loop: load, then standardize *)
Definition attempt (file_path : pystr) (enc : encoding) : result DataFrame :=
  raw <- read_csv file_path enc ;; _standardize_dataframe raw.

Definition fails (file_path : pystr) (enc : encoding) : Prop :=
  exists e, attempt file_path enc = Raise e.

Lemma try_encodings_first file_path df : forall encs,
  try_encodings file_path encs = Ok df <->
  exists pre enc post,
    encs = pre ++ enc :: post /\
    Forall (fails file_path) pre /\
    attempt file_path enc = Ok df.
Proof.
  induction encs as [|enc rest IH].
  - split; [discriminate|]. intros (pre & enc & post & H & _). now destruct pre.
  - cbn [try_encodings]. fold (attempt file_path enc).
    destruct (attempt file_path enc) as [out|e] eqn:E.
    + split.
      * intros H. injection H as <-. exists [], enc, rest. auto.
      * intros (pre & enc' & post & H & Hpre & Hok).
        destruct pre as [|p pre]; injection H as -> ->.
        -- congruence.
        -- apply Forall_cons_iff in Hpre. destruct Hpre as [[e He] _]. congruence.
    + rewrite IH. split.
      * intros (pre & enc' & post & -> & Hpre & Hok).
        exists (enc :: pre), enc', post. repeat split; auto.
        constructor; auto. exists e. exact E.
      * intros (pre & enc' & post & H & Hpre & Hok).
        destruct pre as [|p pre]; injection H as -> ->; [congruence|].
        apply Forall_cons_iff in Hpre. exists pre, enc', post. tauto.
Qed.

(** X21.  [_process_csv] returns a table exactly when some encoding of the
    list utf-8, iso-8859-1, cp1252 loads the file into a table that the
    standardizer accepts while every encoding before it failed (to load or
    to standardize), and it returns the table of that first encoding. *)
Theorem X21_first_encoding_that_works file_path df :
  _process_csv file_path = Ok df <->
  exists pre enc post,
    [utf_8; iso_8859_1; cp1252] = pre ++ enc :: post /\
    Forall (fails file_path) pre /\
    attempt file_path enc = Ok df.
Proof. apply try_encodings_first. Qed.

Lemma excel_extension extension :
  member extension (map utf8 [".xlsx"; ".xls"]%string) = true ->
  member extension (supported_extensions (__init__ None)) = true /\
  str_eqb extension (utf8 ".pdf") = false /\
  str_eqb extension (utf8 ".csv") = false.
Proof.
  cbn [map member existsb]. rewrite orb_false_r. intros H.
  apply orb_true_iff in H. destruct H as [H|H]; apply str_eqb_eq in H; subst;
    repeat split; reflexivity.
Qed.

(** X22.  For a spreadsheet (.xlsx, .xls) that exists, the single-document
    API fails exactly with the error of the loader or, when the file loads,
    with the error of the standardizer: MissingColumns reaches the caller. *)
Theorem X22_spreadsheet_errors_surface input_dir file_path e :
  path_exists file_path = true ->
  member (str_lower (suffix file_path)) (map utf8 [".xlsx"; ".xls"]%string) = true ->
  process_statement (__init__ input_dir) file_path = Raise e <->
  read_excel file_path = Raise e \/
  exists raw, read_excel file_path = Ok raw /\ _standardize_dataframe raw = Raise e.
Proof.
  intros Hex Hm. destruct (excel_extension _ Hm) as (H1 & H2 & H3).
  unfold process_statement.
  change (supported_extensions (__init__ input_dir))
    with (supported_extensions (__init__ None)).
  rewrite Hex, H1, H2, H3, Hm. cbn [negb]. unfold _process_excel.
  destruct (read_excel file_path) as [raw|e'] eqn:R; cbn [bind].
  - destruct (_standardize_dataframe raw) as [out|e'] eqn:S; cbn [bind].
    + split; [discriminate|]. intros [H|(raw' & H & H')]; [discriminate|].
      injection H as <-. congruence.
    + split.
      * intros H. injection H as ->. right. eauto.
      * intros [H|(raw' & H & H')]; [discriminate|].
        injection H as <-. congruence.
  - split.
    + intros H. injection H as ->. auto.
    + intros [H|(raw' & H & _)]; [|discriminate]. injection H as ->. reflexivity.
Qed.

End Loaders.

(** a file that is not valid UTF-8 but loads as Latin-1, and a spreadsheet
    without a date column *)
Definition latin1_statement : Folder :=
  [ (utf8 "extrato.csv",
     CsvFile (fun enc => match enc with
                         | utf_8 => Raise UnicodeDecodeError
                         | _ => Ok plain_statement
                         end));
    (utf8 "sem_data.xlsx",
     ExcelFile (Ok (table [ ("Valor", ["-45,67"]); ("Descricao", ["COMPRA"]) ]%string))) ].

Lemma X21_witness :
  @_process_csv Latin1 StringCells (folder_world latin1_statement) (utf8 "extrato.csv")
  = Ok plain_statement_standardized.
Proof.
  apply (proj2 (@X21_first_encoding_that_works Latin1 StringCells
                  (folder_world latin1_statement) (utf8 "extrato.csv") _)).
  exists [utf_8], iso_8859_1, [cp1252]. split; [reflexivity|]. split.
  - constructor; [|constructor]. exists UnicodeDecodeError. reflexivity.
  - vm_compute. reflexivity.
Defined.

Lemma X22_witness :
  @process_statement Latin1 StringCells (folder_world latin1_statement)
    (__init__ None) (utf8 "sem_data.xlsx") = Raise MissingColumns.
Proof.
  apply (proj2 (@X22_spreadsheet_errors_surface Latin1 StringCells
                  (folder_world latin1_statement) None (utf8 "sem_data.xlsx")
                  MissingColumns eq_refl eq_refl)).
  right. eexists. split; reflexivity.
Defined.

(** ** The rows of the merged table *)

Lemma canonical_not_nil extra df : canonical extra df -> df <> [].
Proof. intros (times & rest & k & j & -> & _). discriminate. Qed.

Lemma canonical_setitem_source df s :
  canonical [] df ->
  setitem (utf8 "source_file") s df = df ++ [(utf8 "source_file", s)].
Proof.
  intros (times & rest & k & j & -> & Hk & Hj & Hc).
  unfold setitem.
  destruct (existsb _ _) eqn:E; auto. exfalso.
  apply existsb_exists in E. destruct E as (c & Hin & Hl).
  apply labelled_true in Hl.
  assert (H : In (fst c) (columns ((utf8 "date", map VTime times) :: rest)))
    by (unfold columns; now apply in_map).
  rewrite Hc, Hl in H. apply in_canonical_labels in H.
  destruct H as [H|[H|[H|[H|[]]]]]; discriminate.
Qed.

Lemma nth_error_repeat_lt (A : Type) (v : A) n i :
  (i < n)%nat -> nth_error (repeat v n) i = Some v.
Proof.
  revert i. induction n as [|n IH]; intros [|i] H; simpl; auto; try lia.
  apply IH. lia.
Qed.

Lemma records_with_column df l v :
  df <> [] ->
  records (df ++ [(l, repeat v (nrows df))]) = map (fun r => r ++ [(l, v)]) (records df) /\
  nrows (df ++ [(l, repeat v (nrows df))]) = nrows df.
Proof.
  intros Hne.
  assert (N : nrows (df ++ [(l, repeat v (nrows df))]) = nrows df)
    by (destruct df as [|[l0 s0] df]; [congruence|reflexivity]).
  split; auto.
  unfold records. rewrite N, map_map. apply map_ext_in. intros i Hi.
  apply in_seq in Hi. rewrite record_at_app. f_equal.
  unfold record_at. cbn [flat_map fst snd].
  rewrite nth_error_repeat_lt by lia. reflexivity.
Qed.

Lemma rectangular_with_column df l v :
  df <> [] -> rectangular df -> rectangular (df ++ [(l, repeat v (nrows df))]).
Proof.
  intros Hne H c Hc. rewrite (proj2 (records_with_column l v Hne)).
  apply in_app_or in Hc. destruct Hc as [Hc | [<- | []]]; auto.
  cbn [snd]. apply repeat_length.
Qed.

Lemma flat_map_flat_map (A B C : Type) (f : B -> list C) (g : A -> list B) l :
  flat_map f (flat_map g l) = flat_map (fun x => flat_map f (g x)) l.
Proof.
  induction l as [|x l IH]; simpl; auto. now rewrite flat_map_app, IH.
Qed.

Lemma concat_canonical_ok extra first others out :
  canonical extra first -> Forall (canonical extra) others ->
  concat (first :: others) = Ok out ->
  out = fold_left stack others first /\
  Forall (fun df => columns df = columns first) others.
Proof.
  intros Hf Ho H.
  destruct (concat_canonical Hf Ho) as [[Hc _] | [_ Hr]]; [|congruence].
  unfold concat in H. rewrite Hc in H. injection H as <-. split; auto.
  apply Forall_forall. intros df Hin. rewrite forallb_forall in Hc.
  now apply list_eqb_eq, Hc.
Qed.

Section MergedRows.
Context {U : Unicode} {P : Pandas} {W : World}.

(** the table loaders return tables: every column has one cell per row *)
Definition loaders_return_tables : Prop :=
  (forall file_path enc raw, read_csv file_path enc = Ok raw -> rectangular raw) /\
  (forall file_path raw, read_excel file_path = Ok raw -> rectangular raw).

(** the rows that a file adds to the merged table: the rows of its table,
    each with the file's name under 'source_file' *)
Definition rows_from (self : BankStatementProcessor) (file_path : pystr) : list record :=
  match process_statement self file_path with
  | Ok (Some df) =>
    map (fun r => r ++ [(utf8 "source_file", VStr (name file_path))]) (records df)
  | _ => []
  end.

Lemma standardized_rectangular raw out :
  rectangular raw -> _standardize_dataframe raw = Ok out -> rectangular out.
Proof.
  intros Hr H. destruct (standardized_rows_intact Hr H) as (? & ? & ? & ? & ? & ? & ? & ? & R & _).
  exact R.
Qed.

Lemma process_statement_rectangular self file_path df :
  loaders_return_tables ->
  process_statement self file_path = Ok (Some df) -> rectangular df.
Proof.
  intros [Hcsv Hxl]. unfold process_statement.
  destruct (negb (path_exists file_path)); [discriminate|].
  destruct (negb (member _ (supported_extensions self))); [discriminate|].
  destruct (str_eqb _ (utf8 ".pdf")).
  { unfold _process_pdf.
    assert (G : forall text out, _parse_text_content text = Ok out -> rectangular out).
    { intros text out. rewrite parse_text_content_spec. intros H. injection H as <-.
      apply parsed_frame_rectangular. }
    destruct (pdf_pages file_path) as [pages|]; cbn [bind].
    - destruct (filter nonempty pages) as [|p ps].
      + destruct (ocr_pages file_path) as [t|]; cbn [bind]; [|discriminate].
        destruct (_parse_text_content (join_lines t)) eqn:E; cbn [bind]; [|discriminate].
        intros H. injection H as <-. eapply G; eauto.
      + destruct (_parse_text_content (join_lines (p :: ps))) eqn:E; cbn [bind].
        * intros H. injection H as <-. eapply G; eauto.
        * destruct (ocr_pages file_path) as [t|]; cbn [bind]; [|discriminate].
          destruct (_parse_text_content (join_lines t)) eqn:E'; cbn [bind]; [|discriminate].
          intros H. injection H as <-. eapply G; eauto.
    - destruct (ocr_pages file_path) as [t|]; cbn [bind]; [|discriminate].
      destruct (_parse_text_content (join_lines t)) eqn:E; cbn [bind]; [|discriminate].
      intros H. injection H as <-. eapply G; eauto. }
  destruct (str_eqb _ (utf8 ".csv")).
  { destruct (_process_csv file_path) eqn:E; cbn [bind]; [|discriminate].
    intros H. injection H as <-.
    apply try_encodings_ok in E. destruct E as (enc & raw & _ & R & E).
    eapply standardized_rectangular; eauto. }
  destruct (member _ _); [|discriminate].
  unfold _process_excel.
  destruct (read_excel file_path) as [raw|] eqn:R; cbn [bind]; [|discriminate].
  destruct (_standardize_dataframe raw) eqn:E; cbn [bind]; [|discriminate].
  intros H. injection H as <-. eapply standardized_rectangular; eauto.
Qed.

Lemma contribution_rows self file_path :
  flat_map records (contribution self file_path) = rows_from self file_path.
Proof.
  unfold contribution, rows_from.
  destruct (member _ (supported_extensions self)) eqn:M.
  - destruct (process_statement self file_path) as [[df|]|] eqn:E; auto.
    destruct (negb (empty df)) eqn:Em.
    + pose proof (process_statement_shape _ _ E) as [-> | Hc]; [discriminate|].
      cbn [flat_map]. rewrite app_nil_r, (canonical_setitem_source _ Hc).
      apply records_with_column. eapply canonical_not_nil; eauto.
    + cbn [flat_map]. unfold records.
      replace (nrows df) with 0%nat; [reflexivity|].
      destruct df as [|[l s] df]; [reflexivity|].
      cbn [empty nrows] in *. apply negb_false_iff, Nat.eqb_eq in Em. now rewrite Em.
  - unfold process_statement.
    destruct (negb (path_exists file_path)); auto. now rewrite M.
Qed.

Lemma contribution_rectangular self file_path c :
  loaders_return_tables ->
  In c (contribution self file_path) -> rectangular c /\ c <> [].
Proof.
  intros HW. unfold contribution.
  destruct (member _ _); [|contradiction].
  destruct (process_statement self file_path) as [[df|]|] eqn:E; try contradiction.
  destruct (negb (empty df)) eqn:Em; [|contradiction].
  intros [<- | []].
  pose proof (process_statement_shape _ _ E) as [-> | Hc]; [discriminate|].
  pose proof (canonical_not_nil Hc) as Hne.
  rewrite (canonical_setitem_source _ Hc). split.
  - apply rectangular_with_column; auto. eapply process_statement_rectangular; eauto.
  - destruct df; [congruence|discriminate].
Qed.

(** X23.  When the batch call returns a table, its rows are, up to their
    order, the rows of the tables that [process_statement] returns for the
    files of the directory, each row with the name of its file under
    'source_file': no row is lost, duplicated or invented by the merge, and
    a file that fails, or is not a statement, adds none.  (The table loaders
    are taken to return rectangular tables, as pandas does.) *)
Theorem X23_merged_rows self directory dir out :
  loaders_return_tables ->
  chosen_directory self directory = Some dir ->
  process_directory self directory = Ok out ->
  Permutation (records out) (flat_map (rows_from self) (glob dir)).
Proof.
  intros HW Hdir. unfold process_directory, chosen_directory in *. rewrite Hdir.
  cbv zeta.
  rewrite <- (flat_map_ext _ _ (contribution_rows self)), <- flat_map_flat_map.
  set (all_transactions := flat_map (contribution self) (glob dir)).
  assert (Hall : Forall (canonical [utf8 "source_file"]) all_transactions).
  { apply Forall_forall. intros c Hc. unfold all_transactions in Hc.
    apply in_flat_map in Hc. destruct Hc as (p & _ & Hc).
    eapply contribution_shape; eauto. }
  assert (Hrect : Forall rectangular all_transactions).
  { apply Forall_forall. intros c Hc. unfold all_transactions in Hc.
    apply in_flat_map in Hc. destruct Hc as (p & _ & Hc).
    eapply contribution_rectangular; eauto. }
  destruct all_transactions as [|first others].
  - intros H. injection H as <-. constructor.
  - apply Forall_cons_iff in Hall, Hrect.
    destruct Hall as [Hf Ho], Hrect as [Rf Ro].
    destruct (concat (first :: others)) as [result|] eqn:C; cbn [bind]; [|discriminate].
    destruct (concat_canonical_ok Hf Ho C) as [-> Hcols].
    destruct (records_fold_stack (canonical_not_nil Hf) Rf Ro Hcols) as [E R].
    intros H. destruct (@sort_values_records _ _ _ R H) as (Hp & _ & _).
    cbn [flat_map]. now rewrite <- E.
Qed.

End MergedRows.

(** a directory with a statement table, a document and a file that is no
    statement *)
Definition mixed_directory : Folder :=
  [ (utf8 "a.csv", CsvFile (fun _ => Ok plain_statement));
    (utf8 "s.pdf", PdfFile (Ok [utf8 "03/03/2024 COMPRA 5,00"]) (Raise (External 7)));
    (utf8 "notas.txt", CsvFile (fun _ => Raise (External 9))) ].

Definition mixed_directory_merged : DataFrame :=
  Eval vm_compute in
    match @process_directory Latin1 StringCells (folder_world mixed_directory)
            (__init__ None) (Some (utf8 "extratos")) with
    | Ok out => out
    | Raise _ => []
    end.

Lemma folder_loaders_return_tables (fs : Folder) :
  Forall (fun f => match snd f with
                   | CsvFile load => forall enc raw, load enc = Ok raw -> rectangular raw
                   | ExcelFile load => forall raw, load = Ok raw -> rectangular raw
                   | PdfFile _ _ => True
                   end) fs ->
  @loaders_return_tables (folder_world fs).
Proof.
  intros H. split.
  - intros p enc raw. cbn [read_csv folder_world].
    induction H as [|[n f] fs Hf _ IH]; cbn [lookup_file]; [discriminate|].
    destruct (str_eqb n p); [|exact IH].
    destruct f; try discriminate. apply Hf.
  - intros p raw. cbn [read_excel folder_world].
    induction H as [|[n f] fs Hf _ IH]; cbn [lookup_file]; [discriminate|].
    destruct (str_eqb n p); [|exact IH].
    destruct f; try discriminate. apply Hf.
Qed.

Lemma rectangular_plain_statement : rectangular plain_statement.
Proof.
  intros c Hc. vm_compute in Hc. destruct Hc as [<- | [<- | [<- | []]]]; reflexivity.
Qed.

Lemma X23_witness :
  Permutation
    (records mixed_directory_merged)
    (flat_map (@rows_from Latin1 StringCells (folder_world mixed_directory) (__init__ None))
              (map fst mixed_directory)).
Proof.
  apply (@X23_merged_rows Latin1 StringCells (folder_world mixed_directory)
           (__init__ None) (Some (utf8 "extratos")) (utf8 "extratos")).
  - apply folder_loaders_return_tables. repeat constructor.
    + intros enc raw H. injection H as <-. apply rectangular_plain_statement.
    + discriminate.
  - reflexivity.
  - vm_compute. reflexivity.
Defined.

Lemma sort_values_columns label df out :
  sort_values label df = Ok out -> columns out = columns df.
Proof.
  unfold sort_values. destruct (series_of label df); cbn [bind]; [|discriminate].
  intros H. injection H as <-. unfold columns. rewrite map_map. reflexivity.
Qed.

Section MergedShape.
Context {U : Unicode} {P : Pandas} {W : World}.

(** X24.  A table returned by the batch call is the empty table without
    columns (no file contributed) or its labels are date, one or more
    description, amount, one or more type, and source_file last. *)
Theorem X24_merged_table_labels self directory out :
  process_directory self directory = Ok out ->
  out = [] \/
  exists k j,
    (1 <= k)%nat /\ (1 <= j)%nat /\
    columns out = utf8 "date" :: repeat (utf8 "description") k
                    ++ utf8 "amount" :: repeat (utf8 "type") j
                    ++ [utf8 "source_file"].
Proof.
  unfold process_directory.
  destruct (if truthy directory then directory else input_dir self) as [dir|];
    [|discriminate].
  cbv zeta.
  set (all_transactions := flat_map (contribution self) (glob dir)).
  assert (Hall : Forall (canonical [utf8 "source_file"]) all_transactions).
  { apply Forall_forall. intros c Hc. unfold all_transactions in Hc.
    apply in_flat_map in Hc. destruct Hc as (p & _ & Hc).
    eapply contribution_shape; eauto. }
  destruct all_transactions as [|first others].
  - intros H. injection H as <-. now left.
  - apply Forall_cons_iff in Hall. destruct Hall as [Hf Ho].
    destruct (concat_canonical Hf Ho) as [[_ (result & -> & Hcan)] | [_ ->]];
      cbn [bind]; [|discriminate].
    intros H. right. apply sort_values_columns in H.
    destruct Hcan as (times & rest & k & j & _ & Hk & Hj & Hc).
    exists k, j. repeat split; auto. now rewrite H, Hc.
Qed.

End MergedShape.

Lemma X24_witness :
  mixed_directory_merged = [] \/
  exists k j,
    (1 <= k)%nat /\ (1 <= j)%nat /\
    columns mixed_directory_merged
      = utf8 "date" :: repeat (utf8 "description") k
          ++ utf8 "amount" :: repeat (utf8 "type") j
          ++ [utf8 "source_file"].
Proof.
  apply (@X24_merged_table_labels Latin1 StringCells (folder_world mixed_directory)
           (__init__ None) (Some (utf8 "extratos"))).
  vm_compute. reflexivity.
Defined.

(** ** Directories of PDF documents *)

Lemma has_duplicates_snoc a x :
  existsb (fun l => str_eqb l x) a = false ->
  has_duplicates (a ++ [x]) = has_duplicates a.
Proof.
  induction a as [|l a IH]; simpl; auto. intros H.
  apply orb_false_iff in H. destruct H as [H1 H2].
  rewrite existsb_app, IH by auto. simpl. now rewrite H1, !orb_false_r.
Qed.

Section BatchFailure.
Context {U : Unicode} {P : Pandas} {W : World}.

Lemma contribution_inv self file_path c :
  In c (contribution self file_path) ->
  exists df, process_statement self file_path = Ok (Some df) /\
             canonical [] df /\
             c = df ++ [(utf8 "source_file", repeat (VStr (name file_path)) (nrows df))].
Proof.
  unfold contribution.
  destruct (member _ _); [|contradiction].
  destruct (process_statement self file_path) as [[df|]|] eqn:E; try contradiction.
  destruct (negb (empty df)) eqn:Em; [|contradiction].
  intros [<- | []].
  pose proof (process_statement_shape _ _ E) as [-> | Hc]; [discriminate|].
  exists df. repeat split; auto. now apply canonical_setitem_source.
Qed.

Lemma canonical_without_source df :
  canonical [] df -> existsb (fun l => str_eqb l (utf8 "source_file")) (columns df) = false.
Proof.
  intros (times & rest & k & j & -> & _ & _ & Hc). rewrite Hc.
  destruct (existsb _ _) eqn:E; auto. exfalso.
  apply existsb_exists in E. destruct E as (l & Hin & Hl).
  apply str_eqb_eq in Hl. subst l. apply in_canonical_labels in Hin.
  destruct Hin as [H|[H|[H|[H|[]]]]]; discriminate.
Qed.

Lemma text_table_labels text df :
  _parse_text_content text = Ok df -> has_duplicates (columns df) = false.
Proof.
  rewrite parse_text_content_spec. intros H. injection H as <-.
  destruct (by_date (collected None (split_lines text))); reflexivity.
Qed.

Lemma process_pdf_labels file_path df :
  _process_pdf file_path = Ok df -> has_duplicates (columns df) = false.
Proof.
  unfold _process_pdf.
  destruct (pdf_pages file_path) as [pages|]; cbn [bind].
  - destruct (filter nonempty pages) as [|p ps].
    + destruct (ocr_pages file_path); cbn [bind]; [|discriminate].
      apply text_table_labels.
    + destruct (_parse_text_content (join_lines (p :: ps))) eqn:E; cbn [bind].
      * intros H. injection H as <-. eapply text_table_labels; eauto.
      * destruct (ocr_pages file_path); cbn [bind]; [|discriminate].
        apply text_table_labels.
  - destruct (ocr_pages file_path); cbn [bind]; [|discriminate].
    apply text_table_labels.
Qed.

Lemma repeated_label_not_pdf self file_path df :
  process_statement self file_path = Ok (Some df) ->
  has_duplicates (columns df) = true ->
  str_eqb (str_lower (suffix file_path)) (utf8 ".pdf") = false.
Proof.
  unfold process_statement.
  destruct (negb (path_exists file_path)); [discriminate|].
  destruct (negb (member _ (supported_extensions self))); [discriminate|].
  destruct (str_eqb _ (utf8 ".pdf")); auto.
  destruct (_process_pdf file_path) eqn:E; cbn [bind]; [|discriminate].
  intros H. injection H as <-. apply process_pdf_labels in E. congruence.
Qed.

Lemma contribution_supported self file_path c :
  In c (contribution self file_path) ->
  member (str_lower (suffix file_path)) (supported_extensions self) = true.
Proof.
  unfold contribution. destruct (member _ _); [reflexivity | contradiction].
Qed.

(** X25.  A directory in which every file with a supported extension is a
    PDF document never makes the batch call fail: each document contributes
    nothing or a table labelled date, description, amount, type and
    source_file, so the concatenation and the final sort go through, also
    when some of the documents cannot be read. *)
Theorem X25_pdf_directory_is_merged self directory dir :
  chosen_directory self directory = Some dir ->
  (forall file_path,
      In file_path (glob dir) ->
      member (str_lower (suffix file_path)) (supported_extensions self) = true ->
      str_lower (suffix file_path) = utf8 ".pdf") ->
  exists out, process_directory self directory = Ok out.
Proof.
  unfold process_directory, chosen_directory. intros Hdir Hpdf. rewrite Hdir.
  pose proof (merge_contributions self dir) as M. cbv zeta in M |- *.
  destruct M as [[_ (out & Hout & _)] | [(df1 & df2 & H1 & H2 & Hne) _]].
  { exists out. exact Hout. }
  exfalso.
  assert (G : forall c, In c (flat_map (contribution self) (glob dir)) ->
                        has_duplicates (columns c) = false).
  { intros c Hc. apply in_flat_map in Hc. destruct Hc as (p & Hp & Hc).
    pose proof (contribution_supported _ _ _ Hc) as Hm.
    apply contribution_inv in Hc. destruct Hc as (df & E & Hcan & ->).
    unfold columns. rewrite map_app. cbn [map fst].
    rewrite has_duplicates_snoc by now apply canonical_without_source.
    destruct (has_duplicates (map fst df)) eqn:D; auto.
    pose proof (repeated_label_not_pdf _ _ E D) as F.
    rewrite (Hpdf p Hp Hm) in F. discriminate F. }
  assert (S : forall c, In c (flat_map (contribution self) (glob dir)) ->
                        canonical [utf8 "source_file"] c).
  { intros c Hc. apply in_flat_map in Hc. destruct Hc as (p & _ & Hc).
    eapply contribution_shape; eauto. }
  apply Hne.
  rewrite (canonical_unique_labels (S _ H1) (G _ H1)).
  rewrite (canonical_unique_labels (S _ H2) (G _ H2)).
  reflexivity.
Qed.

End BatchFailure.

Lemma X25_witness :
  exists out,
    @process_directory Latin1 StringCells (folder_world two_documents)
      (__init__ None) (Some (utf8 "extratos")) = Ok out.
Proof.
  apply (@X25_pdf_directory_is_merged Latin1 StringCells (folder_world two_documents)
           (__init__ None) (Some (utf8 "extratos")) (utf8 "extratos")).
  - reflexivity.
  - intros file_path [<- | [<- | []]] _; vm_compute; reflexivity.
Defined.
